(** * Waymark (Chapter Marker Buddy): the persistence layer

    A shallow embedding of [src/content/storage.js] (window.CMBStorage),
    [src/content/screenshot-db.js] (CMBScreenshotDB), the helper
    [extractVideoId] of CMBUtils, the daily cleanup gate and the manual
    timer of the overlay script, the deep links of [deeplinks.js]
    (CMBDeepLinks) and the text functions of [exporters.js] (CMBExporters),
    followed by the properties of the storage specification and by further
    properties of the code.

    Asynchronous functions are embedded in a state-and-exception monad over
    a [World] that holds chrome.storage.local, the IndexedDB object store,
    the clock, the toasts shown and the backend operations performed.  A
    rejected promise is a [Throw]; [try]/[catch] is [try_catch].  The write
    queue, whose behaviour depends on calls that interleave at its [await]
    points, is embedded as a step function in [CMBStorage].

    Conventions of the embedding:
    - [Date.now()] reads the clock of the world, which stands still during
      one operation;
    - only toasts are recorded, not what is written to the console;
    - the write queue holds objects by reference: the session objects of
      the page are the cells of a memory, and a queued collection is
      serialised when its write is issued; everywhere else a session
      handed to a function stands for the object as it is when it is
      written;
    - an object used as a dictionary is the list of its own entries, which
      is what indexing it gives for every key but the names of the members
      of [Object.prototype];
    - session keys are not integer-like (they contain a bar), so
      [Object.keys] lists them in insertion order;
    - the time of a marker and of a deep link is a whole number of seconds,
      as [addMarker] makes it with [Math.floor];
    - a string is its sequence of bytes; the text functions embedded treat
      every byte outside ASCII alike;
    - of the functions of the overlay only the state they compute is
      embedded, not what they write to the page. *)

From Stdlib Require Import ZArith Lia Bool Ascii String DecimalString.
From Stdlib Require Import Sorting.Sorted Sorting.Permutation.
From Stdlib Require DecimalPos DecimalZ.
From stdpp Require Import base option list strings gmap fin_maps.

Local Open Scope Z_scope.

(* ===================================================================== *)
(** ** JavaScript values the code relies on                               *)
(* ===================================================================== *)

Module JS.

(** [a || b] on numbers: [0] (like [undefined]) is falsy. *)
Definition or_num (a b : Z) : Z := if a =? 0 then b else a.

(** [a || b] on strings: the empty string (like [undefined]) is falsy. *)
Definition or_str (a b : string) : string :=
  if String.eqb a EmptyString then b else a.

(** ** Plain objects used as dictionaries

    [Object.keys] lists own keys in insertion order, which is the order
    the sort of [cleanupOldSessions] starts from, so a dictionary is an
    association list.  An assignment to an existing key keeps its
    position; [delete] removes the key. *)
Definition Obj (V : Type) : Type := list (string * V).

Fixpoint get {V} (k : string) (o : Obj V) : option V :=
  match o with
  | [] => None
  | (k', v) :: o' => if String.eqb k k' then Some v else get k o'
  end.

Fixpoint set {V} (k : string) (v : V) (o : Obj V) : Obj V :=
  match o with
  | [] => [(k, v)]
  | (k', v') :: o' =>
      if String.eqb k k' then (k', v) :: o' else (k', v') :: set k v o'
  end.

Definition delete {V} (k : string) (o : Obj V) : Obj V :=
  List.filter (fun kv => negb (String.eqb k (fst kv))) o.

Definition keys {V} (o : Obj V) : list string := List.map fst o.

(** ** Members of [Object.prototype]

    A plain object also answers to the names it inherits: [o[k]] finds a
    member of [Object.prototype] under them, and [o['__proto__'] = v]
    sets the prototype and stores no entry.  [get] and [set] describe
    [o[k]] and [o[k] = v] for the other keys, and the properties of the
    functions that index a collection by a key of the caller are stated
    for those. *)
Definition inherited : list string :=
  ["constructor"; "__proto__"; "hasOwnProperty"; "isPrototypeOf";
   "propertyIsEnumerable"; "toLocaleString"; "toString"; "valueOf";
   "__defineGetter__"; "__defineSetter__"; "__lookupGetter__"; "__lookupSetter__"].

Definition is_inherited (k : string) : bool := List.existsb (String.eqb k) inherited.

(** ** [Array.prototype.sort]

    The sort is stable; [cmp a b <= 0] keeps [a] before [b]. *)
Fixpoint insert_sorted {A} (cmp : A -> A -> Z) (x : A) (l : list A) : list A :=
  match l with
  | [] => [x]
  | y :: l' => if cmp x y <=? 0 then x :: y :: l' else y :: insert_sorted cmp x l'
  end.

Definition sort {A} (cmp : A -> A -> Z) (l : list A) : list A :=
  List.fold_right (insert_sorted cmp) [] l.

(** [arr.slice(n)] *)
Definition slice_from {A} (n : nat) (l : list A) : list A := List.skipn n l.

(** ** Strings *)

(** [s.includes(needle)] *)
Fixpoint includes (needle s : string) : bool :=
  if String.prefix needle s then true
  else match s with
       | EmptyString => false
       | String _ s' => includes needle s'
       end.

(** [s.replace(/\//g, '-')] *)
Fixpoint replace_slashes (s : string) : string :=
  match s with
  | EmptyString => EmptyString
  | String c s' =>
      String (if Ascii.eqb c "/"%char then "-"%char else c) (replace_slashes s')
  end.

(** [s.split('/').pop()]: what follows the last slash. *)
Fixpoint last_segment_aux (acc s : string) : string :=
  match s with
  | EmptyString => acc
  | String c s' =>
      if Ascii.eqb c "/"%char then last_segment_aux EmptyString s'
      else last_segment_aux (acc +:+ String c EmptyString) s'
  end.

Definition last_segment (s : string) : string := last_segment_aux EmptyString s.

Definition is_digit (c : ascii) : bool :=
  let n := Ascii.nat_of_ascii c in (Nat.leb 48 n && Nat.leb n 57)%bool.

(** The longest run of digits at the head of [s]. *)
Fixpoint take_digits (s : string) : string :=
  match s with
  | EmptyString => EmptyString
  | String c s' => if is_digit c then String c (take_digits s') else EmptyString
  end.

(** [s.match(re)] for a regular expression [lit(\d+)]: the first group of
    the leftmost match, where [lit] is a literal string. *)
Fixpoint match_lit_digits (lit s : string) : option string :=
  let here :=
    if String.prefix lit s then
      let ds := take_digits (String.substring (String.length lit)
                               (String.length s - String.length lit) s) in
      if String.eqb ds EmptyString then None else Some ds
    else None in
  match here with
  | Some ds => Some ds
  | None => match s with
            | EmptyString => None
            | String _ s' => match_lit_digits lit s'
            end
  end.

(** [s.toLowerCase()] on ASCII letters. *)
Definition lower_char (c : ascii) : ascii :=
  let n := Ascii.nat_of_ascii c in
  if (Nat.leb 65 n && Nat.leb n 90)%bool then Ascii.ascii_of_nat (n + 32) else c.

Fixpoint toLowerCase (s : string) : string :=
  match s with
  | EmptyString => EmptyString
  | String c s' => String (lower_char c) (toLowerCase s')
  end.

(** [String(n)] for an integer. *)
Definition of_Z (n : Z) : string :=
  DecimalString.NilZero.string_of_int (Z.to_int n).

End JS.

(* ===================================================================== *)
(** ** Data model                                                         *)
(* ===================================================================== *)

(** A marker, as [addMarker] of the overlay builds it. *)
Record Marker := {
  marker_id : string;
  marker_t : Z;
  marker_title : string;
  marker_createdAt : Z;
  marker_screenshotId : option string
}.

Record ManualTimer := {
  timer_isActive : bool;
  timer_startedAt : Z;
  timer_elapsedOffset : Z
}.

(** A session record of the [cmb.sessions] collection.  Times are
    milliseconds since the epoch; a missing time field reads as [0], which
    [||] treats like [undefined]. *)
Record Session := {
  url : string;
  videoTitle : string;
  createdAt : Z;
  updatedAt : Z;
  markers : list Marker;
  manualTimer : option ManualTimer;
  finalized : bool
}.

(** The settings object; every field may be missing. *)
Record Settings := {
  screenshotQuality : option Z;
  insertIntro : option bool;
  overlayPosition : option (Z * Z);
  defaultExportFormat : option string;
  hotkeyEnabled : option bool;
  lastCleanup : option Z
}.

(** A record of the [screenshots] object store (key path [id]). *)
Record Screenshot := {
  shot_id : string;
  shot_markerId : string;
  shot_sessionKey : string;
  shot_dataUrl : string;
  shot_createdAt : Z;
  shot_size : Z
}.

(** What chrome.storage.local holds under a top-level key. *)
Inductive Value :=
| VSessions (sessions : JS.Obj Session)
| VString (s : string)
| VSettings (s : Settings).

(** A thrown [Error], with its [message]. *)
Inductive Error := JsError (message : string).

Definition error_message (e : Error) : string :=
  match e with JsError m => m end.

(** The calls of [CMBUtils.showToast] the storage code makes. *)
Inductive Toast :=
| ToastStorageFullCleanup        (* 'Storage full! Auto-cleanup running...', warning *)
| ToastStoragePercent (dataSize : Z)  (* `Storage ${pct}% full`, warning *)
| ToastCleanedUp (n : nat)       (* `Cleaned up ${n} old sessions`, success *)
| ToastCleanupFailed             (* 'Cleanup failed', error *)
| ToastStorageFullExport         (* 'Storage full! Try exporting data', error *)
| ToastSaveFailed                (* 'Failed to save data after retries', error *)
| ToastSessionDeleted            (* 'Session deleted', success *)
| ToastDeleteFailed.             (* 'Failed to delete session', error *)

(** Backend operations that took effect. *)
Inductive Effect :=
| KvSet (items : gmap string Value)
| IdbPut (id : string)
| IdbDelete (id : string)
| IdbDeleteByOwner (sessionKey : string) (count : nat)
| IdbDeleteOlder (cutoff : Z) (count : nat).

(** ** The world the code runs in

    [kv_script] lists what the next calls of chrome.storage.local do, one
    entry a call: [None] for success, [Some e] for a rejection with [e];
    calls past the end of the script succeed. *)
Record World := {
  storage : gmap string Value;
  kv_script : list (option Error);
  screenshot_db_loaded : bool;       (* typeof CMBScreenshotDB !== 'undefined' *)
  idb_available : bool;              (* indexedDB.open succeeds *)
  screenshots : gmap string Screenshot;
  clock : Z;                         (* Date.now() *)
  toasts : list Toast;
  trace : list Effect
}.

Definition with_storage (st : gmap string Value) (w : World) : World :=
  {| storage := st; kv_script := kv_script w;
     screenshot_db_loaded := screenshot_db_loaded w;
     idb_available := idb_available w; screenshots := screenshots w;
     clock := clock w; toasts := toasts w; trace := trace w |}.

Definition with_kv_script (s : list (option Error)) (w : World) : World :=
  {| storage := storage w; kv_script := s;
     screenshot_db_loaded := screenshot_db_loaded w;
     idb_available := idb_available w; screenshots := screenshots w;
     clock := clock w; toasts := toasts w; trace := trace w |}.

Definition with_screenshots (s : gmap string Screenshot) (w : World) : World :=
  {| storage := storage w; kv_script := kv_script w;
     screenshot_db_loaded := screenshot_db_loaded w;
     idb_available := idb_available w; screenshots := s;
     clock := clock w; toasts := toasts w; trace := trace w |}.

Definition with_clock (t : Z) (w : World) : World :=
  {| storage := storage w; kv_script := kv_script w;
     screenshot_db_loaded := screenshot_db_loaded w;
     idb_available := idb_available w; screenshots := screenshots w;
     clock := t; toasts := toasts w; trace := trace w |}.

Definition add_toast (t : Toast) (w : World) : World :=
  {| storage := storage w; kv_script := kv_script w;
     screenshot_db_loaded := screenshot_db_loaded w;
     idb_available := idb_available w; screenshots := screenshots w;
     clock := clock w; toasts := toasts w ++ [t]; trace := trace w |}.

Definition add_effect (e : Effect) (w : World) : World :=
  {| storage := storage w; kv_script := kv_script w;
     screenshot_db_loaded := screenshot_db_loaded w;
     idb_available := idb_available w; screenshots := screenshots w;
     clock := clock w; toasts := toasts w; trace := trace w ++ [e] |}.

(* ===================================================================== *)
(** ** Asynchronous code: state and exceptions                            *)
(* ===================================================================== *)

Inductive Res (A : Type) :=
| Ok (a : A)
| Throw (e : Error).
Arguments Ok {A} a.
Arguments Throw {A} e.

Definition M (A : Type) : Type := World -> Res A * World.

Definition ret {A} (a : A) : M A := fun w => (Ok a, w).

Definition bind {A B} (m : M A) (k : A -> M B) : M B :=
  fun w => match m w with
           | (Ok a, w') => k a w'
           | (Throw e, w') => (Throw e, w')
           end.

(** [try { m } catch (error) { h error }] *)
Definition try_catch {A} (m : M A) (h : Error -> M A) : M A :=
  fun w => match m w with
           | (Ok a, w') => (Ok a, w')
           | (Throw e, w') => h e w'
           end.

Declare Scope js_scope.
Delimit Scope js_scope with js.
Notation "x <- m ;; k" := (bind m (fun x => k))
  (at level 100, m at next level, right associativity) : js_scope.
Notation "m ;;; k" := (bind m (fun _ => k))
  (at level 100, right associativity) : js_scope.
Notation "'when' b 'then' m" := (if b then m else ret tt)
  (at level 99, b at level 1) : js_scope.

Definition modify (f : World -> World) : M unit := fun w => (Ok tt, f w).
Definition gets {A} (f : World -> A) : M A := fun w => (Ok (f w), w).

(** [Date.now()] *)
Definition Date_now : M Z := gets clock.

(** ** chrome.storage.local *)

Definition next_outcome : M unit :=
  fun w => match kv_script w with
           | [] => (Ok tt, w)
           | None :: s => (Ok tt, with_kv_script s w)
           | Some e :: s => (Throw e, with_kv_script s w)
           end.

(** [chrome.storage.local.get(null)] *)
Definition chrome_storage_get_all : M (gmap string Value) :=
  bind next_outcome (fun _ => gets storage).

(** [chrome.storage.local.get(keys)] *)
Definition chrome_storage_get (ks : list string) : M (gmap string Value) :=
  bind next_outcome (fun _ =>
  gets (fun w => filter (fun kv => fst kv ∈ ks) (storage w))).

(** [chrome.storage.local.set(items)]: the items replace the values held
    under their keys, the other keys stay. *)
Definition chrome_storage_set (items : gmap string Value) : M unit :=
  bind next_outcome (fun _ =>
  modify (fun w => add_effect (KvSet items) (with_storage (items ∪ storage w) w))).

Definition showToast (t : Toast) : M unit := modify (add_toast t).

(* ===================================================================== *)
(** ** What the browser provides                                          *)
(* ===================================================================== *)

(** The parts of a parsed [URL] the code reads. *)
Record URL := {
  hostname : string;
  pathname : string;
  searchParams : list (string * string)
}.

Record Host := {
  (** [new URL(url)]; [None] when the constructor throws *)
  parse_url : string -> option URL;
  (** [new Date(t).toISOString().split('T')[0]] *)
  iso_date : Z -> string;
  (** [new Blob([JSON.stringify(storage)]).size] *)
  json_size : gmap string Value -> Z;
  (** [CMBUtils.getVideoTitle()], read from the page *)
  page_title : string
}.

(** [urlObj.searchParams.get(name)] *)
Fixpoint searchParams_get (name : string) (ps : list (string * string)) : option string :=
  match ps with
  | [] => None
  | (k, v) :: ps' => if String.eqb name k then Some v else searchParams_get name ps'
  end.

(** A string or [null], as a condition. *)
Definition truthy (o : option string) : option string :=
  match o with
  | Some s => if String.eqb s EmptyString then None else Some s
  | None => None
  end.

(* ===================================================================== *)
(** ** CMBUtils                                                           *)
(* ===================================================================== *)

Module CMBUtils.

Definition extractVideoId (h : Host) (now : Z) (url : string) : string :=
  match parse_url h url with
  | None => "unknown-" +:+ JS.of_Z now
  | Some urlObj =>
      let hostname := JS.toLowerCase (hostname urlObj) in
      if (JS.includes "youtube.com" hostname || JS.includes "youtu.be" hostname)%bool then
        let videoId :=
          match truthy (searchParams_get "v" (searchParams urlObj)) with
          | Some v => v
          | None => JS.last_segment (pathname urlObj)
          end in
        JS.or_str videoId "youtube-unknown"
      else if JS.includes "twitch.tv" hostname then
        match JS.match_lit_digits "/videos/" (pathname urlObj) with
        | Some m => "twitch-" +:+ m
        | None =>
            match truthy (searchParams_get "v" (searchParams urlObj)) with
            | Some v => "twitch-" +:+ v
            | None => "twitch-" +:+ JS.replace_slashes (pathname urlObj)
            end
        end
      else if JS.includes "vimeo.com" hostname then
        match JS.match_lit_digits "/" (pathname urlObj) with
        | Some m => "vimeo-" +:+ m
        | None => "vimeo-" +:+ JS.replace_slashes (pathname urlObj)
        end
      else hostname +:+ JS.replace_slashes (pathname urlObj)
  end.

End CMBUtils.

(* ===================================================================== *)
(** ** CMBScreenshotDB (screenshot-db.js)                                 *)
(* ===================================================================== *)

Module CMBScreenshotDB.

(** [initDB]: resolves with the database, or rejects when IndexedDB is
    missing or cannot be opened. *)
Definition initDB : M unit :=
  fun w => if idb_available w then (Ok tt, w)
           else (Throw (JsError "IndexedDB open failed"), w).

Definition storeScreenshot (markerId sessionKey dataUrl : string) : M string :=
  (initDB ;;;
   now <- Date_now ;;
   let screenshot :=
     {| shot_id := "screenshot_" +:+ markerId;
        shot_markerId := markerId;
        shot_sessionKey := sessionKey;
        shot_dataUrl := dataUrl;
        shot_createdAt := now;
        shot_size := Z.of_nat (String.length dataUrl) |} in
   modify (fun w => add_effect (IdbPut (shot_id screenshot))
                      (with_screenshots (<[shot_id screenshot := screenshot]> (screenshots w)) w)) ;;;
   ret (shot_id screenshot))%js.

Definition getScreenshot (screenshotId : string) : M (option string) :=
  (initDB ;;;
   result <- gets (fun w => screenshots w !! screenshotId) ;;
   ret (match result with Some r => Some (shot_dataUrl r) | None => None end))%js.

Definition deleteScreenshot (screenshotId : string) : M bool :=
  (initDB ;;;
   modify (fun w => add_effect (IdbDelete screenshotId)
                      (with_screenshots (delete screenshotId (screenshots w)) w)) ;;;
   ret true)%js.

(** The cursor over the [sessionKey] index visits every record of the
    session, deletes it and counts it. *)
Definition deleteSessionScreenshots (sessionKey : string) : M nat :=
  (initDB ;;;
   shots <- gets screenshots ;;
   let deletedCount := size (filter (fun kv => shot_sessionKey (snd kv) = sessionKey) shots) in
   modify (fun w => add_effect (IdbDeleteByOwner sessionKey deletedCount)
                      (with_screenshots
                         (filter (fun kv => shot_sessionKey (snd kv) <> sessionKey) shots) w)) ;;;
   ret deletedCount)%js.

(** The cursor over the [createdAt] index runs over
    [IDBKeyRange.upperBound(cutoffTime)], which includes the bound. *)
Definition cleanupOldScreenshots (maxAgeMs : Z) : M nat :=
  (initDB ;;;
   now <- Date_now ;;
   let cutoffTime := now - maxAgeMs in
   shots <- gets screenshots ;;
   let deletedCount := size (filter (fun kv => shot_createdAt (snd kv) <= cutoffTime) shots) in
   modify (fun w => add_effect (IdbDeleteOlder cutoffTime deletedCount)
                      (with_screenshots
                         (filter (fun kv => ~ shot_createdAt (snd kv) <= cutoffTime) shots) w)) ;;;
   ret deletedCount)%js.

End CMBScreenshotDB.

(* ===================================================================== *)
(** ** CMBStorage (storage.js)                                            *)
(* ===================================================================== *)

(** [try { m } catch] with the outcome handed to the code that follows. *)
Definition attempt {A} (m : M A) : M (Res A) :=
  fun w => match m w with
           | (Ok a, w') => (Ok (Ok a), w')
           | (Throw e, w') => (Ok (Throw e), w')
           end.

(** A [for ... of] loop that updates a local variable. *)
Fixpoint for_of_var {A S} (l : list A) (s : S) (body : A -> S -> M S) : M S :=
  match l with
  | [] => ret s
  | x :: l' => bind (body x s) (fun s' => for_of_var l' s' body)
  end.

Module CMBStorage.

Definition STORAGE_PREFIX : string := "cmb".
Definition SESSIONS_KEY : string := STORAGE_PREFIX +:+ ".sessions".
Definition LAST_ACTIVE_KEY : string := STORAGE_PREFIX +:+ ".lastActiveKey".
Definition SETTINGS_KEY : string := STORAGE_PREFIX +:+ ".settings".

Definition DAY_MS : Z := 24 * 60 * 60 * 1000.

(** [storage[SESSIONS_KEY] || {}] *)
Definition sessions_of (st : gmap string Value) : JS.Obj Session :=
  match st !! SESSIONS_KEY with
  | Some (VSessions s) => s
  | _ => []
  end.

(** The object [getSettings] falls back to. *)
Definition default_settings : Settings :=
  {| screenshotQuality := Some 75;
     insertIntro := Some true;
     overlayPosition := Some (20, 20);
     defaultExportFormat := Some "youtube";
     hotkeyEnabled := Some true;
     lastCleanup := None |}.

(** [{}] *)
Definition empty_settings : Settings :=
  {| screenshotQuality := None; insertIntro := None; overlayPosition := None;
     defaultExportFormat := None; hotkeyEnabled := None; lastCleanup := None |}.

Definition set_lastCleanup (t : Z) (s : Settings) : Settings :=
  {| screenshotQuality := screenshotQuality s; insertIntro := insertIntro s;
     overlayPosition := overlayPosition s;
     defaultExportFormat := defaultExportFormat s;
     hotkeyEnabled := hotkeyEnabled s; lastCleanup := Some t |}.

Definition getSettings : M Settings :=
  try_catch
    (storage <- chrome_storage_get [SETTINGS_KEY] ;;
     ret (match storage !! SETTINGS_KEY with
          | Some (VSettings s) => s
          | _ => default_settings
          end))%js
    (fun _ => ret empty_settings).

Definition saveSettings (settings : Settings) : M unit :=
  try_catch
    (chrome_storage_set {[ SETTINGS_KEY := VSettings settings ]})
    (fun _ => ret tt).

(** The comparator of [cleanupOldSessions]:
    [(b.session.updatedAt || 0) - (a.session.updatedAt || 0)]. *)
Definition by_updatedAt_desc (a b : string * Session) : Z :=
  JS.or_num (updatedAt (snd b)) 0 - JS.or_num (updatedAt (snd a)) 0.

(** [Object.keys(sessions).map(key => ({ key, session: sessions[key] }))]
    lists the entries of [sessions] in key order. *)
Definition cleanupOldSessions : M unit :=
  try_catch
    (storage <- chrome_storage_get [SESSIONS_KEY] ;;
     let sessions := sessions_of storage in
     let sessionKeys := JS.keys sessions in
     if (length sessionKeys <=? 5)%nat then ret tt
     else
       let sortedSessions := JS.slice_from 5 (JS.sort by_updatedAt_desc sessions) in
       sessions' <- for_of_var sortedSessions sessions
         (fun entry sessions =>
            let key := fst entry in
            loaded <- gets screenshot_db_loaded ;;
            (when loaded then
               try_catch
                 (_ <- CMBScreenshotDB.deleteSessionScreenshots key ;; ret tt)
                 (fun _ => ret tt)) ;;;
            ret (JS.delete key sessions)) ;;
       chrome_storage_set {[ SESSIONS_KEY := VSessions sessions' ]} ;;;
       showToast (ToastCleanedUp (length sortedSessions)))%js
    (fun _ => showToast ToastCleanupFailed).

Definition quotaLimit : Z := 5 * 1024 * 1024.

(** [quotaLimit * warningThreshold]: the double nearest to
    [5242880 * 0.8] is [4194304]. *)
Definition warningLevel : Z := 4194304.

(** The time a session is aged by:
    [session.updatedAt || session.createdAt || 0]. *)
Definition session_stamp (s : Session) : Z :=
  JS.or_num (JS.or_num (updatedAt s) (createdAt s)) 0.

Definition progressiveCleanup : M nat :=
  try_catch
    (loaded <- gets screenshot_db_loaded ;;
     cleaned0 <- (if loaded then
                    try_catch
                      (CMBScreenshotDB.cleanupOldScreenshots (30 * DAY_MS))
                      (fun _ => ret 0%nat)
                  else ret 0%nat) ;;
     storage <- chrome_storage_get [SESSIONS_KEY] ;;
     let sessions := sessions_of storage in
     now <- Date_now ;;
     let oldSessionCutoff := now - 90 * DAY_MS in
     let sessionsToDelete :=
       List.filter (fun entry => session_stamp (snd entry) <? oldSessionCutoff) sessions in
     let sessions' :=
       List.fold_left (fun o entry => JS.delete (fst entry) o) sessionsToDelete sessions in
     let cleanedCount := (cleaned0 + length sessionsToDelete)%nat in
     (when (0 <? length sessionsToDelete)%nat then
        chrome_storage_set {[ SESSIONS_KEY := VSessions sessions' ]}) ;;;
     settings <- getSettings ;;
     now' <- Date_now ;;
     saveSettings (set_lastCleanup now' settings) ;;;
     ret cleanedCount)%js
    (fun _ => ret 0%nat).

Section WithHost.

Context (h : Host).

Definition checkStorageQuota : M bool :=
  try_catch
    (storage <- chrome_storage_get_all ;;
     let dataSize := json_size h storage in
     if dataSize >=? quotaLimit then
       showToast ToastStorageFullCleanup ;;;
       cleanupOldSessions ;;;
       ret false
     else
       (when (dataSize >=? warningLevel) then
          showToast (ToastStoragePercent dataSize)) ;;;
       ret true)%js
    (fun _ => ret true).

(** *** The save queue

    [saveQueue] is a [Map]: [set] keeps the position of a key that is
    present and appends a new one, and the iterator of [entries()] is
    live: it reads the entry at its position when it is advanced.
    [queuedSave] suspends at its [await]s; what it awaits is recorded
    in [phase], and calls of [queuedSave] made meanwhile run in
    between.

    What is queued is an object, held by reference: it is serialised
    when [chrome.storage.local.set] is called with it, and until then it
    shows whatever its holders assign to it.  The session objects of the
    callers of [saveSession] are the cells of the [memory] of the page. *)

(** The identity of a session object. *)
Definition Ref := nat.

(** What the session objects hold. *)
Definition Memory := Ref -> Session.

(** An assignment to the fields of the object [r], after which it holds
    [s]. *)
Definition assign (r : Ref) (s : Session) (m : Memory) : Memory :=
  fun r' => if Nat.eqb r' r then s else m r'.

(** An entry of a [sessions] object: a record as read from storage, which
    only that object holds, or the session object of a caller. *)
Inductive Entry :=
| Own (s : Session)
| Shared (r : Ref).

(** An object handed to [queuedSave]. *)
Inductive Data :=
| Plain (v : Value)                      (* an object nobody else holds *)
| Collection (sessions : JS.Obj Entry).  (* the [sessions] of [saveSession] *)

Definition resolve (m : Memory) (e : Entry) : Session :=
  match e with
  | Own s => s
  | Shared r => m r
  end.

(** The object as [chrome.storage.local.set] serialises it when it is
    called. *)
Definition serialize (m : Memory) (d : Data) : Value :=
  match d with
  | Plain v => v
  | Collection sessions =>
      VSessions (List.map (fun entry => (fst entry, resolve m (snd entry))) sessions)
  end.

Inductive Phase :=
| AwaitQuota               (* await checkStorageQuota() *)
| AwaitSet (items : Value) (* await chrome.storage.local.set({ [queueKey]: queueData }),
                              called with [queueData] serialised to [items] *)
| AwaitCleanup             (* await cleanupOldSessions(), in the catch block *)
| AwaitBackoff.            (* await new Promise(resolve => setTimeout(resolve, 1000 * attempt)) *)

(** The local variables of the call that drains the queue. *)
Record Drain := {
  retries : nat;
  iter_pos : nat;          (* entries the iterator has passed *)
  queueKey : string;
  queueData : Data;
  attempts : nat;          (* the variable [attempt] *)
  phase : Phase
}.

(** The state of the page: the variables of the module, the reads of the
    calls of [saveSession] that are not answered yet (the oldest first,
    each with its session object and resolved key), and the memory. *)
Record Queue := {
  saveQueue : list (string * Data);
  saveInProgress : bool;
  drain : option Drain;
  reads : list (Ref * string);
  memory : Memory;
  world : World
}.

Definition with_world (w : World) (q : Queue) : Queue :=
  {| saveQueue := saveQueue q; saveInProgress := saveInProgress q;
     drain := drain q; reads := reads q; memory := memory q; world := w |}.

Definition with_drain (d : Drain) (q : Queue) : Queue :=
  {| saveQueue := saveQueue q; saveInProgress := saveInProgress q;
     drain := Some d; reads := reads q; memory := memory q; world := world q |}.

Definition with_memory (m : Memory) (q : Queue) : Queue :=
  {| saveQueue := saveQueue q; saveInProgress := saveInProgress q;
     drain := drain q; reads := reads q; memory := m; world := world q |}.

Definition with_phase (p : Phase) (d : Drain) : Drain :=
  {| retries := retries d; iter_pos := iter_pos d; queueKey := queueKey d;
     queueData := queueData d; attempts := attempts d; phase := p |}.

(** The [for ... of] loop takes its next entry; [rest] are the entries
    from position [pos] on.  With an entry in hand it enters
    [while (attempt < retries && !saved)] and suspends at the quota
    check.  When the iterator is exhausted: [saveQueue.clear()], then
    [saveInProgress = false] in the [finally] block. *)
Fixpoint advance (n pos : nat) (rest : list (string * Data)) (q : Queue) : Queue :=
  match rest with
  | [] =>
      {| saveQueue := []; saveInProgress := false; drain := None;
         reads := reads q; memory := memory q; world := world q |}
  | (k, data) :: rest' =>
      if (0 <? n)%nat then
        with_drain {| retries := n; iter_pos := S pos; queueKey := k;
                      queueData := data; attempts := 0; phase := AwaitQuota |} q
      else advance n (S pos) rest' q
  end.

Definition next_entry (n pos : nat) (q : Queue) : Queue :=
  advance n pos (List.skipn pos (saveQueue q)) q.

(** [async function queuedSave(key, data, retries = 3)], up to its
    first [await]. *)
Definition queuedSave (key : string) (data : Data) (n : nat) (q : Queue) : Queue :=
  let q :=
    {| saveQueue := JS.set key data (saveQueue q);
       saveInProgress := saveInProgress q; drain := drain q;
       reads := reads q; memory := memory q; world := world q |} in
  if saveInProgress q then q
  else
    next_entry n 0
      {| saveQueue := saveQueue q; saveInProgress := true;
         drain := drain q; reads := reads q; memory := memory q; world := world q |}.

(** [error.message?.includes('quota') || error.message?.includes('QuotaBytes')] *)
Definition is_quota_error (e : Error) : bool :=
  (JS.includes "quota" (error_message e) || JS.includes "QuotaBytes" (error_message e))%bool.

(** The [catch (error)] block of the retry loop, up to its [await] or
    to the next turn of the loops. *)
Definition on_save_error (e : Error) (d : Drain) (q : Queue) : Queue :=
  let attempt := S (attempts d) in
  let d := {| retries := retries d; iter_pos := iter_pos d; queueKey := queueKey d;
              queueData := queueData d; attempts := attempt; phase := phase d |} in
  if is_quota_error e then
    with_drain (with_phase AwaitCleanup d)
      (with_world (add_toast ToastStorageFullExport (world q)) q)
  else if (retries d <=? attempt)%nat then
    next_entry (retries d) (iter_pos d)
      (with_world (add_toast ToastSaveFailed (world q)) q)
  else with_drain (with_phase AwaitBackoff d) q.

(** The awaited promise settles and the draining call runs on to its
    next [await].  When the quota check lets the write go ahead,
    [chrome.storage.local.set] is called and serialises [queueData] as the
    memory has it then. *)
Definition settle (q : Queue) : Queue :=
  match drain q with
  | None => q
  | Some d =>
      match phase d with
      | AwaitQuota =>
          match checkStorageQuota (world q) with
          | (Ok true, w) =>
              with_drain (with_phase (AwaitSet (serialize (memory q) (queueData d))) d)
                (with_world w q)
          | (Ok false, w) => next_entry (retries d) (iter_pos d) (with_world w q)
          | (Throw e, w) => on_save_error e d (with_world w q)
          end
      | AwaitSet items =>
          match chrome_storage_set {[ queueKey d := items ]} (world q) with
          | (Ok _, w) => next_entry (retries d) (iter_pos d) (with_world w q)
          | (Throw e, w) => on_save_error e d (with_world w q)
          end
      | AwaitCleanup =>
          let w := snd (cleanupOldSessions (world q)) in
          next_entry (retries d) (iter_pos d) (with_world w q)
      | AwaitBackoff => with_drain (with_phase AwaitQuota d) q
      end
  end.

Definition getSessionKey (now : Z) (url : string) : string :=
  match parse_url h url with
  | Some urlObj =>
      let hostname := hostname urlObj in
      let videoId := CMBUtils.extractVideoId h now url in
      let date := iso_date h now in
      hostname +:+ "|" +:+ videoId +:+ "|" +:+ date
  | None => "unknown|" +:+ JS.of_Z now
  end.

Definition touch (now : Z) (url : string) (s : Session) : Session :=
  {| url := url; videoTitle := videoTitle s; createdAt := createdAt s;
     updatedAt := now; markers := markers s; manualTimer := manualTimer s;
     finalized := finalized s |}.

(** [key || getSessionKey(url)] *)
Definition resolve_key (now : Z) (url : string) (key : option string) : string :=
  match truthy key with
  | Some k => k
  | None => getSessionKey now url
  end.

Definition beginSession (url title : string) (key : option string) : M Session :=
  (now <- Date_now ;;
   let sessionKey := resolve_key now url key in
   let session :=
     {| url := url; videoTitle := JS.or_str title (page_title h);
        createdAt := now; updatedAt := now; markers := [];
        manualTimer := None; finalized := false |} in
   r <- attempt (chrome_storage_get [SESSIONS_KEY; LAST_ACTIVE_KEY]) ;;
   match r with
   | Throw _ => ret session
   | Ok storage =>
       let sessions := sessions_of storage in
       match JS.get sessionKey sessions with
       | None =>
           let sessions := JS.set sessionKey session sessions in
           try_catch
             (chrome_storage_set
                (<[ SESSIONS_KEY := VSessions sessions ]>
                   {[ LAST_ACTIVE_KEY := VString sessionKey ]}) ;;;
              ret session)
             (fun _ => ret session)
       | Some existing =>
           let existing' := touch now url existing in
           let sessions := JS.set sessionKey existing' sessions in
           let session :=
             {| url := url; videoTitle := JS.or_str title (page_title h);
                createdAt := createdAt existing; updatedAt := now;
                markers := markers existing;
                manualTimer := None; finalized := false |} in
           try_catch
             (chrome_storage_set
                (<[ SESSIONS_KEY := VSessions sessions ]>
                   {[ LAST_ACTIVE_KEY := VString sessionKey ]}) ;;;
              ret existing')
             (fun _ => ret session)
       end
   end)%js.

(** *** saveSession

    [saveSession(session, key)] up to its [await]: the key is resolved,
    [session.updatedAt = Date.now()] is assigned to the object of the
    caller and the read of the collection is issued. *)
Definition stamp (now : Z) (s : Session) : Session :=
  {| url := url s; videoTitle := videoTitle s; createdAt := createdAt s;
     updatedAt := now; markers := markers s; manualTimer := manualTimer s;
     finalized := finalized s |}.

Definition saveSession (session : Ref) (key : option string) (q : Queue) : Queue :=
  let now := clock (world q) in
  let sessionKey := resolve_key now (url (memory q session)) key in
  {| saveQueue := saveQueue q; saveInProgress := saveInProgress q; drain := drain q;
     reads := reads q ++ [(session, sessionKey)];
     memory := assign session (stamp now (memory q session)) (memory q);
     world := world q |}.

(** The oldest read is answered and its call of [saveSession] runs on:
    [sessions[sessionKey] = session] puts the session object itself into
    the collection just read, and the collection is handed to
    [queuedSave].  A rejected read rejects the call and queues nothing. *)
Definition answer (q : Queue) : Queue :=
  match reads q with
  | [] => q
  | (session, sessionKey) :: rest =>
      let q := {| saveQueue := saveQueue q; saveInProgress := saveInProgress q;
                  drain := drain q; reads := rest; memory := memory q;
                  world := world q |} in
      match chrome_storage_get [SESSIONS_KEY] (world q) with
      | (Ok storage, w) =>
          let sessions :=
            JS.set sessionKey (Shared session)
              (List.map (fun entry => (fst entry, Own (snd entry))) (sessions_of storage)) in
          queuedSave SESSIONS_KEY (Collection sessions) 3 (with_world w q)
      | (Throw _, w) => with_world w q
      end
  end.

(** What happens on the page, in order: a call of [queuedSave(key, data)],
    an assignment to a session object by the caller that holds it, a call
    of [saveSession(session, key)], the answer to the oldest read of
    [saveSession], or the promise the drain awaits settling. *)
Inductive Event :=
| Call (key : string) (data : Data)
| Assign (r : Ref) (s : Session)
| Save (session : Ref) (key : option string)
| Answer
| Settle.

Definition step (q : Queue) (e : Event) : Queue :=
  match e with
  | Call key data => queuedSave key data 3 q
  | Assign r s => with_memory (assign r s (memory q)) q
  | Save session key => saveSession session key q
  | Answer => answer q
  | Settle => settle q
  end.

Definition run (es : list Event) (q : Queue) : Queue := List.fold_left step es q.

(** The state of the page when the script is loaded, the callers holding
    the session objects of [m]. *)
Definition idle (m : Memory) (w : World) : Queue :=
  {| saveQueue := []; saveInProgress := false; drain := None;
     reads := []; memory := m; world := w |}.

End WithHost.

Definition getSession (key : string) : M (option Session) :=
  try_catch
    (storage <- chrome_storage_get [SESSIONS_KEY] ;;
     ret (JS.get key (sessions_of storage)))%js
    (fun _ => ret None).

Definition deleteSession (key : string) : M unit :=
  try_catch
    (storage <- chrome_storage_get [SESSIONS_KEY] ;;
     let sessions := sessions_of storage in
     loaded <- gets screenshot_db_loaded ;;
     (when loaded then
        try_catch
          (_ <- CMBScreenshotDB.deleteSessionScreenshots key ;; ret tt)
          (fun _ => ret tt)) ;;;
     (let sessions := JS.delete key sessions in
      chrome_storage_set {[ SESSIONS_KEY := VSessions sessions ]}) ;;;
     showToast ToastSessionDeleted)%js
    (fun _ => showToast ToastDeleteFailed).

End CMBStorage.

(* ===================================================================== *)
(** ** The overlay's daily gate                                           *)
(* ===================================================================== *)

Module Overlay.

(** [settings.lastCleanup || 0] *)
Definition lastCleanup_or_0 (s : Settings) : Z :=
  match lastCleanup s with
  | Some t => JS.or_num t 0
  | None => 0
  end.

Definition checkAndRunProgressiveCleanup : M unit :=
  try_catch
    (settings <- CMBStorage.getSettings ;;
     let lastCleanup := lastCleanup_or_0 settings in
     now <- Date_now ;;
     let oneDayAgo := now - 24 * 60 * 60 * 1000 in
     if lastCleanup <? oneDayAgo then
       _ <- CMBStorage.progressiveCleanup ;; ret tt
     else ret tt)%js
    (fun _ => ret tt).

End Overlay.

(* ===================================================================== *)
(** ** A concrete browser, for examples                                   *)
(* ===================================================================== *)

Module Browser.

(** Days since the epoch to the civil date (proleptic Gregorian). *)
Definition civil_from_days (days : Z) : Z * Z * Z :=
  let z := days + 719468 in
  let era := z / 146097 in
  let doe := z - era * 146097 in
  let yoe := (doe - doe / 1460 + doe / 36524 - doe / 146096) / 365 in
  let y := yoe + era * 400 in
  let doy := doe - (365 * yoe + yoe / 4 - yoe / 100) in
  let mp := (5 * doy + 2) / 153 in
  let d := doy - (153 * mp + 2) / 5 + 1 in
  let m := if mp <? 10 then mp + 3 else mp - 9 in
  (if m <=? 2 then y + 1 else y, m, d).

Definition pad2 (n : Z) : string :=
  if n <? 10 then "0" +:+ JS.of_Z n else JS.of_Z n.

Definition pad4 (n : Z) : string :=
  if n <? 10 then "000" +:+ JS.of_Z n
  else if n <? 100 then "00" +:+ JS.of_Z n
  else if n <? 1000 then "0" +:+ JS.of_Z n
  else JS.of_Z n.

(** The date part of [toISOString()], for the years 0000 to 9999. *)
Definition toISODate (t : Z) : string :=
  match civil_from_days (t / 86400000) with
  | (y, m, d) => pad4 y +:+ "-" +:+ pad2 m +:+ "-" +:+ pad2 d
  end.

(** [s] up to the first [c], and what follows it. *)
Fixpoint cut (c : ascii) (s : string) : string * option string :=
  match s with
  | EmptyString => (EmptyString, None)
  | String a s' =>
      if Ascii.eqb a c then (EmptyString, Some s')
      else match cut c s' with (l, r) => (String a l, r) end
  end.

Fixpoint split_on (fuel : nat) (c : ascii) (s : string) : list string :=
  match fuel with
  | O => [s]
  | S fuel' =>
      match cut c s with
      | (l, None) => [l]
      | (l, Some r) => l :: split_on fuel' c r
      end
  end.

Definition parse_query (q : string) : list (string * string) :=
  List.map (fun kv => match cut "="%char kv with
                      | (k, Some v) => (k, v)
                      | (k, None) => (k, EmptyString)
                      end)
    (split_on (String.length q) "&"%char q).

Definition strip (p s : string) : option string :=
  if String.prefix p s
  then Some (String.substring (String.length p) (String.length s - String.length p) s)
  else None.

(** [new URL(url)] for absolute http(s) URLs without port, credentials
    or fragment; anything else is rejected. *)
Definition parseURL (url : string) : option URL :=
  let rest := match strip "https://" url with
              | Some r => Some r
              | None => strip "http://" url
              end in
  match rest with
  | None => None
  | Some r =>
      match cut "?"%char r with
      | (hp, q) =>
          match cut "/"%char hp with
          | (host, p) =>
              if String.eqb host EmptyString then None
              else Some {| hostname := JS.toLowerCase host;
                           pathname := "/" +:+ default EmptyString p;
                           searchParams := match q with
                                           | Some q => parse_query q
                                           | None => []
                                           end |}
          end
      end
  end.

Definition host : Host :=
  {| parse_url := parseURL;
     iso_date := toISODate;
     json_size := fun st => 1024 * Z.of_nat (size st);
     page_title := "Untitled" |}.

(** A browser whose stored data has the given serialized size. *)
Definition host_with_size (n : Z) : Host :=
  {| parse_url := parseURL; iso_date := toISODate;
     json_size := fun _ => n; page_title := "Untitled" |}.

(** A fresh profile at time [t]. *)
Definition fresh (t : Z) : World :=
  {| storage := ∅; kv_script := []; screenshot_db_loaded := true;
     idb_available := true; screenshots := ∅; clock := t;
     toasts := []; trace := [] |}.

End Browser.

(* ===================================================================== *)
(** ** Sample data                                                        *)
(* ===================================================================== *)

Module Examples.

Definition marker (id : string) (t : Z) : Marker :=
  {| marker_id := id; marker_t := t; marker_title := "Intro";
     marker_createdAt := 1000; marker_screenshotId := Some ("screenshot_" +:+ id) |}.

(** A session last saved at [t], with one marker. *)
Definition session (t : Z) : Session :=
  {| url := "https://www.youtube.com/watch?v=abc"; videoTitle := "A video";
     createdAt := t; updatedAt := t; markers := [marker "m1" 12];
     manualTimer := None; finalized := false |}.

Definition shot (markerId sessionKey : string) (t : Z) : Screenshot :=
  {| shot_id := "screenshot_" +:+ markerId; shot_markerId := markerId;
     shot_sessionKey := sessionKey; shot_dataUrl := "data:image/jpeg;base64,AAAA";
     shot_createdAt := t; shot_size := 27 |}.

Definition six_sessions : JS.Obj Session :=
  [("s3", session 300); ("s1", session 100); ("s6", session 600);
   ("s2", session 200); ("s5", session 500); ("s4", session 400)].

(** Six sessions; the oldest, [s1], owns a screenshot, and so does [s6]. *)
Definition crowded : World :=
  {| storage := {[ CMBStorage.SESSIONS_KEY := VSessions six_sessions ]};
     kv_script := []; screenshot_db_loaded := true; idb_available := true;
     screenshots := <[ "screenshot_m1" := shot "m1" "s1" 100 ]>
                      {[ "screenshot_m6" := shot "m6" "s6" 600 ]};
     clock := 1000; toasts := []; trace := [] |}.

(** The same profile with IndexedDB out of reach. *)
Definition crowded_offline : World :=
  {| storage := storage crowded; kv_script := [];
     screenshot_db_loaded := true; idb_available := false;
     screenshots := screenshots crowded;
     clock := 1000; toasts := []; trace := [] |}.

(** Day 200: a session last saved on day 100 and one saved on day 199;
    a screenshot from day 150, one from day 190, and one that turns 30
    days old half an hour from now. *)
Definition aged : World :=
  {| storage := {[ CMBStorage.SESSIONS_KEY :=
                     VSessions [("old", session (100 * CMBStorage.DAY_MS));
                                ("new", session (199 * CMBStorage.DAY_MS))] ]};
     kv_script := []; screenshot_db_loaded := true; idb_available := true;
     screenshots := <[ "screenshot_a" := shot "a" "old" (150 * CMBStorage.DAY_MS) ]>
                      (<[ "screenshot_b" := shot "b" "new" (190 * CMBStorage.DAY_MS) ]>
                         {[ "screenshot_c" := shot "c" "new" (170 * CMBStorage.DAY_MS + 1800000) ]});
     clock := 200 * CMBStorage.DAY_MS; toasts := []; trace := [] |}.

(** A session for the video [v], last saved at [t]. *)
Definition video (v : string) (t : Z) : Session :=
  {| url := "https://www.youtube.com/watch?v=" +:+ v; videoTitle := "Video " +:+ v;
     createdAt := t; updatedAt := t; markers := [marker "m1" 12];
     manualTimer := None; finalized := false |}.

(** The session of the video [abc] with its first [n] markers. *)
Definition marked (n : nat) : Session :=
  {| url := "https://www.youtube.com/watch?v=abc"; videoTitle := "A video";
     createdAt := 1000; updatedAt := 1000;
     markers := List.firstn n [marker "m1" 12; marker "m2" 47; marker "m3" 95];
     manualTimer := None; finalized := false |}.

(** States of the sessions collection: as objects that [queuedSave] is
    handed, and as they are stored. *)
Definition saved (n : Z) : CMBStorage.Data :=
  CMBStorage.Collection [("k", CMBStorage.Own (session n))].

Definition stored (n : Z) : Value := VSessions [("k", session n)].

(** The session objects of a page: the sessions of the videos [abc] and
    [xyz], one for [abc] with one marker and one with two, and otherwise
    empty sessions. *)
Definition objects : CMBStorage.Memory :=
  fun r => match r with
           | 0%nat => marked 1
           | 1%nat => video "abc" 1000
           | 2%nat => video "xyz" 2000
           | 3%nat => marked 2
           | _ => marked 0
           end.

(** A profile in which the next three writes reject with an I/O error
    (each attempt reads for the quota check, then writes). *)
Definition flaky : World :=
  with_kv_script [None; Some (JsError "I/O error"); None; Some (JsError "I/O error");
                  None; Some (JsError "I/O error")] (Browser.fresh 0).

(** A profile whose next chrome.storage.local call rejects. *)
Definition failing : World := with_kv_script [Some (JsError "I/O error")] crowded.

End Examples.

(* ===================================================================== *)
(** ** screenshot-db.js, continued: backup and restore                    *)
(* ===================================================================== *)

Module CMBScreenshotDB2.

(** IndexedDB lists records in the order of their keys. *)
Definition by_id (a b : Screenshot) : Z :=
  match String.compare (shot_id a) (shot_id b) with
  | Lt => -1
  | Eq => 0
  | Gt => 1
  end.

(** [store.getAll()] *)
Definition getAll (shots : gmap string Screenshot) : list Screenshot :=
  JS.sort by_id (List.map snd (map_to_list shots)).

Definition exportScreenshots : M (list Screenshot) :=
  (CMBScreenshotDB.initDB ;;;
   shots <- gets screenshots ;;
   ret (getAll shots))%js.

(** [store.put(screenshots[index])], one record after the other; the key
    of a record is its [id]. *)
Definition importScreenshots (backup : list Screenshot) : M nat :=
  (CMBScreenshotDB.initDB ;;;
   for_of_var backup 0%nat
     (fun shot importedCount =>
        modify (fun w => add_effect (IdbPut (shot_id shot))
                           (with_screenshots (<[shot_id shot := shot]> (screenshots w)) w)) ;;;
        ret (S importedCount)))%js.

End CMBScreenshotDB2.

(* ===================================================================== *)
(** ** storage.js, continued: reading, finalizing, statistics             *)
(* ===================================================================== *)

Module CMBStorage2.

(** The comparator of [listSessions]: [b.updatedAt - a.updatedAt].  With
    an [updatedAt] missing (which is [0] here) the difference is [NaN],
    which the sort takes for [0]; the order of such a list is up to the
    engine, and the order of [JS.sort] is stated only for lists whose
    records all have their [updatedAt]. *)
Definition by_updatedAt (a b : string * Session) : Z :=
  if ((updatedAt (snd a) =? 0) || (updatedAt (snd b) =? 0))%bool then 0
  else updatedAt (snd b) - updatedAt (snd a).

(** [Object.entries(sessions).map(([key, session]) => ({ key, ...session }))],
    sorted. *)
Definition listSessions : M (list (string * Session)) :=
  try_catch
    (storage <- chrome_storage_get [CMBStorage.SESSIONS_KEY] ;;
     let sessions := CMBStorage.sessions_of storage in
     ret (JS.sort by_updatedAt sessions))%js
    (fun _ => ret []).

(** What [getStorageStats] returns; the object of the failure case has no
    [bytesUsed]. *)
Record StorageStats := {
  dataSize : string;
  sessionCount : nat;
  markerCount : nat;
  bytesUsed : option Z
}.

Definition finalized_at (now : Z) (s : Session) : Session :=
  {| url := url s; videoTitle := videoTitle s; createdAt := createdAt s;
     updatedAt := now; markers := markers s; manualTimer := manualTimer s;
     finalized := true |}.

Section WithHost.

Context (h : Host).

(** [location.href] is an argument; [cmb.lastActiveKey], when it is set,
    holds a string. *)
Definition getCurrentSession (href : string) : M (option (string * Session)) :=
  try_catch
    (storage <- chrome_storage_get [CMBStorage.SESSIONS_KEY; CMBStorage.LAST_ACTIVE_KEY] ;;
     let sessions := CMBStorage.sessions_of storage in
     let activeKey := match storage !! CMBStorage.LAST_ACTIVE_KEY with
                      | Some (VString k) => truthy (Some k)
                      | _ => None
                      end in
     let active := match activeKey with
                   | Some k => match JS.get k sessions with
                               | Some s => Some (k, s)
                               | None => None
                               end
                   | None => None
                   end in
     match active with
     | Some found => ret (Some found)
     | None =>
         now <- Date_now ;;
         let currentKey := CMBStorage.getSessionKey h now href in
         match JS.get currentKey sessions with
         | Some s => ret (Some (currentKey, s))
         | None => ret None
         end
     end)%js
    (fun _ => ret None).

(** [finalizeSession(session, key)]; [None] is a missing session. *)
Definition finalizeSession (session : option Session) (key : option string) : M unit :=
  match session with
  | None => ret tt
  | Some session =>
      try_catch
        (now <- Date_now ;;
         let session := finalized_at now session in
         let sessionKey := CMBStorage.resolve_key h now (url session) key in
         storage <- chrome_storage_get [CMBStorage.SESSIONS_KEY] ;;
         let sessions := JS.set sessionKey session (CMBStorage.sessions_of storage) in
         chrome_storage_set {[ CMBStorage.SESSIONS_KEY := VSessions sessions ]})%js
        (fun _ => ret tt)
  end.

(** [CMBUtils.formatFileSize], which computes with logarithms of floating
    point numbers, is an argument. *)
Definition getStorageStats (formatFileSize : Z -> string) : M StorageStats :=
  try_catch
    (storage <- chrome_storage_get_all ;;
     let dataSize := json_size h storage in
     let sessions := CMBStorage.sessions_of storage in
     let sessionCount := length (JS.keys sessions) in
     let markerCount :=
       List.fold_left (fun sum s => (sum + length (markers (snd s)))%nat) sessions 0%nat in
     ret {| dataSize := formatFileSize dataSize; sessionCount := sessionCount;
            markerCount := markerCount; bytesUsed := Some dataSize |})%js
    (fun _ => ret {| dataSize := "0 KB"; sessionCount := 0; markerCount := 0;
                     bytesUsed := None |}).

End WithHost.

End CMBStorage2.

(* ===================================================================== *)
(** ** More of the JavaScript library: text                               *)
(* ===================================================================== *)

Module JSText.

(** [s.replace(/c/g, rep)] for one character [c]. *)
Fixpoint replace_char (c : ascii) (rep s : string) : string :=
  match s with
  | EmptyString => EmptyString
  | String a s' =>
      if Ascii.eqb a c then rep +:+ replace_char c rep s'
      else String a (replace_char c rep s')
  end.

(** [s.replace(/[^\d]/g, '')] *)
Fixpoint digits_only (s : string) : string :=
  match s with
  | EmptyString => EmptyString
  | String c s' => if JS.is_digit c then String c (digits_only s') else digits_only s'
  end.

(** What follows the longest run of digits at the head of [s]. *)
Fixpoint drop_digits (s : string) : string :=
  match s with
  | EmptyString => EmptyString
  | String c s' => if JS.is_digit c then drop_digits s' else s
  end.

(** The number a string of digits denotes. *)
Definition digits_value (ds : string) : Z :=
  match DecimalString.NilEmpty.uint_of_string ds with
  | Some d => Z.of_uint d
  | None => 0
  end.

(** [parseInt(s)] for a string that is empty or starts with a digit, as
    the strings the code passes are: the digits at its head, or [NaN]
    ([None]) when there are none.  The value is exact below [2^53]. *)
Definition parseInt (s : string) : option Z :=
  let ds := JS.take_digits s in
  if String.eqb ds EmptyString then None else Some (digits_value ds).

(** [Number.MAX_SAFE_INTEGER] *)
Definition MAX_SAFE_INTEGER : Z := 9007199254740991.

End JSText.

(* ===================================================================== *)
(** ** CMBDeepLinks (deeplinks.js)                                        *)
(* ===================================================================== *)

(** The parts of a [URL] object the deep links read and write; [link_hash]
    is what the getter [hash] returns, the empty string or [#] and the
    fragment. *)
Record URLObj := {
  link_hostname : string;
  link_pathname : string;
  link_searchParams : list (string * string);
  link_hash : string
}.

Record LinkHost := {
  (** [new URL(url)]; [None] when the constructor throws *)
  new_URL : string -> option URLObj;
  (** [urlObj.toString()] *)
  toString : URLObj -> string
}.

Module CMBDeepLinks.

(** [urlObj.searchParams.delete(name)] *)
Definition searchParams_delete (name : string) (ps : list (string * string))
    : list (string * string) :=
  List.filter (fun kv => negb (String.eqb name (fst kv))) ps.

(** [urlObj.searchParams.set(name, value)]: the first pair of that name
    takes the value and the others go; without one the pair is appended. *)
Fixpoint searchParams_set (name value : string) (ps : list (string * string))
    : list (string * string) :=
  match ps with
  | [] => [(name, value)]
  | (k, v) :: ps' =>
      if String.eqb name k then (k, value) :: searchParams_delete name ps'
      else (k, v) :: searchParams_set name value ps'
  end.

Definition with_searchParams (ps : list (string * string)) (u : URLObj) : URLObj :=
  {| link_hostname := link_hostname u; link_pathname := link_pathname u;
     link_searchParams := ps; link_hash := link_hash u |}.

(** [urlObj.hash = value] for a value without [#]. *)
Definition with_hash (value : string) (u : URLObj) : URLObj :=
  {| link_hostname := link_hostname u; link_pathname := link_pathname u;
     link_searchParams := link_searchParams u;
     link_hash := if String.eqb value EmptyString then EmptyString else "#" +:+ value |}.

Definition is_youtube (hostname : string) : bool :=
  (JS.includes "youtube.com" hostname || JS.includes "youtu.be" hostname)%bool.

(** The URL object [buildYouTubeLink] serializes.  [seconds] is an
    integer, so that [Math.floor(seconds)] is [seconds]. *)
Definition youtubeTimed (urlObj : URLObj) (seconds : Z) : URLObj :=
  let ps := searchParams_delete "t" (link_searchParams urlObj) in
  let ps := searchParams_delete "time_continue" ps in
  let ps := searchParams_delete "start" ps in
  if String.eqb (link_hostname urlObj) "youtu.be"
  then with_searchParams (searchParams_set "t" (JS.of_Z seconds) ps) urlObj
  else with_searchParams (searchParams_set "t" (JS.of_Z seconds +:+ "s") ps) urlObj.

(** [hours], [minutes] and [secs] of [buildTwitchLink] and its [timeStr];
    [%] is the remainder of the truncated division. *)
Definition twitchTime (seconds : Z) : string :=
  let hours := seconds / 3600 in
  let minutes := Z.rem seconds 3600 / 60 in
  let secs := Z.rem seconds 60 in
  let timeStr := EmptyString in
  let timeStr := if 0 <? hours then timeStr +:+ JS.of_Z hours +:+ "h" else timeStr in
  let timeStr := if 0 <? minutes then timeStr +:+ JS.of_Z minutes +:+ "m" else timeStr in
  if ((0 <? secs) || String.eqb timeStr EmptyString)%bool
  then timeStr +:+ JS.of_Z secs +:+ "s" else timeStr.

Definition twitchTimed (urlObj : URLObj) (seconds : Z) : URLObj :=
  let ps := searchParams_delete "t" (link_searchParams urlObj) in
  with_searchParams (searchParams_set "t" (twitchTime seconds) ps) urlObj.

Definition vimeoTimed (urlObj : URLObj) (seconds : Z) : URLObj :=
  let urlObj := with_hash EmptyString urlObj in
  let minutes := seconds / 60 in
  let secs := Z.rem seconds 60 in
  if 0 <? minutes
  then with_hash ("t=" +:+ JS.of_Z minutes +:+ "m" +:+ JS.of_Z secs +:+ "s") urlObj
  else with_hash ("t=" +:+ JS.of_Z seconds +:+ "s") urlObj.

(** One optional group [(?:(\d+)c)?] of the Twitch pattern, tried at the
    head of [s]: the digits it captures, if it matches, and what is left
    to match. *)
Definition unit_group (c : ascii) (s : string) : option string * string :=
  let ds := JS.take_digits s in
  match JSText.drop_digits s with
  | String a rest =>
      if (negb (String.eqb ds EmptyString) && Ascii.eqb a c)%bool then (Some ds, rest)
      else (None, s)
  | EmptyString => (None, s)
  end.

(** [parseInt(group || 0)] for a group [(\d+)] *)
Definition group_value (g : option string) : Z :=
  match g with
  | Some ds => JSText.digits_value ds
  | None => 0
  end.

(** [t.match(/(?:(\d+)h)?(?:(\d+)m)?(?:(\d+)s)?/)], which matches at the
    head of every [t], and the sum computed from its groups. *)
Definition twitchSeconds (t : string) : Z :=
  match unit_group "h" t with
  | (hours, t1) =>
      match unit_group "m" t1 with
      | (minutes, t2) =>
          match unit_group "s" t2 with
          | (seconds, _) =>
              group_value hours * 3600 + group_value minutes * 60 + group_value seconds
          end
      end
  end.

(** [/#t=(?:(\d+)m)?(\d+)s?/] tried at the head of [s]: the two groups. *)
Definition vimeo_match_here (s : string) : option (option string * string) :=
  if String.prefix "#t=" s then
    let s := String.substring 3 (String.length s - 3) s in
    let ds := JS.take_digits s in
    if String.eqb ds EmptyString then None
    else
      match JSText.drop_digits s with
      | String "m" rest =>
          let ds2 := JS.take_digits rest in
          if String.eqb ds2 EmptyString then Some (None, ds) else Some (Some ds, ds2)
      | _ => Some (None, ds)
      end
  else None.

(** The leftmost match. *)
Fixpoint vimeo_match (s : string) : option (option string * string) :=
  match vimeo_match_here s with
  | Some groups => Some groups
  | None => match s with
            | EmptyString => None
            | String _ s' => vimeo_match s'
            end
  end.

Section WithLinkHost.

Context (lh : LinkHost).

Definition buildYouTubeLink (urlObj : URLObj) (seconds : Z) : string :=
  toString lh (youtubeTimed urlObj seconds).

Definition buildTwitchLink (urlObj : URLObj) (seconds : Z) : string :=
  toString lh (twitchTimed urlObj seconds).

Definition buildVimeoLink (urlObj : URLObj) (seconds : Z) : string :=
  toString lh (vimeoTimed urlObj seconds).

Definition buildDeepLink (url : string) (seconds : Z) : string :=
  match new_URL lh url with
  | None => url
  | Some urlObj =>
      let hostname := JS.toLowerCase (link_hostname urlObj) in
      if is_youtube hostname then buildYouTubeLink urlObj seconds
      else if JS.includes "twitch.tv" hostname then buildTwitchLink urlObj seconds
      else if JS.includes "vimeo.com" hostname then buildVimeoLink urlObj seconds
      else url
  end.

Definition parseTimeFromUrl (url : string) : option Z :=
  match new_URL lh url with
  | None => None
  | Some urlObj =>
      let hostname := JS.toLowerCase (link_hostname urlObj) in
      let youtube :=
        if is_youtube hostname then
          let t := match truthy (searchParams_get "t" (link_searchParams urlObj)) with
                   | Some t => Some t
                   | None => searchParams_get "start" (link_searchParams urlObj)
                   end in
          match truthy t with
          | Some t => JSText.parseInt (JSText.digits_only t)
          | None => None
          end
        else None in
      match youtube with
      | Some seconds => Some seconds
      | None =>
          let twitch :=
            if JS.includes "twitch.tv" hostname then
              match truthy (searchParams_get "t" (link_searchParams urlObj)) with
              | Some t => Some (twitchSeconds t)
              | None => None
              end
            else None in
          match twitch with
          | Some seconds => Some seconds
          | None =>
              if (JS.includes "vimeo.com" hostname
                  && negb (String.eqb (link_hash urlObj) EmptyString))%bool then
                match vimeo_match (link_hash urlObj) with
                | Some (minutes, seconds) =>
                    Some (group_value minutes * 60 + JSText.digits_value seconds)
                | None => None
                end
              else None
          end
      end
  end.

Definition supportsDeepLinks (url : string) : bool :=
  match new_URL lh url with
  | None => false
  | Some urlObj =>
      let hostname := JS.toLowerCase (link_hostname urlObj) in
      (JS.includes "youtube.com" hostname || JS.includes "youtu.be" hostname
       || JS.includes "twitch.tv" hostname || JS.includes "vimeo.com" hostname)%bool
  end.

End WithLinkHost.

End CMBDeepLinks.

(** A concrete [URL] with fragments, for examples: [https] URLs without
    port or credentials. *)
Module BrowserLinks.

Definition parse (url : string) : option URLObj :=
  match Browser.cut "#"%char url with
  | (front, fragment) =>
      match Browser.parseURL front with
      | None => None
      | Some u =>
          Some {| link_hostname := hostname u; link_pathname := pathname u;
                  link_searchParams := searchParams u;
                  link_hash := match fragment with
                               | Some f => if String.eqb f EmptyString then EmptyString
                                           else "#" +:+ f
                               | None => EmptyString
                               end |}
      end
  end.

Fixpoint query (ps : list (string * string)) : string :=
  match ps with
  | [] => EmptyString
  | [(k, v)] => k +:+ "=" +:+ v
  | (k, v) :: ps' => k +:+ "=" +:+ v +:+ "&" +:+ query ps'
  end.

Definition serialize (u : URLObj) : string :=
  "https://" +:+ link_hostname u +:+ link_pathname u
  +:+ (match link_searchParams u with
       | [] => EmptyString
       | ps => "?" +:+ query ps
       end)
  +:+ link_hash u.

Definition host : LinkHost := {| new_URL := parse; toString := serialize |}.

End BrowserLinks.

(* ===================================================================== *)
(** ** CMBExporters (exporters.js)                                        *)
(* ===================================================================== *)

Module CMBExporters.

(** [s.padStart(2, '0')] *)
Definition padStart2 (s : string) : string :=
  match String.length s with
  | O => "00"
  | S O => "0" +:+ s
  | _ => s
  end.

(** [seconds] is an integer, as the [t] of a marker is. *)
Definition formatTimestamp (seconds : Z) (forceHours : bool) : string :=
  let hours := seconds / 3600 in
  let minutes := Z.rem seconds 3600 / 60 in
  let secs := Z.rem seconds 60 in
  if ((0 <? hours) || forceHours)%bool then
    padStart2 (JS.of_Z hours) +:+ ":" +:+ padStart2 (JS.of_Z minutes) +:+ ":"
    +:+ padStart2 (JS.of_Z secs)
  else padStart2 (JS.of_Z minutes) +:+ ":" +:+ padStart2 (JS.of_Z secs).

(** The comparator of the exports: [a.t - b.t]. *)
Definition by_t (a b : Marker) : Z := marker_t a - marker_t b.

(** [{ t: 0, title: 'Intro', id: 'intro-auto' }]; of a chapter only [t]
    and [title] are read. *)
Definition intro : Marker :=
  {| marker_id := "intro-auto"; marker_t := 0; marker_title := "Intro";
     marker_createdAt := 0; marker_screenshotId := None |}.

(** The array [markers] of [toYouTubeChapters] when it is formatted. *)
Definition chapters (session : Session) (insertIntro : bool) : list Marker :=
  let markers := JS.sort by_t (markers session) in
  if (insertIntro && match markers with
                     | [] => true
                     | first :: _ => negb (marker_t first =? 0)
                     end)%bool
  then intro :: markers else markers.

Definition newline : string := String (Ascii.ascii_of_nat 10) EmptyString.

(** [lines.join(sep)] *)
Fixpoint join (sep : string) (lines : list string) : string :=
  match lines with
  | [] => EmptyString
  | [line] => line
  | line :: lines' => line +:+ sep +:+ join sep lines'
  end.

Definition chapter_line (marker : Marker) : string :=
  formatTimestamp (marker_t marker) false +:+ " " +:+ JS.or_str (marker_title marker) "Chapter".

(** [toYouTubeChapters(session, { insertIntro })]; [None] is a missing
    session. *)
Definition toYouTubeChapters (session : option Session) (insertIntro : bool) : string :=
  match session with
  | None => EmptyString
  | Some session => join newline (List.map chapter_line (chapters session insertIntro))
  end.

Definition dquote : ascii := Ascii.ascii_of_nat 34.

(** [/^[=+\-@]/.test(value)] *)
Definition starts_formula (value : string) : bool :=
  match value with
  | String c _ =>
      (Ascii.eqb c "="%char || Ascii.eqb c "+"%char || Ascii.eqb c "-"%char
       || Ascii.eqb c "@"%char)%bool
  | EmptyString => false
  end.

(** The test for a comma, a double quote, a carriage return or a line
    feed. *)
Fixpoint needs_quotes (value : string) : bool :=
  match value with
  | EmptyString => false
  | String c s =>
      (Ascii.eqb c ","%char || Ascii.eqb c dquote || Ascii.eqb c (Ascii.ascii_of_nat 13)
       || Ascii.eqb c (Ascii.ascii_of_nat 10) || needs_quotes s)%bool
  end.

(** [escapeCSV(value)] for a string. *)
Definition escapeCSV (value : string) : string :=
  let value := if starts_formula value then "'" +:+ value else value in
  if needs_quotes value then
    String dquote
      (JSText.replace_char dquote (String dquote (String dquote EmptyString)) value
       +:+ String dquote EmptyString)
  else value.

(** [escapeHtml(text)] for a string. *)
Definition escapeHtml (text : string) : string :=
  JSText.replace_char "/"%char "&#x2F;"
    (JSText.replace_char "'"%char "&#x27;"
       (JSText.replace_char dquote "&quot;"
          (JSText.replace_char ">"%char "&gt;"
             (JSText.replace_char "<"%char "&lt;"
                (JSText.replace_char "&"%char "&amp;" text))))).

(** [/[a-z0-9]/i] *)
Definition is_alnum (c : ascii) : bool :=
  let n := Ascii.nat_of_ascii c in
  ((Nat.leb 48 n && Nat.leb n 57) || (Nat.leb 65 n && Nat.leb n 90)
   || (Nat.leb 97 n && Nat.leb n 122))%bool.

(** [s.replace(/[^a-z0-9]/gi, '_')] *)
Fixpoint underscored (s : string) : string :=
  match s with
  | EmptyString => EmptyString
  | String c s' => String (if is_alnum c then c else "_"%char) (underscored s')
  end.

(** [s.replace(/_+/g, '_')] *)
Fixpoint squeezed (s : string) : string :=
  match s with
  | EmptyString => EmptyString
  | String c s' =>
      if Ascii.eqb c "_"%char then
        match s' with
        | String c' _ => if Ascii.eqb c' "_"%char then squeezed s' else String c (squeezed s')
        | EmptyString => String c EmptyString
        end
      else String c (squeezed s')
  end.

(** The title part of the name of an export file. *)
Definition fileTitle (session : Session) : string :=
  String.substring 0 50 (squeezed (underscored (JS.or_str (videoTitle session) "chapters"))).

(** [now] is the time of [new Date()]. *)
Definition generateFilename (h : Host) (now : Z) (session : Session) (extension : string)
    : string :=
  let videoTitle := fileTitle session in
  let date := iso_date h now in
  videoTitle +:+ "_" +:+ date +:+ "." +:+ extension.

End CMBExporters.

(* ===================================================================== *)
(** ** The overlay's manual timer (content.js)                            *)
(* ===================================================================== *)

(** The variable [manualTimer], [None] for [null]; [now] is [Date.now()].
    The buttons and the display the functions also touch are left out. *)
Module OverlayTimer.

Definition startManualTimer (now : Z) (manualTimer : option ManualTimer)
    : option ManualTimer :=
  match manualTimer with
  | None => Some {| timer_isActive := true; timer_startedAt := now; timer_elapsedOffset := 0 |}
  | Some t => Some {| timer_isActive := true; timer_startedAt := now;
                      timer_elapsedOffset := timer_elapsedOffset t |}
  end.

Definition pauseManualTimer (now : Z) (manualTimer : option ManualTimer)
    : option ManualTimer :=
  match manualTimer with
  | None => None
  | Some t => Some {| timer_isActive := false; timer_startedAt := timer_startedAt t;
                      timer_elapsedOffset :=
                        timer_elapsedOffset t + (now - timer_startedAt t) |}
  end.

Definition resetManualTimer (manualTimer : option ManualTimer) : option ManualTimer := None.

Definition getManualTimerSeconds (now : Z) (manualTimer : option ManualTimer) : Z :=
  match manualTimer with
  | None => 0
  | Some t =>
      let elapsed := timer_elapsedOffset t in
      let elapsed := if timer_isActive t then elapsed + (now - timer_startedAt t)
                     else elapsed in
      elapsed / 1000
  end.

(** The text [updateManualTimerDisplay] writes, if it writes one. *)
Definition updateManualTimerDisplay (now : Z) (manualTimer : option ManualTimer)
    : option string :=
  match manualTimer with
  | None => None
  | Some t =>
      if timer_isActive t then
        let elapsed := timer_elapsedOffset t + (now - timer_startedAt t) in
        let seconds := elapsed / 1000 in
        Some (CMBExporters.formatTimestamp seconds true)
      else None
  end.

End OverlayTimer.

(* ===================================================================== *)
(** ** Vocabulary of the properties                                       *)
(* ===================================================================== *)

(** No rejection is scheduled for chrome.storage.local. *)
Definition kv_reliable (w : World) : Prop := kv_script w = [].

(** The world once the next chrome.storage.local call has been answered. *)
Definition answered (w : World) : World := with_kv_script (tail (kv_script w)) w.

(** The next call does not reject. *)
Definition next_call_ok (w : World) : Prop :=
  match kv_script w with
  | Some _ :: _ => False
  | _ => True
  end.

(** The screenshots owned by [key] are gone and counted. *)
Definition cascaded (key : string) (w : World) : World :=
  add_effect
    (IdbDeleteByOwner key
       (size (filter (fun kv => shot_sessionKey (snd kv) = key) (screenshots w))))
    (with_screenshots (filter (fun kv => shot_sessionKey (snd kv) <> key) (screenshots w)) w).

(** The guarded cascade of [deleteSession] and [cleanupOldSessions],
    [if (typeof CMBScreenshotDB !== 'undefined') try { ... } catch { }],
    leaves the world [after_cascade]. *)
Definition after_cascade (key : string) (w : World) : World :=
  if (screenshot_db_loaded w && idb_available w)%bool then cascaded key w else w.

(** The screenshots created at or before the cutoff are gone and counted. *)
Definition aged_out (maxAgeMs : Z) (w : World) : World :=
  add_effect
    (IdbDeleteOlder (clock w - maxAgeMs)
       (size (filter (fun kv => shot_createdAt (snd kv) <= clock w - maxAgeMs) (screenshots w))))
    (with_screenshots
       (filter (fun kv => ~ shot_createdAt (snd kv) <= clock w - maxAgeMs) (screenshots w)) w).

(** [storage[SETTINGS_KEY] || defaults] *)
Definition settings_of (st : gmap string Value) : Settings :=
  match st !! CMBStorage.SETTINGS_KEY with
  | Some (VSettings s) => s
  | _ => CMBStorage.default_settings
  end.

(** The sessions [progressiveCleanup] deletes, and what is left. *)
Definition aged_sessions (cutoff : Z) (ss : JS.Obj Session) : JS.Obj Session :=
  List.filter (fun entry => CMBStorage.session_stamp (snd entry) <? cutoff) ss.

Definition without (dels ss : JS.Obj Session) : JS.Obj Session :=
  List.fold_left (fun o entry => JS.delete (fst entry) o) dels ss.

(** The world after the sessions step of the sweep. *)
Definition sessions_swept (w0 w : World) : World :=
  let ss := CMBStorage.sessions_of (storage w0) in
  let dels := aged_sessions (clock w0 - 90 * CMBStorage.DAY_MS) ss in
  match dels with
  | [] => w
  | _ :: _ =>
      add_effect (KvSet {[ CMBStorage.SESSIONS_KEY := VSessions (without dels ss) ]})
        (with_storage ({[ CMBStorage.SESSIONS_KEY := VSessions (without dels ss) ]} ∪ storage w) w)
  end.

(** The world after the settings step of the sweep. *)
Definition stamped (w : World) : World :=
  let s := CMBStorage.set_lastCleanup (clock w) (settings_of (storage w)) in
  add_effect (KvSet {[ CMBStorage.SETTINGS_KEY := VSettings s ]})
    (with_storage ({[ CMBStorage.SETTINGS_KEY := VSettings s ]} ∪ storage w) w).

(** [a] is at least as recently updated as [b]. *)
Definition fresher (a b : string * Session) : Prop :=
  updatedAt (snd b) <= updatedAt (snd a).

(** The sessions [cleanupOldSessions] deletes: those past the first five
    in the order of the sort. *)
Definition victims (ss : JS.Obj Session) : JS.Obj Session :=
  JS.slice_from 5 (JS.sort CMBStorage.by_updatedAt_desc ss).

Definition keepers (ss : JS.Obj Session) : JS.Obj Session :=
  List.firstn 5 (JS.sort CMBStorage.by_updatedAt_desc ss).

(** The guarded cascade, run for each of [vs] in turn. *)
Definition cascade_all (vs : JS.Obj Session) (w : World) : World :=
  List.fold_left (fun w e => after_cascade (fst e) w) vs w.

(** The capacity eviction invariant of the specification, first half: of
    more than [n] sessions exactly [n] are left, all of them among the
    former ones and unchanged, and none of the deleted ones was updated
    after one that is left; [n] sessions or fewer are all left. *)
Definition retains_most_recent (n : nat) (before after : JS.Obj Session) : Prop :=
  ((length before <= n)%nat /\ after = before)
  \/ ((n < length before)%nat
      /\ length after = n
      /\ (forall k s, In (k, s) after -> In (k, s) before)
      /\ (forall k s k' s',
            In (k, s) after -> In (k', s') before -> ~ In k' (JS.keys after) ->
            updatedAt s' <= updatedAt s)).

(** Second half: no screenshot is left whose owner is a deleted session. *)
Definition no_orphaned_screenshots
    (before after : JS.Obj Session) (shots : gmap string Screenshot) : Prop :=
  forall k, In k (JS.keys before) -> ~ In k (JS.keys after) ->
  forall id b, shots !! id = Some b -> shot_sessionKey b <> k.

Definition capacity_evicted (w w' : World) : Prop :=
  retains_most_recent 5 (CMBStorage.sessions_of (storage w)) (CMBStorage.sessions_of (storage w'))
  /\ no_orphaned_screenshots (CMBStorage.sessions_of (storage w))
       (CMBStorage.sessions_of (storage w')) (screenshots w').

(** The world after the screenshots step of the sweep. *)
Definition after_blob_sweep (w : World) : World :=
  if (screenshot_db_loaded w && idb_available w)%bool
  then aged_out (30 * CMBStorage.DAY_MS) w else w.

(** An invocation that leaves both stores, the settings included, as they
    were. *)
Definition leaves_unchanged (w w' : World) : Prop :=
  storage w' = storage w /\ screenshots w' = screenshots w.

(** The key of a URL does not change within one UTC calendar date. *)
Definition stable_within_day (h : Host) (u : string) : Prop :=
  forall now1 now2 : Z,
    iso_date h now1 = iso_date h now2 ->
    CMBStorage.getSessionKey h now1 u = CMBStorage.getSessionKey h now2 u.

(** The page while the first call of [queuedSave(key, first)] is suspended
    in [phase] of its first attempt, with [latest] the object queued last
    under [key], [pending] the reads of [saveSession] not answered yet and
    [m] what the session objects hold. *)
Definition draining (phase : CMBStorage.Phase) (key : string) (first latest : CMBStorage.Data)
    (pending : list (CMBStorage.Ref * string)) (m : CMBStorage.Memory) (w : World)
    : CMBStorage.Queue :=
  {| CMBStorage.saveQueue := [(key, latest)];
     CMBStorage.saveInProgress := true;
     CMBStorage.drain :=
       Some {| CMBStorage.retries := 3; CMBStorage.iter_pos := 1;
               CMBStorage.queueKey := key; CMBStorage.queueData := first;
               CMBStorage.attempts := 0; CMBStorage.phase := phase |};
     CMBStorage.reads := pending;
     CMBStorage.memory := m;
     CMBStorage.world := w |}.

(** What may happen while the drain of [key] awaits a promise without
    another entry entering the queue: calls of [queuedSave] for [key],
    assignments to session objects, calls of [saveSession], and, when
    [key] is the key of the collection, answers to their reads. *)
Definition meanwhile (key : string) (e : CMBStorage.Event) : bool :=
  match e with
  | CMBStorage.Call k _ => String.eqb k key
  | CMBStorage.Assign _ _ => true
  | CMBStorage.Save _ _ => true
  | CMBStorage.Answer => String.eqb key CMBStorage.SESSIONS_KEY
  | CMBStorage.Settle => false
  end.

(** The page with the queue at rest, with [pending] the reads of
    [saveSession] not answered yet. *)
Definition resting (pending : list (CMBStorage.Ref * string)) (m : CMBStorage.Memory)
    (w : World) : CMBStorage.Queue :=
  {| CMBStorage.saveQueue := [];
     CMBStorage.saveInProgress := false;
     CMBStorage.drain := None;
     CMBStorage.reads := pending;
     CMBStorage.memory := m;
     CMBStorage.world := w |}.

(** A write to chrome.storage.local. *)
Definition is_KvSet (e : Effect) : Prop :=
  match e with
  | KvSet _ => True
  | _ => False
  end.

(** Code whose only backend operations are writes to chrome.storage.local. *)
Definition kv_only {A} (m : M A) : Prop :=
  forall w, exists post, trace (snd (m w)) = trace w ++ post /\ Forall is_KvSet post.

(** Every record sits under its own [id], the key path of the store. *)
Definition keyed_by_id (shots : gmap string Screenshot) : Prop :=
  forall id b, shots !! id = Some b -> shot_id b = id.

(** The store after [put] of each record of the list in turn. *)
Definition put_all (l : list Screenshot) (m : gmap string Screenshot) : gmap string Screenshot :=
  List.fold_left (fun m s => <[shot_id s := s]> m) l m.

(** The record [beginSession] stores under the resolved key. *)
Definition begun (h : Host) (u title : string) (now : Z) (existing : option Session) : Session :=
  match existing with
  | Some e => CMBStorage.touch now u e
  | None => {| url := u; videoTitle := JS.or_str title (page_title h);
               createdAt := now; updatedAt := now; markers := [];
               manualTimer := None; finalized := false |}
  end.

(** The sum of [getStorageStats]. *)
Definition count_markers (ss : JS.Obj Session) : nat :=
  List.fold_left (fun sum s => (sum + length (markers (snd s)))%nat) ss 0%nat.

(** What [getCurrentSession] computes from the store, once it is read. *)
Definition current_of (h : Host) (href : string) (now : Z) (st : gmap string Value)
    : option (string * Session) :=
  let sessions := CMBStorage.sessions_of st in
  let activeKey := match st !! CMBStorage.LAST_ACTIVE_KEY with
                   | Some (VString k) => truthy (Some k)
                   | _ => None
                   end in
  let active := match activeKey with
                | Some k => match JS.get k sessions with
                            | Some s => Some (k, s)
                            | None => None
                            end
                | None => None
                end in
  match active with
  | Some found => Some found
  | None =>
      let currentKey := CMBStorage.getSessionKey h now href in
      match JS.get currentKey sessions with
      | Some s => Some (currentKey, s)
      | None => None
      end
  end.

(** [cmb.lastActiveKey] names a member of [Object.prototype]. *)
Definition active_key_inherited (st : gmap string Value) : bool :=
  match st !! CMBStorage.LAST_ACTIVE_KEY with
  | Some (VString k) => JS.is_inherited k
  | _ => false
  end.

(** Every record has its [updatedAt]. *)
Definition dated (ss : JS.Obj Session) : bool :=
  List.forallb (fun entry => negb (updatedAt (snd entry) =? 0)) ss.

(** The queue is at rest: nothing queued, no drain running. *)
Definition at_rest (q : CMBStorage.Queue) : Prop :=
  CMBStorage.saveQueue q = [] /\ CMBStorage.saveInProgress q = false
  /\ CMBStorage.drain q = None.

(** A toast has been shown between [w] and [w']. *)
Definition announced (w w' : World) : Prop :=
  (length (toasts w) < length (toasts w'))%nat.

(** The settles a drain of one entry with three attempts has left at most. *)
Definition budget (a : nat) (p : CMBStorage.Phase) : nat :=
  match p with
  | CMBStorage.AwaitQuota => 9 - 3 * a
  | CMBStorage.AwaitSet _ => 8 - 3 * a
  | CMBStorage.AwaitCleanup => 1
  | CMBStorage.AwaitBackoff => 10 - 3 * a
  end.

(** The drain of the lone entry [(key, data)], in its attempt [a], with no
    read of [saveSession] under way. *)
Definition lone (key : string) (data : CMBStorage.Data) (a : nat) (p : CMBStorage.Phase)
    (m : CMBStorage.Memory) (w : World) : CMBStorage.Queue :=
  {| CMBStorage.saveQueue := [(key, data)];
     CMBStorage.saveInProgress := true;
     CMBStorage.drain :=
       Some {| CMBStorage.retries := 3; CMBStorage.iter_pos := 1;
               CMBStorage.queueKey := key; CMBStorage.queueData := data;
               CMBStorage.attempts := a; CMBStorage.phase := p |};
     CMBStorage.reads := [];
     CMBStorage.memory := m;
     CMBStorage.world := w |}.

(** The write a drain awaits, if it awaits one, is of [items]. *)
Definition writes (items : Value) (p : CMBStorage.Phase) : Prop :=
  match p with
  | CMBStorage.AwaitSet items' => items' = items
  | _ => True
  end.

(** Code that takes no toast back. *)
Definition keeps_toasts {A} (m : M A) : Prop :=
  forall w, (length (toasts w) <= length (toasts (snd (m w))))%nat.

(** The URL object [buildDeepLink] serializes for a parsed URL, if it
    builds a link. *)
Definition linked (urlObj : URLObj) (seconds : Z) : option URLObj :=
  let hostname := JS.toLowerCase (link_hostname urlObj) in
  if CMBDeepLinks.is_youtube hostname then Some (CMBDeepLinks.youtubeTimed urlObj seconds)
  else if JS.includes "twitch.tv" hostname then Some (CMBDeepLinks.twitchTimed urlObj seconds)
  else if JS.includes "vimeo.com" hostname then Some (CMBDeepLinks.vimeoTimed urlObj seconds)
  else None.

(** The parts of a URL object that [getSessionKey] reads. *)
Definition as_URL (urlObj : URLObj) : URL :=
  {| hostname := link_hostname urlObj; pathname := link_pathname urlObj;
     searchParams := link_searchParams urlObj |}.

(** Chapters in the order of their times. *)
Definition in_time_order (a b : Marker) : Prop := marker_t a <= marker_t b.

(** [c] occurs in [s]. *)
Fixpoint occurs (c : ascii) (s : string) : bool :=
  match s with
  | EmptyString => false
  | String a s' => (Ascii.eqb a c || occurs c s')%bool
  end.

(** Letters, digits and single underscores only. *)
Fixpoint tidy (s : string) : bool :=
  match s with
  | EmptyString => true
  | String c s' =>
      ((CMBExporters.is_alnum c || Ascii.eqb c "_"%char)
       && negb (Ascii.eqb c "_"%char
                && match s' with
                   | String c' _ => Ascii.eqb c' "_"%char
                   | EmptyString => false
                   end)
       && tidy s')%bool
  end.

(** The timer after it has run over each of the intervals in turn: started
    at the first time of a pair and paused at the second. *)
Definition laps (intervals : list (Z * Z)) (manualTimer : option ManualTimer)
    : option ManualTimer :=
  List.fold_left
    (fun t lap => OverlayTimer.pauseManualTimer (snd lap)
                    (OverlayTimer.startManualTimer (fst lap) t))
    intervals manualTimer.

(** The time the timer has run in the intervals. *)
Definition running_time (intervals : list (Z * Z)) : Z :=
  List.fold_right (fun lap sum => (snd lap - fst lap) + sum) 0 intervals.

(* ===================================================================== *)
(** * Properties                                                          *)
(* ===================================================================== *)

(** ** The backend calls *)

Lemma with_kv_script_same (w : World) : with_kv_script (kv_script w) w = w.
Proof. by destruct w. Qed.

Lemma next_outcome_reliable (w : World) :
  kv_reliable w -> next_outcome w = (Ok tt, w).
Proof. unfold kv_reliable, next_outcome. by intros ->. Qed.

Lemma next_outcome_fails (w : World) (e : Error) (s : list (option Error)) :
  kv_script w = Some e :: s -> next_outcome w = (Throw e, answered w).
Proof. unfold next_outcome, answered. by intros ->. Qed.

Lemma next_outcome_next_call_ok (w : World) :
  next_call_ok w -> next_outcome w = (Ok tt, answered w).
Proof.
  unfold next_call_ok, next_outcome, answered.
  destruct (kv_script w) as [|[e|] s] eqn:E; simpl; try done.
  intros _. rewrite <- E. by rewrite with_kv_script_same.
Qed.

Lemma chrome_storage_get_all_ok (w : World) :
  next_call_ok w ->
  chrome_storage_get_all w = (Ok (storage w), answered w).
Proof.
  intros H. unfold chrome_storage_get_all, bind, gets.
  by rewrite (next_outcome_next_call_ok w H).
Qed.

Lemma chrome_storage_get_reliable (ks : list string) (w : World) :
  kv_reliable w ->
  chrome_storage_get ks w = (Ok (filter (fun kv => fst kv ∈ ks) (storage w)), w).
Proof.
  intros H. unfold chrome_storage_get, bind, gets.
  by rewrite (next_outcome_reliable w H).
Qed.

Lemma chrome_storage_set_reliable (items : gmap string Value) (w : World) :
  kv_reliable w ->
  chrome_storage_set items w
  = (Ok tt, add_effect (KvSet items) (with_storage (items ∪ storage w) w)).
Proof.
  intros H. unfold chrome_storage_set, bind, modify.
  by rewrite (next_outcome_reliable w H).
Qed.

Lemma sessions_of_filter (ks : list string) (st : gmap string Value) :
  CMBStorage.SESSIONS_KEY ∈ ks ->
  CMBStorage.sessions_of (filter (fun kv => fst kv ∈ ks) st) = CMBStorage.sessions_of st.
Proof.
  intros Hin. unfold CMBStorage.sessions_of.
  destruct (st !! CMBStorage.SESSIONS_KEY) as [v|] eqn:E.
  - assert (filter (fun kv => fst kv ∈ ks) st !! CMBStorage.SESSIONS_KEY = Some v) as ->; [|done].
    by apply map_lookup_filter_Some.
  - assert (filter (fun kv => fst kv ∈ ks) st !! CMBStorage.SESSIONS_KEY = None) as ->; [|done].
    apply map_lookup_filter_None. by left.
Qed.

(** [cleanupOldSessions] catches whatever it throws. *)
Lemma cleanupOldSessions_resolves (w : World) :
  fst (CMBStorage.cleanupOldSessions w) = Ok tt.
Proof.
  unfold CMBStorage.cleanupOldSessions, try_catch.
  match goal with |- context [match ?m w with _ => _ end] => destruct (m w) as [[[]|e] w'] end;
    reflexivity.
Qed.

(** ** CMBScreenshotDB.deleteScreenshot *)

(** C10. Once the database opens, [deleteScreenshot] resolves to [true]
    for every id: the record of that id is gone afterwards, and when there
    was none the store is left as it was; the result is the same in both
    cases. *)
Theorem deleteScreenshot_resolves_true (id : string) (w : World) :
  idb_available w = true ->
  fst (CMBScreenshotDB.deleteScreenshot id w) = Ok true
  /\ screenshots (snd (CMBScreenshotDB.deleteScreenshot id w)) !! id = None
  /\ (screenshots w !! id = None ->
      screenshots (snd (CMBScreenshotDB.deleteScreenshot id w)) = screenshots w).
Proof.
  intros Hdb.
  unfold CMBScreenshotDB.deleteScreenshot, CMBScreenshotDB.initDB, bind, modify, ret.
  rewrite Hdb. simpl. split; [done|]. split.
  - apply lookup_delete_eq.
  - intros Hnone. by apply delete_id.
Qed.

(** ** checkStorageQuota *)

(** C9. When the read of chrome.storage.local rejects, [checkStorageQuota]
    resolves to [true]; nothing is measured, shown, evicted or written. *)
Theorem checkStorageQuota_fail_open
    (h : Host) (w : World) (e : Error) (s : list (option Error)) :
  kv_script w = Some e :: s ->
  CMBStorage.checkStorageQuota h w = (Ok true, answered w).
Proof.
  intros H. unfold CMBStorage.checkStorageQuota, chrome_storage_get_all, try_catch, bind.
  by rewrite (next_outcome_fails w e s H).
Qed.

Lemma deleteScreenshot_resolves_true_witness :
  idb_available Examples.crowded = true
  /\ fst (CMBScreenshotDB.deleteScreenshot "screenshot_m1" Examples.crowded) = Ok true
  /\ fst (CMBScreenshotDB.deleteScreenshot "screenshot_none" Examples.crowded) = Ok true.
Proof.
  split; [reflexivity|]. split.
  - apply (deleteScreenshot_resolves_true "screenshot_m1" Examples.crowded). reflexivity.
  - apply (deleteScreenshot_resolves_true "screenshot_none" Examples.crowded). reflexivity.
Defined.

Lemma checkStorageQuota_fail_open_witness :
  kv_script Examples.failing = [Some (JsError "I/O error")]
  /\ fst (CMBStorage.checkStorageQuota (Browser.host_with_size 6000000) Examples.failing) = Ok true.
Proof.
  split; [reflexivity|].
  rewrite (checkStorageQuota_fail_open (Browser.host_with_size 6000000) Examples.failing
             (JsError "I/O error") [] eq_refl).
  reflexivity.
Defined.

(** ** Dictionaries *)

Lemma get_set_eq {V} (k : string) (v : V) (o : JS.Obj V) :
  JS.get k (JS.set k v o) = Some v.
Proof.
  induction o as [|[k' v'] o IH]; simpl.
  - by rewrite String.eqb_refl.
  - destruct (String.eqb_spec k k') as [->|Hne]; simpl.
    + by rewrite String.eqb_refl.
    + destruct (String.eqb_spec k k'); [done|]. exact IH.
Qed.

Lemma get_set_ne {V} (k k' : string) (v : V) (o : JS.Obj V) :
  k' <> k -> JS.get k' (JS.set k v o) = JS.get k' o.
Proof.
  intros Hne. induction o as [|[k0 v0] o IH]; simpl.
  - destruct (String.eqb_spec k' k); [done|reflexivity].
  - destruct (String.eqb_spec k k0) as [->|Hk]; simpl.
    + destruct (String.eqb_spec k' k0); [done|reflexivity].
    + by rewrite IH.
Qed.

Lemma In_delete {V} (k k' : string) (v : V) (o : JS.Obj V) :
  In (k', v) (JS.delete k o) <-> In (k', v) o /\ k' <> k.
Proof.
  unfold JS.delete. rewrite filter_In. simpl.
  destruct (String.eqb_spec k k') as [->|Hne]; simpl; split;
    intros [H1 H2]; try done; split; try done; congruence.
Qed.

Lemma delete_absent {V} (k : string) (o : JS.Obj V) :
  JS.get k o = None -> JS.delete k o = o.
Proof.
  induction o as [|[k' v'] o IH]; simpl; [done|].
  destruct (String.eqb_spec k k') as [->|Hne]; simpl; [done|].
  intros H. by rewrite IH.
Qed.

Lemma get_delete_eq {V} (k : string) (o : JS.Obj V) :
  JS.get k (JS.delete k o) = None.
Proof.
  induction o as [|[k' v'] o IH]; simpl; [done|].
  destruct (String.eqb_spec k k') as [->|Hne]; simpl; [done|].
  destruct (String.eqb_spec k k'); [done|]. exact IH.
Qed.

Lemma get_delete_ne {V} (k k' : string) (o : JS.Obj V) :
  k' <> k -> JS.get k' (JS.delete k o) = JS.get k' o.
Proof.
  intros Hne. induction o as [|[k0 v0] o IH]; simpl; [done|].
  destruct (String.eqb_spec k k0) as [->|Hk]; simpl.
  - destruct (String.eqb_spec k' k0); [done|]. exact IH.
  - by rewrite IH.
Qed.

(** ** The sessions collection inside the store *)

Lemma sessions_key_ne_settings : CMBStorage.SESSIONS_KEY <> CMBStorage.SETTINGS_KEY.
Proof. by vm_compute. Qed.

Lemma sessions_of_written (ss : JS.Obj Session) (items st : gmap string Value) :
  items !! CMBStorage.SESSIONS_KEY = Some (VSessions ss) ->
  CMBStorage.sessions_of (items ∪ st) = ss.
Proof.
  intros H. unfold CMBStorage.sessions_of.
  by rewrite (lookup_union_Some_l items st _ _ H).
Qed.

Lemma sessions_of_untouched (items st : gmap string Value) :
  items !! CMBStorage.SESSIONS_KEY = None ->
  CMBStorage.sessions_of (items ∪ st) = CMBStorage.sessions_of st.
Proof.
  intros H. unfold CMBStorage.sessions_of.
  by rewrite (lookup_union_r items st _ H).
Qed.

(** ** beginSession *)

Lemma next_outcome_cases (w : World) :
  (exists w', next_outcome w = (Ok tt, w') /\ storage w' = storage w
              /\ trace w' = trace w /\ toasts w' = toasts w)
  \/ (exists e w', next_outcome w = (Throw e, w') /\ storage w' = storage w).
Proof.
  unfold next_outcome. destruct (kv_script w) as [|[e|] s]; eauto 10.
Qed.

Lemma chrome_storage_get_cases (ks : list string) (w : World) :
  (exists w', chrome_storage_get ks w = (Ok (filter (fun kv => fst kv ∈ ks) (storage w)), w')
              /\ storage w' = storage w)
  \/ (exists e w', chrome_storage_get ks w = (Throw e, w') /\ storage w' = storage w).
Proof.
  unfold chrome_storage_get, bind, gets.
  destruct (next_outcome_cases w) as [(w' & -> & Hst & _)|(e & w' & -> & Hst)].
  - left. exists w'. by rewrite Hst.
  - right. eauto.
Qed.

Lemma chrome_storage_set_cases (items : gmap string Value) (w : World) :
  (exists w', chrome_storage_set items w = (Ok tt, w') /\ storage w' = items ∪ storage w)
  \/ (exists e w', chrome_storage_set items w = (Throw e, w') /\ storage w' = storage w).
Proof.
  unfold chrome_storage_set, bind, modify.
  destruct (next_outcome_cases w) as [(w' & -> & Hst & _)|(e & w' & -> & Hst)].
  - left. eexists. split; [reflexivity|]. simpl. by rewrite Hst.
  - right. eauto.
Qed.

(** Whether the backend answers or rejects, the record stored under the
    resolved key keeps its markers and its creation time. *)
Lemma beginSession_never_drops_markers
    (h : Host) (u title : string) (key : option string) (w : World) (s : Session) :
  let k := CMBStorage.resolve_key h (clock w) u key in
  JS.get k (CMBStorage.sessions_of (storage w)) = Some s ->
  exists s',
    JS.get k (CMBStorage.sessions_of (storage (snd (CMBStorage.beginSession h u title key w))))
    = Some s'
    /\ markers s' = markers s /\ createdAt s' = createdAt s.
Proof.
  intros k Hget.
  unfold CMBStorage.beginSession, bind, Date_now, gets, attempt.
  destruct (chrome_storage_get_cases [CMBStorage.SESSIONS_KEY; CMBStorage.LAST_ACTIVE_KEY] w)
    as [(w1 & -> & Hst1)|(e & w1 & -> & Hst1)].
  - rewrite sessions_of_filter by (apply list_elem_of_In; by left).
    fold k. rewrite Hget. unfold try_catch, bind, ret.
    match goal with |- context [chrome_storage_set ?items w1] =>
      destruct (chrome_storage_set_cases items w1) as [(w2 & -> & Hst2)|(e & w2 & -> & Hst2)]
    end; simpl.
    + rewrite Hst2. rewrite (sessions_of_written _ _ _ (lookup_insert_eq _ _ _)).
      eexists. split; [apply get_set_eq|]. by simpl.
    + rewrite Hst2, Hst1. eauto.
  - simpl. rewrite Hst1. eauto.
Qed.

(** C4. For a resolved key that names no member of [Object.prototype]:
    whether chrome.storage.local answers or rejects, the record stored
    under the key keeps its markers and its creation time.  When it
    answers, [beginSession] touches that record: markers and creation
    time are kept, [updatedAt] becomes the current time and [url] the given
    one, and the touched record is what is stored and returned; without a
    record it stores and returns a new one with no markers; no other
    record of the collection changes. *)
Theorem beginSession_create_or_touch
    (h : Host) (u title : string) (key : option string) (w : World) :
  let k := CMBStorage.resolve_key h (clock w) u key in
  let ss := CMBStorage.sessions_of (storage w) in
  let r := CMBStorage.beginSession h u title key w in
  let ss' := CMBStorage.sessions_of (storage (snd r)) in
  JS.is_inherited k = false ->
  (forall s, JS.get k ss = Some s ->
     exists s', JS.get k ss' = Some s'
       /\ markers s' = markers s /\ createdAt s' = createdAt s)
  /\ (kv_reliable w ->
  (forall s, JS.get k ss = Some s ->
     exists s', fst r = Ok s' /\ JS.get k ss' = Some s'
       /\ markers s' = markers s /\ createdAt s' = createdAt s
       /\ updatedAt s' = clock w /\ url s' = u)
  /\ (JS.get k ss = None ->
     exists s', fst r = Ok s' /\ JS.get k ss' = Some s' /\ markers s' = [])
  /\ (forall k', k' <> k -> JS.get k' ss' = JS.get k' ss)).
Proof.
  intros k ss r ss' _.
  split; [intros s Hs; by apply beginSession_never_drops_markers|].
  intros Hok. subst r ss'.
  unfold CMBStorage.beginSession, bind, Date_now, gets, attempt.
  rewrite (chrome_storage_get_reliable _ w Hok).
  rewrite sessions_of_filter by (apply list_elem_of_In; by left).
  fold ss. fold k.
  assert (Hitems : forall x, (<[CMBStorage.SESSIONS_KEY := VSessions x]>
            ({[CMBStorage.LAST_ACTIVE_KEY := VString k]} : gmap string Value))
            !! CMBStorage.SESSIONS_KEY = Some (VSessions x))
    by (intros x; apply lookup_insert_eq).
  destruct (JS.get k ss) as [existing|] eqn:Hget;
    unfold try_catch, bind, ret; rewrite (chrome_storage_set_reliable _ w Hok); simpl;
    rewrite (sessions_of_written _ _ _ (Hitems _)).
  - split; [|split].
    + intros s [= <-]. eexists. split; [reflexivity|].
      split; [apply get_set_eq|]. by simpl.
    + done.
    + intros k' Hne. by apply get_set_ne.
  - split; [|split].
    + done.
    + intros _. eexists. split; [reflexivity|]. split; [apply get_set_eq|done].
    + intros k' Hne. by apply get_set_ne.
Qed.

Lemma beginSession_create_or_touch_witness :
  JS.is_inherited "s1" = false
  /\ kv_reliable Examples.crowded
  /\ exists s',
       fst (CMBStorage.beginSession Browser.host "https://www.youtube.com/watch?v=abc"
              "A video" (Some "s1") Examples.crowded) = Ok s'
       /\ markers s' = [Examples.marker "m1" 12] /\ createdAt s' = 100.
Proof.
  split; [reflexivity|]. split; [reflexivity|].
  destruct (beginSession_create_or_touch Browser.host "https://www.youtube.com/watch?v=abc"
              "A video" (Some "s1") Examples.crowded eq_refl) as [_ Hbegin].
  destruct (Hbegin eq_refl) as (Htouch & _ & _).
  destruct (Htouch (Examples.session 100) eq_refl) as (s' & Hr & _ & Hm & Hc & _).
  exists s'. split; [exact Hr|]. split; [exact Hm|exact Hc].
Defined.

(** ** The cascade over a session's screenshots *)

Lemma deleteSessionScreenshots_available (key : string) (w : World) :
  idb_available w = true ->
  CMBScreenshotDB.deleteSessionScreenshots key w
  = (Ok (size (filter (fun kv => shot_sessionKey (snd kv) = key) (screenshots w))),
     cascaded key w).
Proof.
  intros H.
  unfold CMBScreenshotDB.deleteSessionScreenshots, CMBScreenshotDB.initDB, bind, gets, modify, ret.
  by rewrite H.
Qed.

Lemma deleteSessionScreenshots_unavailable (key : string) (w : World) :
  idb_available w = false ->
  CMBScreenshotDB.deleteSessionScreenshots key w
  = (Throw (JsError "IndexedDB open failed"), w).
Proof.
  intros H.
  unfold CMBScreenshotDB.deleteSessionScreenshots, CMBScreenshotDB.initDB, bind.
  by rewrite H.
Qed.

Lemma guarded_cascade_then {A} (key : string) (k : M A) (w : World) :
  (loaded <- gets screenshot_db_loaded ;;
   (when loaded then
      try_catch
        (_ <- CMBScreenshotDB.deleteSessionScreenshots key ;; ret tt)
        (fun _ => ret tt)) ;;;
   k)%js w
  = k (after_cascade key w).
Proof.
  unfold after_cascade, bind, gets, try_catch, ret.
  destruct (screenshot_db_loaded w); simpl; [|done].
  destruct (idb_available w) eqn:E.
  - by rewrite (deleteSessionScreenshots_available key w E).
  - by rewrite (deleteSessionScreenshots_unavailable key w E).
Qed.

Lemma after_cascade_kv (key : string) (w : World) :
  kv_script (after_cascade key w) = kv_script w
  /\ storage (after_cascade key w) = storage w
  /\ toasts (after_cascade key w) = toasts w
  /\ clock (after_cascade key w) = clock w
  /\ screenshot_db_loaded (after_cascade key w) = screenshot_db_loaded w
  /\ idb_available (after_cascade key w) = idb_available w.
Proof.
  unfold after_cascade. by destruct (screenshot_db_loaded w && idb_available w)%bool.
Qed.

Lemma filter_owner_twice (key : string) (shots : gmap string Screenshot) :
  filter (fun kv => shot_sessionKey (snd kv) <> key)
    (filter (fun kv => shot_sessionKey (snd kv) <> key) shots)
  = filter (fun kv => shot_sessionKey (snd kv) <> key) shots.
Proof.
  apply map_filter_id. intros i x Hx.
  apply map_lookup_filter_Some in Hx. tauto.
Qed.

Lemma filter_owner_gone (key : string) (shots : gmap string Screenshot) :
  size (filter (fun kv => shot_sessionKey (snd kv) = key)
          (filter (fun kv => shot_sessionKey (snd kv) <> key) shots)) = 0%nat.
Proof.
  apply map_size_empty_iff, map_empty. intros i.
  apply map_lookup_filter_None. right. intros x Hx Hkey.
  apply map_lookup_filter_Some in Hx. simpl in *. tauto.
Qed.

(** ** deleteSession *)

Lemma deleteSession_reliable (key : string) (w : World) :
  kv_reliable w ->
  CMBStorage.deleteSession key w
  = (Ok tt,
     add_toast ToastSessionDeleted
       (add_effect
          (KvSet {[ CMBStorage.SESSIONS_KEY :=
                      VSessions (JS.delete key (CMBStorage.sessions_of (storage w))) ]})
          (with_storage
             ({[ CMBStorage.SESSIONS_KEY :=
                   VSessions (JS.delete key (CMBStorage.sessions_of (storage w))) ]}
              ∪ storage w)
             (after_cascade key w)))).
Proof.
  intros Hok. unfold CMBStorage.deleteSession. unfold try_catch at 1.
  unfold bind at 1. rewrite (chrome_storage_get_reliable _ w Hok).
  rewrite sessions_of_filter by (apply list_elem_of_In; by left).
  rewrite guarded_cascade_then.
  destruct (after_cascade_kv key w) as (Hs & Hst & _).
  unfold bind. rewrite chrome_storage_set_reliable by (unfold kv_reliable; congruence).
  unfold showToast, modify. by rewrite Hst.
Qed.

Lemma union_same_key (x : Value) (st : gmap string Value) (k : string) :
  ({[ k := x ]} : gmap string Value) ∪ ({[ k := x ]} ∪ st) = {[ k := x ]} ∪ st.
Proof. by rewrite (assoc_L (∪)), (idemp_L (∪)). Qed.

(** C8. With chrome.storage.local answering, deleting a key that has no
    record succeeds and leaves the sessions collection as it was; and a
    second [deleteSession] of the same key, after the first, succeeds,
    changes neither store, and the cascade it runs deletes no
    screenshot. *)
Theorem deleteSession_idempotent (key : string) (w : World) :
  kv_reliable w ->
  let w1 := snd (CMBStorage.deleteSession key w) in
  let r2 := CMBStorage.deleteSession key w1 in
  (JS.get key (CMBStorage.sessions_of (storage w)) = None ->
     fst (CMBStorage.deleteSession key w) = Ok tt
     /\ toasts w1 = toasts w ++ [ToastSessionDeleted]
     /\ CMBStorage.sessions_of (storage w1) = CMBStorage.sessions_of (storage w))
  /\ JS.get key (CMBStorage.sessions_of (storage w1)) = None
  /\ fst r2 = Ok tt
  /\ toasts (snd r2) = toasts w1 ++ [ToastSessionDeleted]
  /\ storage (snd r2) = storage w1
  /\ screenshots (snd r2) = screenshots w1
  /\ exists effects, trace (snd r2) = trace w1 ++ effects
       /\ forall k n, In (IdbDeleteByOwner k n) effects -> n = 0%nat.
Proof.
  intros Hok w1 r2.
  assert (Hw1 : w1 = snd (CMBStorage.deleteSession key w)) by reflexivity.
  rewrite (deleteSession_reliable key w Hok) in Hw1. simpl in Hw1.
  destruct (after_cascade_kv key w) as (Hs & Hst & Hto & _ & Hl & Ha).
  assert (Hok1 : kv_reliable w1) by (rewrite Hw1; unfold kv_reliable; simpl; congruence).
  assert (Hss1 : CMBStorage.sessions_of (storage w1)
                 = JS.delete key (CMBStorage.sessions_of (storage w))).
  { rewrite Hw1. simpl. apply sessions_of_written. apply lookup_singleton_eq. }
  split.
  { intros Hnone. rewrite (deleteSession_reliable key w Hok). simpl.
    split; [done|]. split.
    - rewrite Hw1. simpl. by rewrite Hto.
    - rewrite Hss1. by apply delete_absent. }
  split; [rewrite Hss1; apply get_delete_eq|].
  subst r2. rewrite (deleteSession_reliable key w1 Hok1). simpl.
  destruct (after_cascade_kv key w1) as (_ & Hst1 & Hto1 & _).
  split; [done|]. split; [by rewrite Hto1|].
  rewrite Hss1, (delete_absent key (JS.delete key _) (get_delete_eq key _)).
  split.
  { rewrite Hw1. simpl. apply union_same_key. }
  assert (Hl1 : screenshot_db_loaded w1 = screenshot_db_loaded w)
    by (rewrite Hw1; simpl; exact Hl).
  assert (Ha1 : idb_available w1 = idb_available w)
    by (rewrite Hw1; simpl; exact Ha).
  assert (Hsh1 : screenshots w1 = screenshots (after_cascade key w))
    by (rewrite Hw1; reflexivity).
  unfold after_cascade at 1 2. rewrite Hl1, Ha1.
  destruct (screenshot_db_loaded w && idb_available w)%bool eqn:E.
  - assert (Hgone : screenshots w1
                    = filter (fun kv => shot_sessionKey (snd kv) <> key) (screenshots w)).
    { rewrite Hsh1. unfold after_cascade. by rewrite E. }
    split.
    + simpl. rewrite Hgone. apply filter_owner_twice.
    + eexists. split; [simpl; rewrite <- app_assoc; reflexivity|].
      intros k n [Heq|[Heq|[]]]; [|discriminate].
      injection Heq as _ <-. rewrite Hgone. apply filter_owner_gone.
  - split; [reflexivity|].
    eexists. split; [simpl; reflexivity|].
    intros k n [Heq|[]]. discriminate.
Qed.

Lemma deleteSession_idempotent_witness :
  kv_reliable Examples.crowded
  /\ JS.get "s1" (CMBStorage.sessions_of (storage Examples.crowded)) = Some (Examples.session 100)
  /\ storage (snd (CMBStorage.deleteSession "s1" (snd (CMBStorage.deleteSession "s1" Examples.crowded))))
     = storage (snd (CMBStorage.deleteSession "s1" Examples.crowded))
  /\ screenshots (snd (CMBStorage.deleteSession "s1" (snd (CMBStorage.deleteSession "s1" Examples.crowded))))
     = screenshots (snd (CMBStorage.deleteSession "s1" Examples.crowded)).
Proof.
  split; [reflexivity|]. split; [reflexivity|].
  destruct (deleteSession_idempotent "s1" Examples.crowded eq_refl)
    as (_ & _ & _ & _ & Hst & Hsh & _).
  split; [exact Hst|exact Hsh].
Defined.

(** ** progressiveCleanup *)

Lemma cleanupOldScreenshots_available (maxAgeMs : Z) (w : World) :
  idb_available w = true ->
  CMBScreenshotDB.cleanupOldScreenshots maxAgeMs w
  = (Ok (size (filter (fun kv => shot_createdAt (snd kv) <= clock w - maxAgeMs) (screenshots w))),
     aged_out maxAgeMs w).
Proof.
  intros H.
  unfold CMBScreenshotDB.cleanupOldScreenshots, CMBScreenshotDB.initDB, bind, Date_now, gets, modify, ret.
  by rewrite H.
Qed.

Lemma getSettings_reliable (w : World) :
  kv_reliable w -> CMBStorage.getSettings w = (Ok (settings_of (storage w)), w).
Proof.
  intros H. unfold CMBStorage.getSettings, try_catch, bind, ret.
  rewrite (chrome_storage_get_reliable _ w H). unfold settings_of.
  destruct (storage w !! CMBStorage.SETTINGS_KEY) as [v|] eqn:E.
  - assert (filter (fun kv => fst kv ∈ [CMBStorage.SETTINGS_KEY]) (storage w)
            !! CMBStorage.SETTINGS_KEY = Some v) as ->; [|done].
    apply map_lookup_filter_Some. split; [done|]. apply list_elem_of_In. by left.
  - assert (filter (fun kv => fst kv ∈ [CMBStorage.SETTINGS_KEY]) (storage w)
            !! CMBStorage.SETTINGS_KEY = None) as ->; [|done].
    apply map_lookup_filter_None. by left.
Qed.

Lemma saveSettings_reliable (s : Settings) (w : World) :
  kv_reliable w ->
  CMBStorage.saveSettings s w
  = (Ok tt,
     add_effect (KvSet {[ CMBStorage.SETTINGS_KEY := VSettings s ]})
       (with_storage ({[ CMBStorage.SETTINGS_KEY := VSettings s ]} ∪ storage w) w)).
Proof.
  intros H. unfold CMBStorage.saveSettings, try_catch.
  by rewrite (chrome_storage_set_reliable _ w H).
Qed.

Lemma In_without (dels ss : JS.Obj Session) (k : string) (s : Session) :
  In (k, s) (without dels ss) <-> In (k, s) ss /\ ~ In k (JS.keys dels).
Proof.
  unfold without. revert ss. induction dels as [|[k0 s0] dels IH]; intros ss; simpl.
  - tauto.
  - rewrite IH, In_delete. intuition congruence.
Qed.

Lemma sessions_swept_kv (w0 w : World) :
  kv_script (sessions_swept w0 w) = kv_script w
  /\ clock (sessions_swept w0 w) = clock w
  /\ screenshots (sessions_swept w0 w) = screenshots w.
Proof. unfold sessions_swept. by destruct (aged_sessions _ _). Qed.

(** The sweep, when chrome.storage.local answers: the screenshots step has
    left [wb], then come the sessions and the settings. *)
Lemma progressiveCleanup_rest (cleaned0 : nat) (w wb : World) :
  kv_reliable wb -> storage wb = storage w -> clock wb = clock w ->
  (storage <- chrome_storage_get [CMBStorage.SESSIONS_KEY] ;;
   let sessions := CMBStorage.sessions_of storage in
   now <- Date_now ;;
   let oldSessionCutoff := now - 90 * CMBStorage.DAY_MS in
   let sessionsToDelete :=
     List.filter (fun entry => CMBStorage.session_stamp (snd entry) <? oldSessionCutoff) sessions in
   let sessions' :=
     List.fold_left (fun o entry => JS.delete (fst entry) o) sessionsToDelete sessions in
   let cleanedCount := (cleaned0 + length sessionsToDelete)%nat in
   (when (0 <? length sessionsToDelete)%nat then
      chrome_storage_set {[ CMBStorage.SESSIONS_KEY := VSessions sessions' ]}) ;;;
   settings <- CMBStorage.getSettings ;;
   now' <- Date_now ;;
   CMBStorage.saveSettings (CMBStorage.set_lastCleanup now' settings) ;;;
   ret cleanedCount)%js wb
  = (Ok (Nat.add cleaned0
           (length (aged_sessions (clock w - 90 * CMBStorage.DAY_MS)
                      (CMBStorage.sessions_of (storage w))))),
     stamped (sessions_swept w wb)).
Proof.
  intros Hok Hst Hclock.
  unfold bind at 1. rewrite (chrome_storage_get_reliable _ wb Hok).
  rewrite sessions_of_filter by (apply list_elem_of_In; by left).
  unfold bind at 1. unfold Date_now at 1. unfold gets at 1. cbv zeta.
  rewrite Hst, Hclock.
  fold (aged_sessions (clock w - 90 * CMBStorage.DAY_MS) (CMBStorage.sessions_of (storage w))).
  fold (without (aged_sessions (clock w - 90 * CMBStorage.DAY_MS) (CMBStorage.sessions_of (storage w)))
          (CMBStorage.sessions_of (storage w))).
  assert (Hsw : (when (0 <? length (aged_sessions (clock w - 90 * CMBStorage.DAY_MS)
                                      (CMBStorage.sessions_of (storage w))))%nat
                 then chrome_storage_set
                        {[ CMBStorage.SESSIONS_KEY :=
                             VSessions (without (aged_sessions (clock w - 90 * CMBStorage.DAY_MS)
                                                   (CMBStorage.sessions_of (storage w)))
                                          (CMBStorage.sessions_of (storage w))) ]})%js wb
                = (Ok tt, sessions_swept w wb)).
  { unfold sessions_swept.
    destruct (aged_sessions _ _) as [|e dels] eqn:E; simpl; [done|].
    by rewrite (chrome_storage_set_reliable _ wb Hok). }
  unfold bind at 1. rewrite Hsw.
  destruct (sessions_swept_kv w wb) as (Hs & Hc & _).
  assert (Hok' : kv_reliable (sessions_swept w wb)) by (unfold kv_reliable; congruence).
  unfold bind at 1. rewrite (getSettings_reliable _ Hok').
  unfold bind at 1. unfold Date_now, gets.
  unfold bind. rewrite (saveSettings_reliable _ _ Hok').
  reflexivity.
Qed.

Lemma progressiveCleanup_fault_free (w : World) :
  kv_reliable w -> screenshot_db_loaded w = true -> idb_available w = true ->
  CMBStorage.progressiveCleanup w
  = (Ok (Nat.add
           (size (filter (fun kv => shot_createdAt (snd kv) <= clock w - 30 * CMBStorage.DAY_MS)
                    (screenshots w)))
           (length (aged_sessions (clock w - 90 * CMBStorage.DAY_MS)
                      (CMBStorage.sessions_of (storage w))))),
     stamped (sessions_swept w (aged_out (30 * CMBStorage.DAY_MS) w))).
Proof.
  intros Hok Hl Ha. unfold CMBStorage.progressiveCleanup. unfold try_catch at 1.
  unfold bind at 1. unfold gets at 1. rewrite Hl.
  unfold bind at 1. unfold try_catch at 1.
  rewrite (cleanupOldScreenshots_available _ w Ha).
  rewrite (progressiveCleanup_rest _ w (aged_out (30 * CMBStorage.DAY_MS) w)); done.
Qed.

Lemma cleanupOldScreenshots_unavailable (maxAgeMs : Z) (w : World) :
  idb_available w = false ->
  CMBScreenshotDB.cleanupOldScreenshots maxAgeMs w
  = (Throw (JsError "IndexedDB open failed"), w).
Proof.
  intros H. unfold CMBScreenshotDB.cleanupOldScreenshots, CMBScreenshotDB.initDB, bind.
  by rewrite H.
Qed.
(** ** The order of the sweep, whatever the backend does *)

Lemma kv_only_ret {A} (a : A) : kv_only (ret a).
Proof. intros w. exists []. by rewrite app_nil_r. Qed.

Lemma kv_only_gets {A} (f : World -> A) : kv_only (gets f).
Proof. intros w. exists []. by rewrite app_nil_r. Qed.

Lemma kv_only_bind {A B} (m : M A) (k : A -> M B) :
  kv_only m -> (forall a, kv_only (k a)) -> kv_only (bind m k).
Proof.
  intros Hm Hk w. unfold bind. destruct (Hm w) as (post1 & H1 & F1).
  destruct (m w) as [[a|e] w1]; simpl in *.
  - destruct (Hk a w1) as (post2 & H2 & F2).
    exists (post1 ++ post2). rewrite H2, H1, app_assoc. split; [done|].
    by apply Forall_app.
  - by exists post1.
Qed.

Lemma kv_only_try_catch {A} (m : M A) (hd : Error -> M A) :
  kv_only m -> (forall e, kv_only (hd e)) -> kv_only (try_catch m hd).
Proof.
  intros Hm Hh w. unfold try_catch. destruct (Hm w) as (post1 & H1 & F1).
  destruct (m w) as [[a|e] w1]; simpl in *.
  - by exists post1.
  - destruct (Hh e w1) as (post2 & H2 & F2).
    exists (post1 ++ post2). rewrite H2, H1, app_assoc. split; [done|].
    by apply Forall_app.
Qed.

Lemma kv_only_next_outcome : kv_only next_outcome.
Proof.
  intros w. exists []. rewrite app_nil_r. split; [|done].
  unfold next_outcome. by destruct (kv_script w) as [|[e|] s].
Qed.

Lemma kv_only_get (ks : list string) : kv_only (chrome_storage_get ks).
Proof.
  apply kv_only_bind; [apply kv_only_next_outcome|]. intros _. apply kv_only_gets.
Qed.

Lemma kv_only_set (items : gmap string Value) : kv_only (chrome_storage_set items).
Proof.
  apply kv_only_bind; [apply kv_only_next_outcome|]. intros _ w.
  exists [KvSet items]. split; [reflexivity|]. by repeat constructor.
Qed.

Lemma kv_only_getSettings : kv_only CMBStorage.getSettings.
Proof.
  apply kv_only_try_catch; [|intros; apply kv_only_ret].
  apply kv_only_bind; [apply kv_only_get|]. intros; apply kv_only_ret.
Qed.

Lemma kv_only_saveSettings (s : Settings) : kv_only (CMBStorage.saveSettings s).
Proof. apply kv_only_try_catch; [apply kv_only_set|intros; apply kv_only_ret]. Qed.

(** The screenshots step performs the deletion by age or nothing, and
    leaves the clock alone. *)
Lemma cleanupOldScreenshots_trace (maxAgeMs : Z) (w : World) :
  clock (snd (CMBScreenshotDB.cleanupOldScreenshots maxAgeMs w)) = clock w
  /\ exists pre, trace (snd (CMBScreenshotDB.cleanupOldScreenshots maxAgeMs w)) = trace w ++ pre
       /\ (pre = [] \/ exists n, pre = [IdbDeleteOlder (clock w - maxAgeMs) n]).
Proof.
  destruct (idb_available w) eqn:Ha.
  - rewrite (cleanupOldScreenshots_available _ w Ha). simpl. split; [done|].
    eexists. split; [reflexivity|]. right. eauto.
  - rewrite (cleanupOldScreenshots_unavailable _ w Ha). simpl. split; [done|].
    exists []. rewrite app_nil_r. split; [done|]. by left.
Qed.

(** A screenshots step, then code that only writes to chrome.storage.local,
    inside a [try] whose handler only writes there as well. *)
Lemma sweep_shape {A} (cutoff : World -> Z) (blob : bool -> M nat) (rest : nat -> M A)
    (hd : Error -> M A) (w : World) :
  (forall b, exists c pre w1,
      blob b w = (Ok c, w1) /\ trace w1 = trace w ++ pre
      /\ (pre = [] \/ exists n, pre = [IdbDeleteOlder (cutoff w) n])) ->
  (forall c, kv_only (rest c)) ->
  (forall e, kv_only (hd e)) ->
  exists pre post,
    trace (snd (try_catch
                  (bind (gets screenshot_db_loaded) (fun loaded => bind (blob loaded) rest))
                  hd w))
    = trace w ++ pre ++ post
    /\ (pre = [] \/ exists n, pre = [IdbDeleteOlder (cutoff w) n])
    /\ Forall is_KvSet post.
Proof.
  intros Hblob Hrest Hhd.
  destruct (Hblob (screenshot_db_loaded w)) as (c & pre & w1 & Hb & Ht & Hpre).
  unfold try_catch, bind, gets. rewrite Hb.
  destruct (Hrest c w1) as (post1 & H1 & F1).
  destruct (rest c w1) as [[n|e] w2]; simpl in *.
  - exists pre, post1. by rewrite H1, Ht, app_assoc.
  - destruct (Hhd e w2) as (post2 & H2 & F2).
    exists pre, (post1 ++ post2). rewrite H2, H1, Ht, !app_assoc.
    split; [done|]. split; [done|]. by apply Forall_app.
Qed.

Lemma progressiveCleanup_order (w : World) :
  exists pre post,
    trace (snd (CMBStorage.progressiveCleanup w)) = trace w ++ pre ++ post
    /\ (pre = [] \/ exists n, pre = [IdbDeleteOlder (clock w - 30 * CMBStorage.DAY_MS) n])
    /\ Forall is_KvSet post.
Proof.
  unfold CMBStorage.progressiveCleanup.
  apply (sweep_shape (fun w => clock w - 30 * CMBStorage.DAY_MS)).
  - intros [|].
    + unfold try_catch.
      destruct (cleanupOldScreenshots_trace (30 * CMBStorage.DAY_MS) w) as (_ & pre & Ht & Hpre).
      destruct (CMBScreenshotDB.cleanupOldScreenshots _ w) as [[c|e] w1]; simpl in *; eauto 10.
    + exists 0%nat, [], w. rewrite app_nil_r. split; [done|]. split; [done|]. by left.
  - intros c.
    apply kv_only_bind; [apply kv_only_get|]. intros st.
    apply kv_only_bind; [apply kv_only_gets|]. intros now. cbv zeta.
    apply kv_only_bind.
    { destruct (0 <? _)%nat; [apply kv_only_set|apply kv_only_ret]. }
    intros _. apply kv_only_bind; [apply kv_only_getSettings|]. intros s.
    apply kv_only_bind; [apply kv_only_gets|]. intros now'.
    apply kv_only_bind; [apply kv_only_saveSettings|]. intros _. apply kv_only_ret.
  - intros e. apply kv_only_ret.
Qed.

(** C6. In every sweep, whatever the backends do, the deletion of the aged
    screenshots, when it takes place, is the first backend operation, and
    every write to chrome.storage.local, the one that removes the aged
    sessions included, comes after it.  In a sweep without faults both
    take place in that order, and afterwards every screenshot was created
    less than 30 days ago and every session is stamped
    ([updatedAt || createdAt || 0]) at most 90 days ago, so every session
    that carries an [updatedAt] was updated at most 90 days ago; younger
    screenshots are all still there, and no session was added or
    altered. *)
Theorem progressiveCleanup_sweep (w : World) :
  let w' := snd (CMBStorage.progressiveCleanup w) in
  let blobCutoff := clock w - 30 * CMBStorage.DAY_MS in
  let sessionCutoff := clock w - 90 * CMBStorage.DAY_MS in
  (exists pre post,
      trace w' = trace w ++ pre ++ post
      /\ (pre = [] \/ exists n, pre = [IdbDeleteOlder blobCutoff n])
      /\ Forall is_KvSet post)
  /\ (kv_reliable w -> screenshot_db_loaded w = true -> idb_available w = true ->
  (exists n writes,
      trace w' = trace w ++ IdbDeleteOlder blobCutoff n :: List.map KvSet writes
      /\ (aged_sessions sessionCutoff (CMBStorage.sessions_of (storage w)) <> [] ->
          exists ss, In ({[ CMBStorage.SESSIONS_KEY := VSessions ss ]} : gmap string Value) writes))
  /\ (forall id b, screenshots w' !! id = Some b -> blobCutoff < shot_createdAt b)
  /\ (forall k s, In (k, s) (CMBStorage.sessions_of (storage w')) ->
        sessionCutoff <= CMBStorage.session_stamp s
        /\ (updatedAt s <> 0 -> sessionCutoff <= updatedAt s))
  /\ (forall id b, screenshots w !! id = Some b -> blobCutoff < shot_createdAt b ->
        screenshots w' !! id = Some b)
  /\ (forall k s, In (k, s) (CMBStorage.sessions_of (storage w')) ->
        In (k, s) (CMBStorage.sessions_of (storage w)))).
Proof.
  intros w' blobCutoff sessionCutoff. split; [apply progressiveCleanup_order|].
  intros Hok Hl Ha. subst w'.
  rewrite (progressiveCleanup_fault_free w Hok Hl Ha). simpl snd.
  set (ss := CMBStorage.sessions_of (storage w)).
  set (dels := aged_sessions sessionCutoff ss).
  assert (Hshots : screenshots (stamped (sessions_swept w (aged_out (30 * CMBStorage.DAY_MS) w)))
                   = filter (fun kv => ~ shot_createdAt (snd kv) <= blobCutoff) (screenshots w)).
  { unfold stamped. simpl.
    destruct (sessions_swept_kv w (aged_out (30 * CMBStorage.DAY_MS) w)) as (_ & _ & ->).
    reflexivity. }
  assert (Hsess : CMBStorage.sessions_of
                    (storage (stamped (sessions_swept w (aged_out (30 * CMBStorage.DAY_MS) w))))
                  = without dels ss).
  { unfold stamped. simpl.
    rewrite sessions_of_untouched
      by (apply lookup_singleton_ne; intros E; symmetry in E; by apply sessions_key_ne_settings).
    unfold sessions_swept. fold ss. fold sessionCutoff. fold dels.
    destruct dels as [|e dels'] eqn:E.
    - reflexivity.
    - simpl. apply sessions_of_written, lookup_singleton_eq. }
  split; [|split; [|split; [|split]]].
  - unfold stamped, sessions_swept. fold ss. fold sessionCutoff. fold dels.
    destruct dels as [|e dels'] eqn:E.
    + simpl. rewrite <- !app_assoc. simpl.
      eexists _, [_]. split; [reflexivity|]. intros Hne. by destruct Hne.
    + simpl. rewrite <- !app_assoc. simpl.
      eexists _, [_; _]. split; [reflexivity|]. intros _. eexists. left. reflexivity.
  - intros id b. rewrite Hshots. intros Hb.
    apply map_lookup_filter_Some in Hb. simpl in Hb. lia.
  - intros k s. rewrite Hsess. intros Hin.
    apply In_without in Hin. destruct Hin as [Hin Hnot].
    assert (Hyoung : sessionCutoff <= CMBStorage.session_stamp s).
    { destruct (Z.ltb_spec (CMBStorage.session_stamp s) sessionCutoff) as [Hold|Hyoung]; [|done].
      exfalso. apply Hnot. unfold JS.keys. apply in_map_iff. exists (k, s). split; [done|].
      unfold dels, aged_sessions. apply filter_In. split; [done|]. simpl.
      by apply Z.ltb_lt. }
    split; [exact Hyoung|]. intros Hstamp.
    revert Hyoung. unfold CMBStorage.session_stamp, JS.or_num.
    destruct (Z.eqb_spec (updatedAt s) 0) as [E|_]; [done|].
    destruct (Z.eqb_spec (updatedAt s) 0); [done|]. done.
  - intros id b Hb Hyoung. rewrite Hshots.
    apply map_lookup_filter_Some. split; [done|]. simpl. lia.
  - intros k s. rewrite Hsess. intros Hin. by apply In_without in Hin as [Hin _].
Qed.

Lemma progressiveCleanup_sweep_witness :
  kv_reliable Examples.aged
  /\ screenshot_db_loaded Examples.aged = true
  /\ idb_available Examples.aged = true
  /\ (forall id b,
        screenshots (snd (CMBStorage.progressiveCleanup Examples.aged)) !! id = Some b ->
        clock Examples.aged - 30 * CMBStorage.DAY_MS < shot_createdAt b)
  /\ (forall k s,
        In (k, s) (CMBStorage.sessions_of (storage (snd (CMBStorage.progressiveCleanup Examples.aged)))) ->
        updatedAt s <> 0 -> clock Examples.aged - 90 * CMBStorage.DAY_MS <= updatedAt s).
Proof.
  split; [reflexivity|]. split; [reflexivity|]. split; [reflexivity|].
  destruct (progressiveCleanup_sweep Examples.aged) as [_ Hsweep].
  destruct (Hsweep eq_refl eq_refl eq_refl) as (_ & Hshots & Hsess & _).
  split; [exact Hshots|]. intros k s Hin. by apply (Hsess k s Hin).
Defined.

(** ** Sorting by [updatedAt] *)

Lemma or_num_0 (a : Z) : JS.or_num a 0 = a.
Proof. unfold JS.or_num. by destruct (Z.eqb_spec a 0). Qed.

Lemma insert_sorted_Permutation {A} (cmp : A -> A -> Z) (x : A) (l : list A) :
  Permutation (JS.insert_sorted cmp x l) (x :: l).
Proof.
  induction l as [|y l IH]; simpl; [done|].
  destruct (cmp x y <=? 0); [done|].
  rewrite IH. apply perm_swap.
Qed.

Lemma sort_Permutation {A} (cmp : A -> A -> Z) (l : list A) :
  Permutation (JS.sort cmp l) l.
Proof.
  induction l as [|x l IH]; simpl; [done|].
  fold (JS.sort cmp l). rewrite insert_sorted_Permutation. by constructor.
Qed.

Lemma insert_sorted_fresher (x : string * Session) (l : JS.Obj Session) :
  StronglySorted fresher l ->
  StronglySorted fresher (JS.insert_sorted CMBStorage.by_updatedAt_desc x l).
Proof.
  induction 1 as [|y l Hl IH Hy]; simpl.
  - repeat constructor.
  - unfold CMBStorage.by_updatedAt_desc at 1. rewrite !or_num_0.
    destruct (Z.leb_spec (updatedAt (snd y) - updatedAt (snd x)) 0) as [Hle|Hgt].
    + constructor; [by constructor|].
      constructor; [unfold fresher; lia|].
      eapply Forall_impl; [exact Hy|]. unfold fresher. intros z Hz. lia.
    + constructor; [exact IH|].
      rewrite (insert_sorted_Permutation CMBStorage.by_updatedAt_desc x l).
      constructor; [unfold fresher; lia|exact Hy].
Qed.

Lemma sort_fresher (l : JS.Obj Session) :
  StronglySorted fresher (JS.sort CMBStorage.by_updatedAt_desc l).
Proof.
  induction l as [|x l IH]; simpl; [constructor|].
  by apply insert_sorted_fresher.
Qed.

Lemma StronglySorted_app_cross {A} (R : A -> A -> Prop) (l1 l2 : list A) :
  StronglySorted R (l1 ++ l2) ->
  forall a b, In a l1 -> In b l2 -> R a b.
Proof.
  induction l1 as [|x l1 IH]; simpl; [done|].
  intros Hs a b [<-|Ha] Hb.
  - apply StronglySorted_inv in Hs as [_ Hall].
    rewrite Forall_forall in Hall. apply Hall, list_elem_of_In, in_or_app. by right.
  - apply StronglySorted_inv in Hs as [Hs _]. by apply IH.
Qed.

(** ** cleanupOldSessions *)

Lemma cleanup_loop (vs ss : JS.Obj Session) (w : World) :
  for_of_var vs ss
    (fun entry sessions =>
       let key := fst entry in
       loaded <- gets screenshot_db_loaded ;;
       (when loaded then
          try_catch
            (_ <- CMBScreenshotDB.deleteSessionScreenshots key ;; ret tt)
            (fun _ => ret tt)) ;;;
       ret (JS.delete key sessions))%js w
  = (Ok (without vs ss), cascade_all vs w).
Proof.
  revert ss w. induction vs as [|e vs IH]; intros ss w; simpl; [done|].
  unfold bind at 1. rewrite guarded_cascade_then. unfold ret at 1.
  apply IH.
Qed.

Lemma cascade_all_kv (vs : JS.Obj Session) (w : World) :
  kv_script (cascade_all vs w) = kv_script w
  /\ storage (cascade_all vs w) = storage w
  /\ toasts (cascade_all vs w) = toasts w
  /\ screenshot_db_loaded (cascade_all vs w) = screenshot_db_loaded w
  /\ idb_available (cascade_all vs w) = idb_available w.
Proof.
  revert w. induction vs as [|e vs IH]; intros w; simpl; [done|].
  destruct (IH (after_cascade (fst e) w)) as (-> & -> & -> & -> & ->).
  destruct (after_cascade_kv (fst e) w) as (-> & -> & -> & _ & -> & ->). done.
Qed.

Lemma cascade_all_shots (vs : JS.Obj Session) (w : World) (id : string) (b : Screenshot) :
  screenshot_db_loaded w = true -> idb_available w = true ->
  screenshots (cascade_all vs w) !! id = Some b
  <-> screenshots w !! id = Some b /\ ~ In (shot_sessionKey b) (JS.keys vs).
Proof.
  revert w. induction vs as [|e vs IH]; intros w Hl Ha; simpl; [tauto|].
  destruct (after_cascade_kv (fst e) w) as (_ & _ & _ & _ & Hl' & Ha').
  rewrite IH by congruence.
  unfold after_cascade. rewrite Hl, Ha. simpl.
  rewrite map_lookup_filter_Some. simpl. intuition congruence.
Qed.

Lemma cascade_all_offline (vs : JS.Obj Session) (w : World) :
  (screenshot_db_loaded w && idb_available w)%bool = false ->
  cascade_all vs w = w.
Proof.
  intros H. induction vs as [|e vs IH]; simpl; [done|].
  unfold after_cascade at 1. by rewrite H.
Qed.

Lemma cleanupOldSessions_reliable (w : World) :
  kv_reliable w ->
  let ss := CMBStorage.sessions_of (storage w) in
  CMBStorage.cleanupOldSessions w
  = (Ok tt,
     if (length ss <=? 5)%nat then w
     else
       add_toast (ToastCleanedUp (length (victims ss)))
         (add_effect (KvSet {[ CMBStorage.SESSIONS_KEY := VSessions (without (victims ss) ss) ]})
            (with_storage
               ({[ CMBStorage.SESSIONS_KEY := VSessions (without (victims ss) ss) ]} ∪ storage w)
               (cascade_all (victims ss) w)))).
Proof.
  intros Hok ss. unfold CMBStorage.cleanupOldSessions. unfold try_catch at 1.
  unfold bind at 1. rewrite (chrome_storage_get_reliable _ w Hok).
  rewrite sessions_of_filter by (apply list_elem_of_In; by left).
  fold ss. unfold JS.keys. rewrite length_map.
  destruct (length ss <=? 5)%nat; [done|].
  unfold bind at 1. fold (victims ss). rewrite cleanup_loop.
  destruct (cascade_all_kv (victims ss) w) as (Hs & Hst & _).
  unfold bind. rewrite chrome_storage_set_reliable by (unfold kv_reliable; congruence).
  unfold showToast, modify. by rewrite Hst.
Qed.

Lemma sorted_split (ss : JS.Obj Session) :
  JS.sort CMBStorage.by_updatedAt_desc ss = keepers ss ++ victims ss.
Proof. unfold keepers, victims, JS.slice_from. symmetry. apply firstn_skipn. Qed.

Lemma In_sorted (ss : JS.Obj Session) (e : string * Session) :
  In e ss <-> In e (keepers ss) \/ In e (victims ss).
Proof.
  rewrite <- in_app_iff, <- sorted_split.
  split; apply Permutation_in; [symmetry|]; apply sort_Permutation.
Qed.

Lemma NoDup_app_disjoint {A} (l1 l2 : list A) (a : A) :
  List.NoDup (l1 ++ l2) -> In a l1 -> ~ In a l2.
Proof.
  intros H H1 H2. apply NoDup_ListNoDup, NoDup_app in H as (_ & Hdisj & _).
  apply (Hdisj a); by apply list_elem_of_In.
Qed.

Lemma keepers_victims_disjoint (ss : JS.Obj Session) (k : string) :
  List.NoDup (JS.keys ss) -> In k (JS.keys (keepers ss)) -> ~ In k (JS.keys (victims ss)).
Proof.
  intros Hnd Hk Hv.
  assert (Hnd' : List.NoDup (JS.keys (keepers ss) ++ JS.keys (victims ss))).
  { unfold JS.keys. rewrite <- map_app, <- sorted_split.
    eapply Permutation_NoDup; [|exact Hnd].
    apply Permutation_map. symmetry. apply sort_Permutation. }
  by apply (NoDup_app_disjoint _ _ k Hnd').
Qed.

Lemma kept_iff (ss : JS.Obj Session) (k : string) (s : Session) :
  List.NoDup (JS.keys ss) ->
  In (k, s) (without (victims ss) ss) <-> In (k, s) (keepers ss).
Proof.
  intros Hnd. rewrite In_without. split.
  - intros [Hin Hnot]. apply In_sorted in Hin as [Hin|Hin]; [done|].
    exfalso. apply Hnot. unfold JS.keys. apply in_map_iff. by exists (k, s).
  - intros Hin. split; [apply In_sorted; by left|].
    apply keepers_victims_disjoint; [done|].
    unfold JS.keys. apply in_map_iff. by exists (k, s).
Qed.

Lemma NoDup_without (vs ss : JS.Obj Session) :
  List.NoDup ss -> List.NoDup (without vs ss).
Proof.
  unfold without. revert ss. induction vs as [|e vs IH]; intros ss Hnd; simpl; [done|].
  apply IH. unfold JS.delete. by apply List.NoDup_filter.
Qed.

Lemma NoDup_entries (ss : JS.Obj Session) : List.NoDup (JS.keys ss) -> List.NoDup ss.
Proof. unfold JS.keys. apply NoDup_map_inv. Qed.

Lemma length_kept (ss : JS.Obj Session) :
  List.NoDup (JS.keys ss) -> (5 < length ss)%nat ->
  length (without (victims ss) ss) = 5%nat.
Proof.
  intros Hnd Hlen.
  assert (Hk : length (keepers ss) = 5%nat).
  { unfold keepers. apply firstn_length_le.
    rewrite (Permutation_length (sort_Permutation _ ss)). lia. }
  rewrite <- Hk. apply Permutation_length, Permutation.NoDup_Permutation.
  - by apply NoDup_without, NoDup_entries.
  - assert (Hs : List.NoDup (keepers ss ++ victims ss)).
    { rewrite <- sorted_split. eapply Permutation_NoDup; [|by apply NoDup_entries].
      symmetry. apply sort_Permutation. }
    by apply NoDup_app_remove_r in Hs.
  - intros [k s]. by apply kept_iff.
Qed.

Lemma cleanup_retains_most_recent (ss : JS.Obj Session) :
  List.NoDup (JS.keys ss) ->
  retains_most_recent 5 ss (if (length ss <=? 5)%nat then ss else without (victims ss) ss).
Proof.
  intros Hnd. unfold retains_most_recent.
  destruct (Nat.leb_spec (length ss) 5) as [Hle|Hgt]; [by left|right].
  split; [done|]. split; [by apply length_kept|]. split.
  - intros k s Hin. by apply In_without in Hin as [? _].
  - intros k s k' s' Hin Hin' Hgone.
    apply (kept_iff ss k s Hnd) in Hin.
    apply In_sorted in Hin' as [Hin'|Hin'].
    + exfalso. apply Hgone. unfold JS.keys. apply in_map_iff. exists (k', s').
      split; [done|]. by apply kept_iff.
    + apply (StronglySorted_app_cross fresher (keepers ss) (victims ss)
               ltac:(rewrite <- sorted_split; apply sort_fresher) (k, s) (k', s') Hin Hin').
Qed.

(** What the eviction leaves in the two stores. *)
Lemma cleanupOldSessions_sessions (w : World) :
  kv_reliable w ->
  let ss := CMBStorage.sessions_of (storage w) in
  CMBStorage.sessions_of (storage (snd (CMBStorage.cleanupOldSessions w)))
  = if (length ss <=? 5)%nat then ss else without (victims ss) ss.
Proof.
  intros Hok ss. rewrite (cleanupOldSessions_reliable w Hok). cbn [snd]. fold ss.
  destruct (length ss <=? 5)%nat; [reflexivity|].
  simpl. apply sessions_of_written, lookup_singleton_eq.
Qed.

Lemma cleanupOldSessions_no_orphans (w : World) :
  kv_reliable w -> screenshot_db_loaded w = true -> idb_available w = true ->
  let w' := snd (CMBStorage.cleanupOldSessions w) in
  no_orphaned_screenshots (CMBStorage.sessions_of (storage w))
    (CMBStorage.sessions_of (storage w')) (screenshots w').
Proof.
  intros Hok Hl Ha w'. subst w'. unfold no_orphaned_screenshots.
  rewrite (cleanupOldSessions_sessions w Hok). cbv zeta.
  rewrite (cleanupOldSessions_reliable w Hok). cbn [snd].
  set (ss := CMBStorage.sessions_of (storage w)) in *.
  destruct (length ss <=? 5)%nat; [tauto|].
  intros k Hk Hgone id b Hb Hown. simpl in Hb.
  apply (cascade_all_shots (victims ss) w id b Hl Ha) in Hb as [_ Hnot].
  apply Hnot. rewrite Hown.
  destruct (in_dec String.string_dec k (JS.keys (victims ss))) as [Hin|Hout]; [done|].
  exfalso. apply Hgone.
  unfold JS.keys in Hk. apply in_map_iff in Hk as ([k0 s] & Hk0 & Hin). simpl in Hk0. subst k0.
  unfold JS.keys. apply in_map_iff. exists (k, s). split; [done|].
  by apply In_without.
Qed.

Lemma cleanupOldSessions_offline (w : World) :
  kv_reliable w -> (screenshot_db_loaded w && idb_available w)%bool = false ->
  screenshots (snd (CMBStorage.cleanupOldSessions w)) = screenshots w.
Proof.
  intros Hok Hoff. rewrite (cleanupOldSessions_reliable w Hok). cbn [snd].
  destruct (_ <=? 5)%nat; [reflexivity|].
  simpl. by rewrite (cascade_all_offline _ w Hoff).
Qed.

(** The eviction takes no toast back. *)
Lemma cleanupOldSessions_toasts (w : World) :
  kv_reliable w ->
  exists shown, toasts (snd (CMBStorage.cleanupOldSessions w)) = toasts w ++ shown.
Proof.
  intros Hok. rewrite (cleanupOldSessions_reliable w Hok). cbn [snd].
  destruct (_ <=? 5)%nat; [exists []; by rewrite app_nil_r|].
  eexists [_]. cbn [toasts add_toast add_effect with_storage].
  by destruct (cascade_all_kv (victims (CMBStorage.sessions_of (storage w))) w)
    as (_ & _ & -> & _).
Qed.

(** C2.  With chrome.storage.local answering, [cleanupOldSessions] leaves
    five or fewer sessions as they are; of more than five it keeps five,
    unchanged, and none of those it deletes was updated after one it keeps.
    When CMBScreenshotDB is loaded and IndexedDB opens, no screenshot of a
    deleted session is left; otherwise the sessions are deleted all the
    same and the screenshot store is left as it was. *)
Theorem cleanupOldSessions_keeps_five (w : World) :
  kv_reliable w ->
  List.NoDup (JS.keys (CMBStorage.sessions_of (storage w))) ->
  let w' := snd (CMBStorage.cleanupOldSessions w) in
  retains_most_recent 5
    (CMBStorage.sessions_of (storage w)) (CMBStorage.sessions_of (storage w'))
  /\ (screenshot_db_loaded w = true -> idb_available w = true -> capacity_evicted w w')
  /\ ((screenshot_db_loaded w && idb_available w)%bool = false ->
      screenshots w' = screenshots w).
Proof.
  intros Hok Hnd w'. subst w'.
  assert (Hret : retains_most_recent 5 (CMBStorage.sessions_of (storage w))
                   (CMBStorage.sessions_of
                      (storage (snd (CMBStorage.cleanupOldSessions w))))).
  { rewrite (cleanupOldSessions_sessions w Hok). by apply cleanup_retains_most_recent. }
  split; [exact Hret|]. split.
  - intros Hl Ha. split; [exact Hret|]. by apply cleanupOldSessions_no_orphans.
  - by apply cleanupOldSessions_offline.
Qed.

Lemma six_sessions_NoDup : List.NoDup (JS.keys Examples.six_sessions).
Proof.
  unfold JS.keys, Examples.six_sessions. simpl.
  repeat (constructor; [simpl; intuition discriminate|]). constructor.
Qed.

Lemma cleanupOldSessions_keeps_five_witness :
  kv_reliable Examples.crowded
  /\ List.NoDup (JS.keys (CMBStorage.sessions_of (storage Examples.crowded)))
  /\ screenshot_db_loaded Examples.crowded = true
  /\ idb_available Examples.crowded = true
  /\ capacity_evicted Examples.crowded (snd (CMBStorage.cleanupOldSessions Examples.crowded)).
Proof.
  split; [reflexivity|]. split; [exact six_sessions_NoDup|].
  split; [reflexivity|]. split; [reflexivity|].
  destruct (cleanupOldSessions_keeps_five Examples.crowded eq_refl six_sessions_NoDup)
    as (_ & H & _).
  exact (H eq_refl eq_refl).
Defined.

(** When IndexedDB cannot be opened the eviction goes on without the
    screenshots step, as every sweep does under a failure of one store: it
    reports one session cleaned up, [s1] is gone from the collection, and
    the screenshot [s1] owns is still in the store. *)
Lemma cleanupOldSessions_offline_orphans :
  toasts (snd (CMBStorage.cleanupOldSessions Examples.crowded_offline)) = [ToastCleanedUp 1]
  /\ ~ capacity_evicted Examples.crowded_offline
         (snd (CMBStorage.cleanupOldSessions Examples.crowded_offline)).
Proof.
  split; [vm_compute; reflexivity|].
  intros [_ H].
  apply (H "s1"%string) with (id := "screenshot_m1"%string) (b := Examples.shot "m1" "s1" 100).
  - vm_compute. tauto.
  - vm_compute. intuition discriminate.
  - vm_compute. reflexivity.
  - reflexivity.
Qed.

(** ** The quota check *)

(** C5. When the read succeeds, [checkStorageQuota] measures the whole
    store.  At or above the limit of 5 MiB it announces the cleanup, runs
    [cleanupOldSessions] and resolves to [false]; from 80% of the limit up
    to the limit it shows the warning and resolves to [true]; below, it
    resolves to [true] and shows nothing.  At or above the limit, with
    chrome.storage.local answering throughout, the eviction has taken
    effect when the check resolves: of more than five sessions the five
    most recently updated are left, and, when CMBScreenshotDB is loaded and
    IndexedDB opens, no screenshot of a deleted session. *)
Theorem checkStorageQuota_thresholds (h : Host) (w : World) :
  next_call_ok w ->
  let dataSize := json_size h (storage w) in
  CMBStorage.quotaLimit = 5 * 2 ^ 20
  /\ 5 * CMBStorage.warningLevel = 4 * CMBStorage.quotaLimit
  /\ (CMBStorage.quotaLimit <= dataSize ->
      CMBStorage.checkStorageQuota h w
      = (Ok false,
         snd (CMBStorage.cleanupOldSessions (add_toast ToastStorageFullCleanup (answered w)))))
  /\ (CMBStorage.warningLevel <= dataSize < CMBStorage.quotaLimit ->
      CMBStorage.checkStorageQuota h w
      = (Ok true, add_toast (ToastStoragePercent dataSize) (answered w)))
  /\ (dataSize < CMBStorage.warningLevel ->
      CMBStorage.checkStorageQuota h w = (Ok true, answered w))
  /\ (CMBStorage.quotaLimit <= dataSize -> kv_reliable w ->
      List.NoDup (JS.keys (CMBStorage.sessions_of (storage w))) ->
      let w' := snd (CMBStorage.checkStorageQuota h w) in
      retains_most_recent 5
        (CMBStorage.sessions_of (storage w)) (CMBStorage.sessions_of (storage w'))
      /\ (screenshot_db_loaded w = true -> idb_available w = true -> capacity_evicted w w')
      /\ ((screenshot_db_loaded w && idb_available w)%bool = false ->
          screenshots w' = screenshots w)
      /\ exists shown, toasts w' = toasts w ++ ToastStorageFullCleanup :: shown).
Proof.
  intros Hok dataSize. split; [reflexivity|]. split; [reflexivity|].
  assert (Hfull : CMBStorage.quotaLimit <= dataSize ->
            CMBStorage.checkStorageQuota h w
            = (Ok false,
               snd (CMBStorage.cleanupOldSessions
                      (add_toast ToastStorageFullCleanup (answered w))))).
  { intros Hfull. unfold CMBStorage.checkStorageQuota, try_catch, bind.
    rewrite (chrome_storage_get_all_ok w Hok). fold dataSize.
    destruct (Z.geb_spec dataSize CMBStorage.quotaLimit) as [_|Hlt]; [|lia].
    unfold showToast, modify.
    pose proof (cleanupOldSessions_resolves (add_toast ToastStorageFullCleanup (answered w))) as Hc.
    destruct (CMBStorage.cleanupOldSessions _) as [r w']. simpl in Hc. subst r.
    reflexivity. }
  split; [exact Hfull|].
  split; [|split].
  - intros [Hwarn Hlim].
    unfold CMBStorage.checkStorageQuota, try_catch, bind.
    rewrite (chrome_storage_get_all_ok w Hok). fold dataSize.
    destruct (Z.geb_spec dataSize CMBStorage.quotaLimit) as [Hge|_]; [lia|].
    destruct (Z.geb_spec dataSize CMBStorage.warningLevel) as [_|Hlt]; [|lia].
    reflexivity.
  - intros Hlow.
    unfold CMBStorage.checkStorageQuota, try_catch, bind.
    rewrite (chrome_storage_get_all_ok w Hok). fold dataSize.
    assert (CMBStorage.warningLevel < CMBStorage.quotaLimit) by (vm_compute; reflexivity).
    destruct (Z.geb_spec dataSize CMBStorage.quotaLimit) as [Hge|_]; [lia|].
    destruct (Z.geb_spec dataSize CMBStorage.warningLevel) as [Hge|_]; [lia|].
    reflexivity.
  - intros Hge Hrel Hnd w'. subst w'. rewrite (Hfull Hge). cbn [snd].
    assert (Hw : answered w = w).
    { pose proof Hrel as Hs. unfold kv_reliable in Hs. unfold answered.
      rewrite Hs. cbn [tail]. rewrite <- Hs. apply with_kv_script_same. }
    rewrite Hw.
    set (w0 := add_toast ToastStorageFullCleanup w).
    assert (Hrel0 : kv_reliable w0) by exact Hrel.
    assert (Hret : retains_most_recent 5 (CMBStorage.sessions_of (storage w))
                     (CMBStorage.sessions_of
                        (storage (snd (CMBStorage.cleanupOldSessions w0))))).
    { rewrite (cleanupOldSessions_sessions w0 Hrel0).
      by apply (cleanup_retains_most_recent (CMBStorage.sessions_of (storage w))). }
    destruct (cleanupOldSessions_toasts w0 Hrel0) as (shown & Hshown).
    split; [exact Hret|]. split; [|split].
    { intros Hl Ha. split; [exact Hret|].
      by apply (cleanupOldSessions_no_orphans w0 Hrel0). }
    { intros Hoff. by apply (cleanupOldSessions_offline w0 Hrel0). }
    exists shown. rewrite Hshown. unfold w0. cbn [toasts add_toast].
    by rewrite <- app_assoc.
Qed.

Lemma checkStorageQuota_thresholds_witness :
  next_call_ok Examples.crowded
  /\ fst (CMBStorage.checkStorageQuota (Browser.host_with_size 5242880) Examples.crowded) = Ok false
  /\ fst (CMBStorage.checkStorageQuota (Browser.host_with_size 4194304) Examples.crowded) = Ok true
  /\ capacity_evicted Examples.crowded
       (snd (CMBStorage.checkStorageQuota (Browser.host_with_size 5242880) Examples.crowded)).
Proof.
  split; [exact I|]. split; [|split].
  - destruct (checkStorageQuota_thresholds (Browser.host_with_size 5242880) Examples.crowded I)
      as (_ & _ & H & _).
    rewrite H; [reflexivity | vm_compute; discriminate].
  - destruct (checkStorageQuota_thresholds (Browser.host_with_size 4194304) Examples.crowded I)
      as (_ & _ & _ & H & _).
    rewrite H; [reflexivity | split; vm_compute; [discriminate | reflexivity]].
  - destruct (checkStorageQuota_thresholds (Browser.host_with_size 5242880) Examples.crowded I)
      as (_ & _ & _ & _ & _ & H).
    destruct (H ltac:(vm_compute; discriminate) eq_refl six_sessions_NoDup) as (_ & Hev & _).
    exact (Hev eq_refl eq_refl).
Defined.

(** Six sessions at the limit: the check leaves the five most recently
    updated and the screenshot of the sixth is gone. *)
Example checkStorageQuota_evicts_the_oldest :
  let w' := snd (CMBStorage.checkStorageQuota (Browser.host_with_size 5242880)
                   Examples.crowded) in
  JS.keys (CMBStorage.sessions_of (storage w')) = ["s3"; "s6"; "s2"; "s5"; "s4"]
  /\ screenshots w' !! "screenshot_m1" = None
  /\ toasts w' = [ToastStorageFullCleanup; ToastCleanedUp 1].
Proof. vm_compute. done. Qed.

(** ** The daily gate *)

Lemma progressiveCleanup_reliable (w : World) :
  kv_reliable w ->
  exists n, CMBStorage.progressiveCleanup w
            = (Ok n, stamped (sessions_swept w (after_blob_sweep w))).
Proof.
  intros Hok. unfold CMBStorage.progressiveCleanup, after_blob_sweep. unfold try_catch at 1.
  unfold bind at 1. unfold gets at 1.
  destruct (screenshot_db_loaded w) eqn:Hl; simpl andb.
  - unfold bind at 1. unfold try_catch at 1.
    destruct (idb_available w) eqn:Ha.
    + rewrite (cleanupOldScreenshots_available _ w Ha).
      rewrite (progressiveCleanup_rest _ w (aged_out (30 * CMBStorage.DAY_MS) w)); eauto.
    + rewrite (cleanupOldScreenshots_unavailable _ w Ha). unfold ret at 1.
      rewrite (progressiveCleanup_rest _ w w); eauto.
  - unfold bind at 1. unfold ret at 1.
    rewrite (progressiveCleanup_rest _ w w); eauto.
Qed.

Lemma after_blob_sweep_kv (w : World) :
  kv_script (after_blob_sweep w) = kv_script w /\ clock (after_blob_sweep w) = clock w.
Proof. unfold after_blob_sweep. by destruct (_ && _)%bool. Qed.

(** A completed sweep records its time in the settings. *)
Lemma progressiveCleanup_records_run (w : World) :
  kv_reliable w ->
  kv_reliable (snd (CMBStorage.progressiveCleanup w))
  /\ lastCleanup (settings_of (storage (snd (CMBStorage.progressiveCleanup w)))) = Some (clock w).
Proof.
  intros Hok. destruct (progressiveCleanup_reliable w Hok) as [n ->]. simpl snd.
  destruct (sessions_swept_kv w (after_blob_sweep w)) as (Hs & Hc & _).
  destruct (after_blob_sweep_kv w) as (Hs' & Hc').
  split.
  - unfold kv_reliable, stamped. simpl. congruence.
  - unfold stamped, settings_of. simpl.
    rewrite (lookup_union_Some_l _ _ _ _ (lookup_singleton_eq _ _)). simpl. congruence.
Qed.

(** The gate lets a sweep through only when the recorded one is more
    than a day old. *)
Lemma gate_closed (w : World) (t : Z) :
  kv_reliable w ->
  lastCleanup (settings_of (storage w)) = Some t ->
  clock w - 24 * 60 * 60 * 1000 <= t ->
  Overlay.checkAndRunProgressiveCleanup w = (Ok tt, w).
Proof.
  intros Hok Hlast Hrecent.
  unfold Overlay.checkAndRunProgressiveCleanup, try_catch.
  unfold bind at 1. rewrite (getSettings_reliable w Hok).
  unfold bind at 1. unfold Date_now, gets.
  unfold Overlay.lastCleanup_or_0. rewrite Hlast, or_num_0.
  destruct (Z.ltb_spec t (clock w - 24 * 60 * 60 * 1000)) as [Hlt|_]; [lia|].
  reflexivity.
Qed.

(** C3, as the code has it.  After a sweep at time [clock w], an
    invocation through [checkAndRunProgressiveCleanup] at a time [later]
    that is within 24 hours of it is a no-op: nothing is read past the
    settings, nothing deleted, nothing written. *)
Theorem gated_second_sweep_noop (w : World) (later : Z) :
  kv_reliable w ->
  later - 24 * 60 * 60 * 1000 <= clock w ->
  let w1 := with_clock later (snd (CMBStorage.progressiveCleanup w)) in
  Overlay.checkAndRunProgressiveCleanup w1 = (Ok tt, w1)
  /\ leaves_unchanged w1 (snd (Overlay.checkAndRunProgressiveCleanup w1)).
Proof.
  intros Hok Hrecent w1.
  destruct (progressiveCleanup_records_run w Hok) as [Hok1 Hlast].
  assert (Hgate : Overlay.checkAndRunProgressiveCleanup w1 = (Ok tt, w1)).
  { apply (gate_closed w1 (clock w)); [exact Hok1|exact Hlast|exact Hrecent]. }
  split; [exact Hgate|]. rewrite Hgate. by split.
Qed.

Lemma gated_second_sweep_noop_witness :
  kv_reliable Examples.aged
  /\ (clock Examples.aged + 3600000) - 24 * 60 * 60 * 1000 <= clock Examples.aged
  /\ leaves_unchanged
       (with_clock (clock Examples.aged + 3600000)
          (snd (CMBStorage.progressiveCleanup Examples.aged)))
       (snd (Overlay.checkAndRunProgressiveCleanup
               (with_clock (clock Examples.aged + 3600000)
                  (snd (CMBStorage.progressiveCleanup Examples.aged))))).
Proof.
  split; [reflexivity|]. split; [vm_compute; discriminate|].
  apply (gated_second_sweep_noop Examples.aged (clock Examples.aged + 3600000) eq_refl).
  vm_compute. discriminate.
Defined.

(** C3, as stated, fails for [progressiveCleanup] itself, which the manual
    cleanup of the overlay calls directly: one hour after a completed and
    recorded sweep it deletes the screenshot that has turned 30 days old
    meanwhile and rewrites [lastCleanup]. *)
Lemma progressiveCleanup_runs_again :
  let w1 := snd (CMBStorage.progressiveCleanup Examples.aged) in
  let w2 := with_clock (clock Examples.aged + 3600000) w1 in
  lastCleanup (settings_of (storage w1)) = Some (clock Examples.aged)
  /\ fst (CMBStorage.progressiveCleanup w2) = Ok 1%nat
  /\ screenshots w2 !! "screenshot_c" <> None
  /\ screenshots (snd (CMBStorage.progressiveCleanup w2)) !! "screenshot_c" = None
  /\ lastCleanup (settings_of (storage (snd (CMBStorage.progressiveCleanup w2))))
     = Some (clock Examples.aged + 3600000)
  /\ ~ leaves_unchanged w2 (snd (CMBStorage.progressiveCleanup w2)).
Proof.
  cbv zeta.
  split; [vm_compute; reflexivity|]. split; [vm_compute; reflexivity|].
  split; [vm_compute; discriminate|]. split; [vm_compute; reflexivity|].
  split; [vm_compute; reflexivity|].
  intros [_ H].
  apply (f_equal (fun m => m !! "screenshot_c"%string)) in H.
  vm_compute in H. discriminate.
Qed.

(** ** getSessionKey *)

Lemma append_inv_head (a x y : string) : a +:+ x = a +:+ y -> x = y.
Proof.
  induction a as [|c a IH]; simpl; [done|].
  intros H. injection H as H. by apply IH.
Qed.

Lemma extractVideoId_parsed (h : Host) (u : string) (urlObj : URL) (now1 now2 : Z) :
  parse_url h u = Some urlObj ->
  CMBUtils.extractVideoId h now1 u = CMBUtils.extractVideoId h now2 u.
Proof. intros H. unfold CMBUtils.extractVideoId. by rewrite H. Qed.

(** The date of the concrete browser is that of the UTC day. *)
Lemma toISODate_same_day (t1 t2 : Z) :
  t1 / 86400000 = t2 / 86400000 -> Browser.toISODate t1 = Browser.toISODate t2.
Proof. intros H. unfold Browser.toISODate. by rewrite H. Qed.

(** C7, as the code has it.  For a URL that parses, the key is
    [hostname|videoId|isoDate], with the video identifier a function of the
    URL alone; two calls on the same UTC date give the same key, and calls
    on different dates give different keys. *)
Theorem getSessionKey_per_day (h : Host) (u : string) (urlObj : URL) (now1 now2 : Z) :
  parse_url h u = Some urlObj ->
  CMBStorage.getSessionKey h now1 u
  = hostname urlObj +:+ "|" +:+ CMBUtils.extractVideoId h now1 u +:+ "|" +:+ iso_date h now1
  /\ CMBUtils.extractVideoId h now1 u = CMBUtils.extractVideoId h now2 u
  /\ (iso_date h now1 = iso_date h now2 ->
      CMBStorage.getSessionKey h now1 u = CMBStorage.getSessionKey h now2 u)
  /\ (iso_date h now1 <> iso_date h now2 ->
      CMBStorage.getSessionKey h now1 u <> CMBStorage.getSessionKey h now2 u).
Proof.
  intros Hparse.
  pose proof (extractVideoId_parsed h u urlObj now1 now2 Hparse) as Hid.
  unfold CMBStorage.getSessionKey. rewrite Hparse.
  split; [reflexivity|]. split; [exact Hid|]. split.
  - intros Hdate. by rewrite Hid, Hdate.
  - intros Hdate Hkey. apply Hdate. rewrite Hid in Hkey.
    by do 4 apply append_inv_head in Hkey.
Qed.

Lemma getSessionKey_per_day_witness :
  parse_url Browser.host "https://www.youtube.com/watch?v=abc"
  = Some {| hostname := "www.youtube.com"; pathname := "/watch";
            searchParams := [("v", "abc")] |}
  /\ CMBStorage.getSessionKey Browser.host 1793577599999 "https://www.youtube.com/watch?v=abc"
     = "www.youtube.com|abc|2026-11-01"
  /\ CMBStorage.getSessionKey Browser.host 1793577599999 "https://www.youtube.com/watch?v=abc"
     <> CMBStorage.getSessionKey Browser.host 1793577600000 "https://www.youtube.com/watch?v=abc".
Proof.
  split; [reflexivity|].
  destruct (getSessionKey_per_day Browser.host "https://www.youtube.com/watch?v=abc" _
              1793577599999 1793577600000 eq_refl) as (Hform & _ & _ & Hroll).
  split.
  - rewrite Hform. vm_compute. reflexivity.
  - apply Hroll. vm_compute. discriminate.
Defined.

(** For a string that is no URL the key is the time in milliseconds. *)
Lemma getSessionKey_unparsed (h : Host) (u : string) (now : Z) :
  parse_url h u = None ->
  CMBStorage.getSessionKey h now u = "unknown|" +:+ JS.of_Z now.
Proof. intros H. unfold CMBStorage.getSessionKey. by rewrite H. Qed.

(** C7, as stated, fails for a string that is no URL: two calls one
    millisecond apart, on the same UTC day, give different keys. *)
Lemma getSessionKey_unstable_for_non_url :
  1000 / 86400000 = 1001 / 86400000
  /\ CMBStorage.getSessionKey Browser.host 1000 "not a url" = "unknown|1000"
  /\ CMBStorage.getSessionKey Browser.host 1001 "not a url" = "unknown|1001"
  /\ ~ stable_within_day Browser.host "not a url".
Proof.
  split; [reflexivity|]. split; [vm_compute; reflexivity|]. split; [vm_compute; reflexivity|].
  intros H. specialize (H 1000 1001 (toISODate_same_day 1000 1001 eq_refl)).
  vm_compute in H. discriminate.
Qed.

(** ** The save queue *)

Lemma checkStorageQuota_quiet (h : Host) (w : World) :
  kv_reliable w -> json_size h (storage w) < CMBStorage.warningLevel ->
  CMBStorage.checkStorageQuota h w = (Ok true, w).
Proof.
  intros Hok Hlow.
  unfold CMBStorage.checkStorageQuota, chrome_storage_get_all, try_catch, bind, gets.
  rewrite (next_outcome_reliable w Hok).
  assert (CMBStorage.warningLevel < CMBStorage.quotaLimit) by (vm_compute; reflexivity).
  destruct (Z.geb_spec (json_size h (storage w)) CMBStorage.quotaLimit) as [Hge|_]; [lia|].
  destruct (Z.geb_spec (json_size h (storage w)) CMBStorage.warningLevel) as [Hge|_]; [lia|].
  reflexivity.
Qed.

Lemma first_call_drains (h : Host) (key : string) (v : CMBStorage.Data)
    (rs : list (CMBStorage.Ref * string)) (m : CMBStorage.Memory) (w : World) :
  CMBStorage.step h (resting rs m w) (CMBStorage.Call key v)
  = draining CMBStorage.AwaitQuota key v v rs m w.
Proof. reflexivity. Qed.

Lemma call_while_draining (h : Host) (p : CMBStorage.Phase) (key : string)
    (first latest v : CMBStorage.Data) (rs : list (CMBStorage.Ref * string))
    (m : CMBStorage.Memory) (w : World) :
  CMBStorage.step h (draining p key first latest rs m w) (CMBStorage.Call key v)
  = draining p key first v rs m w.
Proof.
  unfold draining, CMBStorage.step, CMBStorage.queuedSave. simpl.
  by rewrite String.eqb_refl.
Qed.

(** The answer to a read of [saveSession] while the collection is being
    drained replaces the queued collection. *)
Lemma answer_while_draining (p : CMBStorage.Phase) (first latest : CMBStorage.Data)
    (rs : list (CMBStorage.Ref * string)) (m : CMBStorage.Memory) (w : World) :
  kv_reliable w ->
  exists latest' rs',
    CMBStorage.answer (draining p CMBStorage.SESSIONS_KEY first latest rs m w)
    = draining p CMBStorage.SESSIONS_KEY first latest' rs' m w.
Proof.
  intros Hok. destruct rs as [|[r k] rs]; [by exists latest, []|].
  unfold CMBStorage.answer. cbn [draining CMBStorage.reads CMBStorage.world].
  rewrite (chrome_storage_get_reliable _ w Hok).
  eexists _, rs. reflexivity.
Qed.

Lemma meanwhile_step (h : Host) (p : CMBStorage.Phase) (key : string)
    (first latest : CMBStorage.Data) (rs : list (CMBStorage.Ref * string))
    (m : CMBStorage.Memory) (w : World) (e : CMBStorage.Event) :
  kv_reliable w -> meanwhile key e = true ->
  exists latest' rs' m',
    CMBStorage.step h (draining p key first latest rs m w) e
    = draining p key first latest' rs' m' w.
Proof.
  intros Hok He. destruct e as [k v|r s|r k| |]; simpl in He.
  - apply String.eqb_eq in He as ->. exists v, rs, m. apply call_while_draining.
  - by exists latest, rs, (CMBStorage.assign r s m).
  - by eexists latest, _, _.
  - apply String.eqb_eq in He as ->.
    destruct (answer_while_draining p first latest rs m w Hok) as (l' & rs' & E).
    exists l', rs', m. exact E.
  - done.
Qed.

Lemma meanwhile_run (h : Host) (p : CMBStorage.Phase) (key : string)
    (first : CMBStorage.Data) (w : World) (es : list CMBStorage.Event) :
  kv_reliable w -> forallb (meanwhile key) es = true ->
  forall latest rs m,
  exists latest' rs' m',
    CMBStorage.run h es (draining p key first latest rs m w)
    = draining p key first latest' rs' m' w.
Proof.
  intros Hok. unfold CMBStorage.run.
  induction es as [|e es IH]; intros Hes latest rs m; [by exists latest, rs, m|].
  cbn [forallb] in Hes. apply andb_true_iff in Hes as [He Hes].
  cbn [List.fold_left].
  destruct (meanwhile_step h p key first latest rs m w e Hok He) as (l1 & rs1 & m1 & ->).
  by apply IH.
Qed.

(** The quota check passes and the write is issued, with the queued object
    serialised as it is then. *)
Lemma quota_check_settles (h : Host) (key : string) (first latest : CMBStorage.Data)
    (rs : list (CMBStorage.Ref * string)) (m : CMBStorage.Memory) (w : World) :
  kv_reliable w -> json_size h (storage w) < CMBStorage.warningLevel ->
  CMBStorage.step h (draining CMBStorage.AwaitQuota key first latest rs m w) CMBStorage.Settle
  = draining (CMBStorage.AwaitSet (CMBStorage.serialize m first)) key first latest rs m w.
Proof.
  intros Hok Hlow. cbn [CMBStorage.step].
  unfold CMBStorage.settle. cbn [draining CMBStorage.drain CMBStorage.phase CMBStorage.world].
  by rewrite (checkStorageQuota_quiet h w Hok Hlow).
Qed.

(** The write completes, the loop finds no further entry and the queue is
    cleared. *)
Lemma write_settles (h : Host) (key : string) (items : Value)
    (first latest : CMBStorage.Data) (rs : list (CMBStorage.Ref * string))
    (m : CMBStorage.Memory) (w : World) :
  kv_reliable w ->
  CMBStorage.step h (draining (CMBStorage.AwaitSet items) key first latest rs m w)
    CMBStorage.Settle
  = resting rs m
      (add_effect (KvSet {[ key := items ]}) (with_storage ({[ key := items ]} ∪ storage w) w)).
Proof.
  intros Hok. cbn [CMBStorage.step].
  unfold CMBStorage.settle. cbn [draining CMBStorage.drain CMBStorage.phase CMBStorage.world
                                 CMBStorage.queueKey CMBStorage.queueData].
  by rewrite (chrome_storage_set_reliable _ w Hok).
Qed.

Lemma run_app (h : Host) (es1 es2 : list CMBStorage.Event) (q : CMBStorage.Queue) :
  CMBStorage.run h (es1 ++ es2) q = CMBStorage.run h es2 (CMBStorage.run h es1 q).
Proof. unfold CMBStorage.run. apply fold_left_app. Qed.

Lemma run_one (h : Host) (e : CMBStorage.Event) (q : CMBStorage.Queue) :
  CMBStorage.run h [e] q = CMBStorage.step h q e.
Proof. reflexivity. Qed.

(** C1, what the code does.  On a queue at rest, whatever reads of
    [saveSession] are under way, a first [queuedSave(key, first)] starts
    the drain and suspends at the quota check with the object [first]
    already taken from the queue.  While it awaits the quota check
    ([during_check]) and then the write ([during_write]), further calls for
    the same key, assignments to session objects, calls of [saveSession]
    and answers to their reads only replace the queued object.  The drain
    writes [first], serialised as it is when the quota check has settled,
    once, and then clears the queue: an object queued meanwhile is written
    only as far as [first] holds it too, otherwise nowhere, and no toast
    tells. *)
Theorem rapid_saves_write_first
    (h : Host) (key : string) (first : CMBStorage.Data)
    (during_check during_write : list CMBStorage.Event)
    (pending : list (CMBStorage.Ref * string)) (m : CMBStorage.Memory) (w : World) :
  kv_reliable w -> json_size h (storage w) < CMBStorage.warningLevel ->
  forallb (meanwhile key) during_check = true ->
  forallb (meanwhile key) during_write = true ->
  let q1 := CMBStorage.run h (CMBStorage.Call key first :: during_check)
              (resting pending m w) in
  let written := CMBStorage.serialize (CMBStorage.memory q1) first in
  let q := CMBStorage.run h ([CMBStorage.Settle] ++ during_write ++ [CMBStorage.Settle]) q1 in
  CMBStorage.saveQueue q = [] /\ CMBStorage.saveInProgress q = false
  /\ CMBStorage.drain q = None
  /\ storage (CMBStorage.world q) !! key = Some written
  /\ trace (CMBStorage.world q) = trace w ++ [KvSet {[ key := written ]}]
  /\ toasts (CMBStorage.world q) = toasts w.
Proof.
  intros Hok Hlow Hc Hw q1 written q. subst q written.
  assert (E1 : exists latest rs m1,
             q1 = draining CMBStorage.AwaitQuota key first latest rs m1 w).
  { subst q1.
    change (CMBStorage.run h (CMBStorage.Call key first :: during_check) (resting pending m w))
      with (CMBStorage.run h during_check
              (CMBStorage.step h (resting pending m w) (CMBStorage.Call key first))).
    rewrite first_call_drains. by apply meanwhile_run. }
  destruct E1 as (l1 & rs1 & m1 & ->).
  rewrite !run_app, !run_one.
  rewrite (quota_check_settles h key first _ _ _ w Hok Hlow).
  destruct (meanwhile_run h (CMBStorage.AwaitSet (CMBStorage.serialize m1 first)) key first w
              during_write Hok Hw l1 rs1 m1) as (l2 & rs2 & m2 & ->).
  rewrite (write_settles h key _ first _ _ _ w Hok).
  cbn [draining resting CMBStorage.memory CMBStorage.saveQueue CMBStorage.saveInProgress
       CMBStorage.drain CMBStorage.world].
  repeat split; try reflexivity.
  apply lookup_union_Some_l, lookup_singleton_eq.
Qed.

Lemma rapid_saves_write_first_witness :
  kv_reliable (Browser.fresh 0)
  /\ json_size (Browser.host_with_size 100) (storage (Browser.fresh 0)) < CMBStorage.warningLevel
  /\ storage (CMBStorage.world
                (CMBStorage.run (Browser.host_with_size 100)
                   [CMBStorage.Call CMBStorage.SESSIONS_KEY
                      (CMBStorage.Collection [("k1", CMBStorage.Shared 1%nat)]);
                    CMBStorage.Answer;
                    CMBStorage.Settle;
                    CMBStorage.Settle]
                   (resting [(2%nat, "k2")] Examples.objects (Browser.fresh 0))))
     !! CMBStorage.SESSIONS_KEY
     = Some (VSessions [("k1", Examples.video "abc" 1000)]).
Proof.
  split; [reflexivity|]. split; [reflexivity|].
  apply (rapid_saves_write_first (Browser.host_with_size 100) CMBStorage.SESSIONS_KEY
           (CMBStorage.Collection [("k1", CMBStorage.Shared 1%nat)])
           [CMBStorage.Answer] [] [(2%nat, "k2")] Examples.objects (Browser.fresh 0));
    reflexivity.
Defined.

(** An object queued for a key the drain has not reached yet does replace
    the earlier one: here ["b"] is written once, with the later object. *)
Example later_key_coalesces :
  let q := CMBStorage.run (Browser.host_with_size 100)
             [CMBStorage.Call "a" (Examples.saved 1);
              CMBStorage.Call "b" (Examples.saved 2);
              CMBStorage.Call "b" (Examples.saved 3);
              CMBStorage.Settle; CMBStorage.Settle; CMBStorage.Settle; CMBStorage.Settle]
             (CMBStorage.idle Examples.objects (Browser.fresh 0)) in
  trace (CMBStorage.world q)
  = [KvSet {[ "a" := Examples.stored 1 ]}; KvSet {[ "b" := Examples.stored 3 ]}]
  /\ CMBStorage.saveQueue q = [] /\ CMBStorage.saveInProgress q = false.
Proof. vm_compute. done. Qed.

(** Three rejected writes end in the toast 'Failed to save data after
    retries'; nothing is written and the queue is cleared. *)
Example exhausted_retries_are_announced :
  let q := CMBStorage.run (Browser.host_with_size 100)
             [CMBStorage.Call CMBStorage.SESSIONS_KEY (Examples.saved 1);
              CMBStorage.Settle; CMBStorage.Settle; CMBStorage.Settle;
              CMBStorage.Settle; CMBStorage.Settle; CMBStorage.Settle;
              CMBStorage.Settle; CMBStorage.Settle]
             (CMBStorage.idle Examples.objects Examples.flaky) in
  toasts (CMBStorage.world q) = [ToastSaveFailed]
  /\ trace (CMBStorage.world q) = []
  /\ CMBStorage.saveQueue q = [] /\ CMBStorage.saveInProgress q = false.
Proof. vm_compute. done. Qed.

(** Over the limit the entry is skipped after the toast of the quota
    check. *)
Example over_quota_is_announced :
  let q := CMBStorage.run (Browser.host_with_size 6000000)
             [CMBStorage.Call CMBStorage.SESSIONS_KEY (Examples.saved 1); CMBStorage.Settle]
             (CMBStorage.idle Examples.objects (Browser.fresh 0)) in
  toasts (CMBStorage.world q) = [ToastStorageFullCleanup]
  /\ trace (CMBStorage.world q) = []
  /\ CMBStorage.saveQueue q = [] /\ CMBStorage.saveInProgress q = false.
Proof. vm_compute. done. Qed.

(** Two [saveSession] calls with two session objects under one key, the
    first with one marker and the second with two, called one after the
    other; the reads are answered in the order of the calls, then the quota
    check and the write settle.  The collection of the first call is what
    is stored, the object of the second call is stored nowhere, and no
    toast is shown. *)
Example second_object_is_lost :
  let q := CMBStorage.run Browser.host
             [CMBStorage.Save 0%nat (Some "k");
              CMBStorage.Save 3%nat (Some "k");
              CMBStorage.Answer; CMBStorage.Answer;
              CMBStorage.Settle; CMBStorage.Settle]
             (CMBStorage.idle Examples.objects (Browser.fresh 86400000)) in
  List.map (fun e => (fst e, List.length (markers (snd e))))
    (CMBStorage.sessions_of (storage (CMBStorage.world q)))
  = [("k", 1%nat)]
  /\ List.length (trace (CMBStorage.world q)) = 1%nat
  /\ toasts (CMBStorage.world q) = []
  /\ CMBStorage.reads q = []
  /\ CMBStorage.saveQueue q = [] /\ CMBStorage.saveInProgress q = false.
Proof. vm_compute. done. Qed.

(** The same for the sessions of two videos: the second is stored
    nowhere. *)
Example other_session_is_lost :
  let q := CMBStorage.run Browser.host
             [CMBStorage.Save 1%nat None;
              CMBStorage.Save 2%nat None;
              CMBStorage.Answer; CMBStorage.Answer;
              CMBStorage.Settle; CMBStorage.Settle]
             (CMBStorage.idle Examples.objects (Browser.fresh 86400000)) in
  JS.keys (CMBStorage.sessions_of (storage (CMBStorage.world q)))
  = ["www.youtube.com|abc|1970-01-02"]
  /\ List.length (trace (CMBStorage.world q)) = 1%nat
  /\ toasts (CMBStorage.world q) = []
  /\ CMBStorage.reads q = []
  /\ CMBStorage.saveQueue q = [] /\ CMBStorage.saveInProgress q = false.
Proof. vm_compute. done. Qed.

(** One session object saved twice, as [addMarker] does: a marker is
    pushed and the object saved, and while the quota check of that save is
    awaited a second marker is pushed and the object saved again.  The
    collection of the first call holds the same object, so the one write
    stores both markers. *)
Example same_object_is_written_whole :
  let q := CMBStorage.run Browser.host
             [CMBStorage.Save 0%nat None;
              CMBStorage.Answer;
              CMBStorage.Assign 0%nat (Examples.marked 2);
              CMBStorage.Save 0%nat None;
              CMBStorage.Settle;
              CMBStorage.Answer;
              CMBStorage.Settle]
             (CMBStorage.idle Examples.objects (Browser.fresh 86400000)) in
  List.map (fun e => (fst e, List.length (markers (snd e))))
    (CMBStorage.sessions_of (storage (CMBStorage.world q)))
  = [("www.youtube.com|abc|1970-01-02", 2%nat)]
  /\ List.length (trace (CMBStorage.world q)) = 1%nat
  /\ toasts (CMBStorage.world q) = []
  /\ CMBStorage.reads q = []
  /\ CMBStorage.saveQueue q = [] /\ CMBStorage.saveInProgress q = false.
Proof. vm_compute. done. Qed.

(** In the drain, a rejected read at the quota check lets the write go
    ahead. *)
Lemma failed_quota_read_lets_the_write_proceed
    (h : Host) (key : string) (first latest : CMBStorage.Data)
    (rs : list (CMBStorage.Ref * string)) (m : CMBStorage.Memory) (w : World)
    (e : Error) (s : list (option Error)) :
  kv_script w = Some e :: s ->
  CMBStorage.drain
    (CMBStorage.settle h (draining CMBStorage.AwaitQuota key first latest rs m w))
  = Some {| CMBStorage.retries := 3; CMBStorage.iter_pos := 1;
            CMBStorage.queueKey := key; CMBStorage.queueData := first;
            CMBStorage.attempts := 0;
            CMBStorage.phase := CMBStorage.AwaitSet (CMBStorage.serialize m first) |}.
Proof.
  intros Hs. unfold CMBStorage.settle, draining. simpl.
  unfold CMBStorage.checkStorageQuota, chrome_storage_get_all, try_catch, bind.
  by rewrite (next_outcome_fails w e s Hs).
Qed.

(* ===================================================================== *)
(** * Further properties of the code                                   *)
(* ===================================================================== *)

(** ** The screenshot store: storing, deleting, backup *)

Lemma storeScreenshot_available (m k d : string) (w : World) :
  idb_available w = true ->
  CMBScreenshotDB.storeScreenshot m k d w
  = (Ok ("screenshot_" +:+ m),
     add_effect (IdbPut ("screenshot_" +:+ m))
       (with_screenshots
          (<["screenshot_" +:+ m :=
               {| shot_id := "screenshot_" +:+ m; shot_markerId := m; shot_sessionKey := k;
                  shot_dataUrl := d; shot_createdAt := clock w;
                  shot_size := Z.of_nat (String.length d) |}]> (screenshots w)) w)).
Proof.
  intros H.
  unfold CMBScreenshotDB.storeScreenshot, CMBScreenshotDB.initDB, bind, Date_now, gets, modify, ret.
  by rewrite H.
Qed.

Lemma getScreenshot_available (id : string) (w : World) :
  idb_available w = true ->
  CMBScreenshotDB.getScreenshot id w
  = (Ok (match screenshots w !! id with Some r => Some (shot_dataUrl r) | None => None end), w).
Proof.
  intros H. unfold CMBScreenshotDB.getScreenshot, CMBScreenshotDB.initDB, bind, gets, ret.
  by rewrite H.
Qed.

(** X1. With IndexedDB open, [storeScreenshot(markerId, sessionKey, dataUrl)]
    resolves to the id [screenshot_] followed by the marker id;
    [getScreenshot] of that id then resolves to the data URL just stored,
    and [getScreenshot] of any other id to what it resolved to before. *)
Theorem storeScreenshot_getScreenshot (m k d : string) (w : World) :
  idb_available w = true ->
  let r := CMBScreenshotDB.storeScreenshot m k d w in
  exists id,
    fst r = Ok id
    /\ id = "screenshot_" +:+ m
    /\ fst (CMBScreenshotDB.getScreenshot id (snd r)) = Ok (Some d)
    /\ forall id', id' <> id ->
         fst (CMBScreenshotDB.getScreenshot id' (snd r))
         = fst (CMBScreenshotDB.getScreenshot id' w).
Proof.
  intros H r. subst r. rewrite (storeScreenshot_available m k d w H). simpl.
  eexists. split; [reflexivity|]. split; [reflexivity|].
  rewrite !getScreenshot_available by done. simpl.
  split.
  - by rewrite lookup_insert_eq.
  - intros id' Hne. rewrite !getScreenshot_available by done. simpl.
    by rewrite lookup_insert_ne.
Qed.

Lemma storeScreenshot_getScreenshot_witness :
  idb_available Examples.crowded = true
  /\ fst (CMBScreenshotDB.getScreenshot "screenshot_m9"
            (snd (CMBScreenshotDB.storeScreenshot "m9" "s6" "data:image/png;base64,AAAA"
                    Examples.crowded)))
     = Ok (Some "data:image/png;base64,AAAA").
Proof.
  split; [reflexivity|].
  destruct (storeScreenshot_getScreenshot "m9" "s6" "data:image/png;base64,AAAA"
              Examples.crowded eq_refl) as (id & _ & Hid & Hget & _).
  rewrite Hid in Hget. exact Hget.
Defined.

(** X2. With IndexedDB open, a second [storeScreenshot] for the same marker
    replaces the record of the first: the store is the one a single call
    with the later arguments leaves, it holds as many records as after the
    first call, and [getScreenshot] resolves to the later data URL. *)
Theorem storeScreenshot_overwrites (m k d k' d' : string) (w : World) :
  idb_available w = true ->
  let w1 := snd (CMBScreenshotDB.storeScreenshot m k d w) in
  let w2 := snd (CMBScreenshotDB.storeScreenshot m k' d' w1) in
  screenshots w2 = screenshots (snd (CMBScreenshotDB.storeScreenshot m k' d' w))
  /\ fst (CMBScreenshotDB.getScreenshot ("screenshot_" +:+ m) w2) = Ok (Some d')
  /\ size (screenshots w2) = size (screenshots w1).
Proof.
  intros H w1 w2. subst w1 w2.
  rewrite (storeScreenshot_available m k d w H). simpl snd.
  rewrite !storeScreenshot_available by done. simpl snd.
  rewrite getScreenshot_available by done. cbn [fst snd screenshots with_screenshots add_effect].
  rewrite insert_insert_eq. split; [done|]. split.
  - by rewrite lookup_insert_eq.
  - by rewrite !map_size_insert.
Qed.

Lemma storeScreenshot_overwrites_witness :
  idb_available Examples.crowded = true
  /\ fst (CMBScreenshotDB.getScreenshot "screenshot_m1"
            (snd (CMBScreenshotDB.storeScreenshot "m1" "s6" "data:image/png;base64,BBBB"
                    (snd (CMBScreenshotDB.storeScreenshot "m1" "s1" "data:image/png;base64,AAAA"
                            Examples.crowded)))))
     = Ok (Some "data:image/png;base64,BBBB").
Proof.
  split; [reflexivity|].
  exact (proj1 (proj2 (storeScreenshot_overwrites "m1" "s1" "data:image/png;base64,AAAA"
                         "s6" "data:image/png;base64,BBBB" Examples.crowded eq_refl))).
Defined.

Lemma size_filter_complement {A} (P : string * A -> Prop) `{!forall x, Decision (P x)}
    (m : gmap string A) :
  (size (filter P m) + size (filter (fun kv => ~ P kv) m))%nat = size m.
Proof.
  rewrite <- map_size_disj_union by apply map_disjoint_filter_complement.
  by rewrite map_filter_union_complement.
Qed.

(** X3. With IndexedDB open, [deleteSessionScreenshots(key)] resolves to
    the number of records it deleted: that number and the number of records
    left add up to the number there was; the records left are exactly those
    of other sessions, unchanged; and a second call deletes none. *)
Theorem deleteSessionScreenshots_conserves (key : string) (w : World) :
  idb_available w = true ->
  let r := CMBScreenshotDB.deleteSessionScreenshots key w in
  exists n,
    fst r = Ok n
    /\ (n + size (screenshots (snd r)))%nat = size (screenshots w)
    /\ (forall id b, screenshots (snd r) !! id = Some b
                     <-> screenshots w !! id = Some b /\ shot_sessionKey b <> key)
    /\ fst (CMBScreenshotDB.deleteSessionScreenshots key (snd r)) = Ok 0%nat.
Proof.
  intros H r. subst r. rewrite (deleteSessionScreenshots_available key w H).
  eexists. split; [reflexivity|]. simpl snd. split; [|split].
  - unfold cascaded. simpl. apply size_filter_complement.
  - intros id b. unfold cascaded. simpl. apply map_lookup_filter_Some.
  - rewrite deleteSessionScreenshots_available by done. simpl.
    unfold cascaded. simpl. by rewrite filter_owner_gone.
Qed.

Lemma deleteSessionScreenshots_conserves_witness :
  idb_available Examples.crowded = true
  /\ exists n,
       fst (CMBScreenshotDB.deleteSessionScreenshots "s1" Examples.crowded) = Ok n
       /\ (n + size (screenshots (snd (CMBScreenshotDB.deleteSessionScreenshots "s1"
                                         Examples.crowded))))%nat
          = size (screenshots Examples.crowded).
Proof.
  split; [reflexivity|].
  destruct (deleteSessionScreenshots_conserves "s1" Examples.crowded eq_refl)
    as (n & Hr & Hsum & _).
  exists n. split; [exact Hr|exact Hsum].
Defined.

(** X4. A screenshot stored now outlives [cleanupOldScreenshots(maxAgeMs)]
    run at the same time for every positive [maxAgeMs]; for [maxAgeMs] zero
    or negative it is deleted, the bound of the cursor being inclusive. *)
Theorem fresh_screenshot_survives_sweep (m k d : string) (maxAgeMs : Z) (w : World) :
  idb_available w = true ->
  let w1 := snd (CMBScreenshotDB.storeScreenshot m k d w) in
  let w2 := snd (CMBScreenshotDB.cleanupOldScreenshots maxAgeMs w1) in
  (0 < maxAgeMs ->
     fst (CMBScreenshotDB.getScreenshot ("screenshot_" +:+ m) w2) = Ok (Some d))
  /\ (maxAgeMs <= 0 ->
     fst (CMBScreenshotDB.getScreenshot ("screenshot_" +:+ m) w2) = Ok None).
Proof.
  intros H w1 w2. subst w1 w2.
  rewrite (storeScreenshot_available m k d w H). simpl snd.
  rewrite cleanupOldScreenshots_available by done. simpl snd.
  rewrite getScreenshot_available by done. unfold aged_out.
  cbn [fst snd screenshots with_screenshots add_effect clock].
  set (shot := {| shot_id := "screenshot_" +:+ m; shot_markerId := m; shot_sessionKey := k;
                  shot_dataUrl := d; shot_createdAt := clock w;
                  shot_size := Z.of_nat (String.length d) |}).
  split; intros Hage.
  - assert (filter (fun kv : string * Screenshot => ~ shot_createdAt (snd kv) <= clock w - maxAgeMs)
              (<["screenshot_" +:+ m := shot]> (screenshots w))
              !! ("screenshot_" +:+ m) = Some shot) as ->; [|done].
    apply map_lookup_filter_Some. split; [apply lookup_insert_eq|]. simpl. lia.
  - assert (filter (fun kv : string * Screenshot => ~ shot_createdAt (snd kv) <= clock w - maxAgeMs)
              (<["screenshot_" +:+ m := shot]> (screenshots w))
              !! ("screenshot_" +:+ m) = None) as ->; [|done].
    apply map_lookup_filter_None. right. intros x Hx.
    rewrite lookup_insert_eq in Hx. injection Hx as <-. simpl. lia.
Qed.

Lemma fresh_screenshot_survives_sweep_witness :
  idb_available Examples.aged = true /\ 0 < 30 * CMBStorage.DAY_MS
  /\ fst (CMBScreenshotDB.getScreenshot "screenshot_m9"
            (snd (CMBScreenshotDB.cleanupOldScreenshots (30 * CMBStorage.DAY_MS)
                    (snd (CMBScreenshotDB.storeScreenshot "m9" "new"
                            "data:image/png;base64,AAAA" Examples.aged)))))
     = Ok (Some "data:image/png;base64,AAAA").
Proof.
  split; [reflexivity|]. split; [reflexivity|].
  exact (proj1 (fresh_screenshot_survives_sweep "m9" "new" "data:image/png;base64,AAAA"
                  (30 * CMBStorage.DAY_MS) Examples.aged eq_refl) eq_refl).
Defined.

Lemma importScreenshots_loop (l : list Screenshot) (n : nat) (w : World) :
  exists w',
    for_of_var l n
      (fun shot importedCount =>
         modify (fun w => add_effect (IdbPut (shot_id shot))
                            (with_screenshots (<[shot_id shot := shot]> (screenshots w)) w)) ;;;
         ret (S importedCount))%js w
    = (Ok (n + length l)%nat, w')
    /\ screenshots w' = put_all l (screenshots w)
    /\ storage w' = storage w.
Proof.
  revert n w. induction l as [|s l IH]; intros n w; simpl.
  - exists w. unfold ret. by rewrite Nat.add_0_r.
  - unfold bind at 1. unfold bind at 1. unfold modify at 1. unfold ret at 1.
    destruct (IH (S n) (add_effect (IdbPut (shot_id s))
                          (with_screenshots (<[shot_id s := s]> (screenshots w)) w)))
      as (w' & -> & Hs & Hst).
    exists w'. split; [f_equal; f_equal; lia|]. split; [exact Hs|exact Hst].
Qed.

Lemma fst_keyed (l : list Screenshot) :
  (List.map (fun s => (shot_id s, s)) l).*1 = List.map shot_id l.
Proof. induction l as [|s l IH]; simpl; [done|]. by rewrite <- IH. Qed.

Lemma put_all_union (l : list Screenshot) (m : gmap string Screenshot) :
  List.NoDup (List.map shot_id l) ->
  put_all l m = list_to_map (List.map (fun s => (shot_id s, s)) l) ∪ m.
Proof.
  unfold put_all. revert m. induction l as [|s l IH]; intros m Hnd; simpl.
  - by rewrite (left_id_L ∅ (∪)).
  - inversion Hnd as [|? ? Hnot Hnd']; subst.
    rewrite IH by done. rewrite <- insert_union_l. symmetry. apply insert_union_r.
    apply not_elem_of_list_to_map_1. intros Hin. apply Hnot.
    apply list_elem_of_In in Hin. by rewrite fst_keyed in Hin.
Qed.

Lemma getAll_Permutation (shots : gmap string Screenshot) :
  Permutation (CMBScreenshotDB2.getAll shots) (List.map snd (map_to_list shots)).
Proof. apply sort_Permutation. Qed.

Lemma keyed_entries (shots : gmap string Screenshot) :
  keyed_by_id shots ->
  List.map (fun s => (shot_id s, s)) (List.map snd (map_to_list shots)) = map_to_list shots.
Proof.
  intros Hk. rewrite List.map_map.
  rewrite <- (List.map_id (map_to_list shots)) at 2.
  apply List.map_ext_in. intros [id b] Hin. simpl.
  apply list_elem_of_In, elem_of_map_to_list in Hin. by rewrite (Hk id b Hin).
Qed.

Lemma exportScreenshots_available (w : World) :
  idb_available w = true ->
  CMBScreenshotDB2.exportScreenshots w = (Ok (CMBScreenshotDB2.getAll (screenshots w)), w).
Proof.
  intros H. unfold CMBScreenshotDB2.exportScreenshots, CMBScreenshotDB.initDB, bind, gets, ret.
  by rewrite H.
Qed.

Lemma importScreenshots_available (l : list Screenshot) (w : World) :
  idb_available w = true ->
  exists w',
    CMBScreenshotDB2.importScreenshots l w = (Ok (length l), w')
    /\ screenshots w' = put_all l (screenshots w)
    /\ storage w' = storage w.
Proof.
  intros H. unfold CMBScreenshotDB2.importScreenshots, CMBScreenshotDB.initDB. unfold bind at 1.
  rewrite H. apply (importScreenshots_loop l 0 w).
Qed.

(** X5. Backup and restore.  What [exportScreenshots] resolves to, handed to
    [importScreenshots] on a store to which IndexedDB gives access, is
    imported record by record: the call resolves to the number of exported
    records, the store then holds the exported records over those it held
    (an imported record wins over one of the same id), and an empty store
    becomes equal to the exported one.  The exported store keeps its
    records under their ids, as the key path of the object store makes
    it. *)
Theorem export_import_round_trip (w w' : World) (backup : list Screenshot) :
  idb_available w = true -> idb_available w' = true ->
  keyed_by_id (screenshots w) ->
  fst (CMBScreenshotDB2.exportScreenshots w) = Ok backup ->
  let r := CMBScreenshotDB2.importScreenshots backup w' in
  fst r = Ok (size (screenshots w))
  /\ screenshots (snd r) = screenshots w ∪ screenshots w'
  /\ (screenshots w' = ∅ -> screenshots (snd r) = screenshots w).
Proof.
  intros H H' Hk Hexp r. subst r.
  rewrite (exportScreenshots_available w H) in Hexp. simpl in Hexp. injection Hexp as <-.
  destruct (importScreenshots_available (CMBScreenshotDB2.getAll (screenshots w)) w' H')
    as (w2 & -> & Hs & _).
  simpl fst. simpl snd.
  pose proof (getAll_Permutation (screenshots w)) as Hperm.
  assert (Hu : screenshots w2 = screenshots w ∪ screenshots w').
  { rewrite Hs, put_all_union.
    - f_equal. rewrite <- (list_to_map_to_list (screenshots w)) at 2.
      rewrite <- (keyed_entries _ Hk).
      symmetry. apply list_to_map_proper.
      + rewrite keyed_entries by done. apply NoDup_fst_map_to_list.
      + apply Permutation_map. by symmetry.
    - eapply Permutation_NoDup; [apply Permutation_map; symmetry; exact Hperm|].
      rewrite <- fst_keyed, keyed_entries by done.
      apply NoDup_ListNoDup, NoDup_fst_map_to_list. }
  split; [|split].
  - f_equal. rewrite (Permutation_length Hperm), length_map. simpl.
    apply length_map_to_list.
  - exact Hu.
  - intros He. rewrite Hu, He. apply (right_id_L ∅ (∪)).
Qed.

Lemma crowded_keyed_by_id : keyed_by_id (screenshots Examples.crowded).
Proof.
  intros id b H. simpl in H.
  apply lookup_insert_Some in H as [[<- <-]|[_ H]]; [reflexivity|].
  apply lookup_singleton_Some in H as [<- <-]. reflexivity.
Qed.

Lemma export_import_round_trip_witness :
  idb_available Examples.crowded = true /\ idb_available (Browser.fresh 0) = true
  /\ keyed_by_id (screenshots Examples.crowded)
  /\ screenshots
       (snd (CMBScreenshotDB2.importScreenshots
               (CMBScreenshotDB2.getAll (screenshots Examples.crowded)) (Browser.fresh 0)))
     = screenshots Examples.crowded.
Proof.
  split; [reflexivity|]. split; [reflexivity|]. split; [exact crowded_keyed_by_id|].
  exact (proj2 (proj2 (export_import_round_trip Examples.crowded (Browser.fresh 0)
                         (CMBScreenshotDB2.getAll (screenshots Examples.crowded))
                         eq_refl eq_refl crowded_keyed_by_id eq_refl)) eq_refl).
Defined.

(** ** Sessions and settings in chrome.storage.local *)

Lemma beginSession_reliable (h : Host) (u title : string) (key : option string) (w : World) :
  kv_reliable w ->
  let k := CMBStorage.resolve_key h (clock w) u key in
  let ss := CMBStorage.sessions_of (storage w) in
  let s := begun h u title (clock w) (JS.get k ss) in
  let items : gmap string Value :=
    <[ CMBStorage.SESSIONS_KEY := VSessions (JS.set k s ss) ]>
      {[ CMBStorage.LAST_ACTIVE_KEY := VString k ]} in
  CMBStorage.beginSession h u title key w
  = (Ok s, add_effect (KvSet items) (with_storage (items ∪ storage w) w)).
Proof.
  intros Hok k ss s items. subst s items.
  unfold CMBStorage.beginSession, bind, Date_now, gets, attempt.
  rewrite (chrome_storage_get_reliable _ w Hok).
  rewrite sessions_of_filter by (apply list_elem_of_In; by left).
  fold ss. fold k.
  destruct (JS.get k ss) as [existing|] eqn:Hget;
    unfold try_catch, bind, ret; rewrite (chrome_storage_set_reliable _ w Hok); reflexivity.
Qed.

Lemma app_nonempty (a b : string) : b <> EmptyString -> a +:+ b <> EmptyString.
Proof. destruct a; simpl; [done|discriminate]. Qed.

Lemma truthy_Some (s : string) : s <> EmptyString -> truthy (Some s) = Some s.
Proof. destruct s; [done|reflexivity]. Qed.

Lemma truthy_inv (o : option string) (k : string) : truthy o = Some k -> k <> EmptyString.
Proof.
  destruct o as [s|]; simpl; [|done]. destruct s; simpl; [done|].
  intros [= <-]. discriminate.
Qed.

Lemma resolve_key_nonempty (h : Host) (now : Z) (u : string) (key : option string) :
  CMBStorage.resolve_key h now u key <> EmptyString.
Proof.
  unfold CMBStorage.resolve_key. destruct (truthy key) as [k|] eqn:E.
  - by apply truthy_inv in E.
  - unfold CMBStorage.getSessionKey. destruct (parse_url h u).
    + apply app_nonempty. discriminate.
    + discriminate.
Qed.

Lemma lookup_filter_in (ks : list string) (st : gmap string Value) (k : string) :
  k ∈ ks -> filter (fun kv => fst kv ∈ ks) st !! k = st !! k.
Proof.
  intros Hin. destruct (st !! k) as [v|] eqn:E.
  - by apply map_lookup_filter_Some.
  - apply map_lookup_filter_None. by left.
Qed.

Lemma current_of_stored (h : Host) (href : string) (now : Z) (st : gmap string Value)
    (k : string) (s : Session) :
  current_of h href now st = Some (k, s) -> JS.get k (CMBStorage.sessions_of st) = Some s.
Proof.
  unfold current_of.
  destruct (match st !! CMBStorage.LAST_ACTIVE_KEY with
            | Some (VString k) => truthy (Some k) | _ => None end) as [ak|].
  - destruct (JS.get ak _) as [s0|] eqn:E.
    + by intros [= <- <-].
    + destruct (JS.get (CMBStorage.getSessionKey h now href) _) as [s1|] eqn:E1; [|done].
      by intros [= <- <-].
  - destruct (JS.get (CMBStorage.getSessionKey h now href) _) as [s1|] eqn:E1; [|done].
    by intros [= <- <-].
Qed.

Lemma next_outcome_script (w : World) :
  exists r s, next_outcome w = (r, with_kv_script s w).
Proof.
  unfold next_outcome. destruct (kv_script w) as [|[e|] s] eqn:E; eauto.
  exists (Ok tt), []. by rewrite <- E, with_kv_script_same.
Qed.

Lemma chrome_storage_get_script (ks : list string) (w : World) :
  exists s,
    chrome_storage_get ks w = (Ok (filter (fun kv => fst kv ∈ ks) (storage w)), with_kv_script s w)
    \/ exists e, chrome_storage_get ks w = (Throw e, with_kv_script s w).
Proof.
  unfold chrome_storage_get, bind, gets.
  destruct (next_outcome_script w) as ([[]|e] & s & ->); exists s; eauto.
Qed.

Lemma chrome_storage_set_script (items : gmap string Value) (w : World) :
  exists s,
    chrome_storage_set items w
    = (Ok tt, add_effect (KvSet items) (with_storage (items ∪ storage w) (with_kv_script s w)))
    \/ exists e, chrome_storage_set items w = (Throw e, with_kv_script s w).
Proof.
  unfold chrome_storage_set, bind, modify.
  destruct (next_outcome_script w) as ([[]|e] & s & ->); exists s; eauto.
Qed.

Lemma getCurrentSession_eq (h : Host) (href : string) (w : World) :
  CMBStorage2.getCurrentSession h href w
  = match chrome_storage_get [CMBStorage.SESSIONS_KEY; CMBStorage.LAST_ACTIVE_KEY] w with
    | (Ok st, w') => (Ok (current_of h href (clock w') st), w')
    | (Throw _, w') => (Ok None, w')
    end.
Proof.
  unfold CMBStorage2.getCurrentSession, try_catch. unfold bind at 1.
  destruct (chrome_storage_get _ w) as [[st|e] w']; [|reflexivity].
  unfold current_of.
  destruct (match st !! CMBStorage.LAST_ACTIVE_KEY with
            | Some (VString k) => truthy (Some k) | _ => None end) as [ak|].
  - destruct (JS.get ak _) as [s0|]; [reflexivity|].
    unfold bind, Date_now, gets, ret.
    by destruct (JS.get (CMBStorage.getSessionKey h (clock w') href) _).
  - unfold bind, Date_now, gets, ret.
    by destruct (JS.get (CMBStorage.getSessionKey h (clock w') href) _).
Qed.

Lemma current_of_filter (h : Host) (href : string) (now : Z) (st : gmap string Value) :
  current_of h href now
    (filter (fun kv => fst kv ∈ [CMBStorage.SESSIONS_KEY; CMBStorage.LAST_ACTIVE_KEY]) st)
  = current_of h href now st.
Proof.
  unfold current_of.
  rewrite sessions_of_filter by (apply list_elem_of_In; by left).
  by rewrite lookup_filter_in by (apply list_elem_of_In; right; by left).
Qed.

Lemma getCurrentSession_cases (h : Host) (href : string) (w : World) :
  exists s,
    CMBStorage2.getCurrentSession h href w
    = (Ok (current_of h href (clock w) (storage w)), with_kv_script s w)
    \/ CMBStorage2.getCurrentSession h href w = (Ok None, with_kv_script s w).
Proof.
  rewrite getCurrentSession_eq.
  destruct (chrome_storage_get_script [CMBStorage.SESSIONS_KEY; CMBStorage.LAST_ACTIVE_KEY] w)
    as (s & [Hget|(e & Hget)]); rewrite Hget; exists s.
  - left. by rewrite current_of_filter.
  - by right.
Qed.

Lemma getCurrentSession_reliable (h : Host) (href : string) (w : World) :
  kv_reliable w ->
  CMBStorage2.getCurrentSession h href w = (Ok (current_of h href (clock w) (storage w)), w).
Proof.
  intros Hok. rewrite getCurrentSession_eq, (chrome_storage_get_reliable _ w Hok).
  by rewrite current_of_filter.
Qed.

Lemma getSession_reliable (key : string) (w : World) :
  kv_reliable w ->
  CMBStorage.getSession key w = (Ok (JS.get key (CMBStorage.sessions_of (storage w))), w).
Proof.
  intros Hok. unfold CMBStorage.getSession, try_catch, bind, ret.
  rewrite (chrome_storage_get_reliable _ w Hok).
  by rewrite sessions_of_filter by (apply list_elem_of_In; by left).
Qed.

(** ** Keys and the members of [Object.prototype] *)

Lemma includes_bar (a b : string) : JS.includes "|" (a +:+ "|" +:+ b) = true.
Proof.
  induction a as [|c a IH].
  - simpl. by destruct b.
  - change (String c a +:+ "|" +:+ b) with (String c (a +:+ "|" +:+ b)).
    cbn [JS.includes]. rewrite IH. by destruct (String.prefix _ _).
Qed.

Lemma inherited_no_bar (k : string) :
  JS.is_inherited k = true -> JS.includes "|" k = false.
Proof.
  unfold JS.is_inherited, JS.inherited. cbn [List.existsb].
  rewrite !orb_true_iff.
  intros H.
  repeat (destruct H as [H|H]; [apply String.eqb_eq in H; subst k; reflexivity|]).
  done.
Qed.

(** The key [getSessionKey] makes holds a bar, so it names no member of
    [Object.prototype]; only a key given by the caller can. *)
Lemma getSessionKey_not_inherited (h : Host) (now : Z) (u : string) :
  JS.is_inherited (CMBStorage.getSessionKey h now u) = false.
Proof.
  destruct (JS.is_inherited _) eqn:E; [|done].
  apply inherited_no_bar in E. revert E. unfold CMBStorage.getSessionKey.
  destruct (parse_url h u) as [urlObj|].
  - by rewrite includes_bar.
  - change ("unknown|" +:+ JS.of_Z now) with ("unknown" +:+ "|" +:+ JS.of_Z now).
    by rewrite includes_bar.
Qed.

Lemma resolve_key_not_inherited (h : Host) (now : Z) (u : string) :
  JS.is_inherited (CMBStorage.resolve_key h now u None) = false.
Proof. apply getSessionKey_not_inherited. Qed.

(** X6. When chrome.storage.local answers and the resolved key names no
    member of [Object.prototype], the session [beginSession] returns is the
    current one afterwards: [getCurrentSession] resolves to the resolved
    key and that record whatever [location.href] is, and [getSession] of
    the resolved key resolves to it. *)
Theorem beginSession_sets_current
    (h : Host) (u title href : string) (key : option string) (w : World) :
  kv_reliable w ->
  JS.is_inherited (CMBStorage.resolve_key h (clock w) u key) = false ->
  let r := CMBStorage.beginSession h u title key w in
  exists s,
    fst r = Ok s
    /\ fst (CMBStorage2.getCurrentSession h href (snd r))
       = Ok (Some (CMBStorage.resolve_key h (clock w) u key, s))
    /\ fst (CMBStorage.getSession (CMBStorage.resolve_key h (clock w) u key) (snd r))
       = Ok (Some s).
Proof.
  intros Hok _ r. subst r. rewrite (beginSession_reliable h u title key w Hok).
  set (k := CMBStorage.resolve_key h (clock w) u key).
  set (ss := CMBStorage.sessions_of (storage w)).
  set (s := begun h u title (clock w) (JS.get k ss)).
  set (items := <[ CMBStorage.SESSIONS_KEY := VSessions (JS.set k s ss) ]>
                  ({[ CMBStorage.LAST_ACTIVE_KEY := VString k ]} : gmap string Value)).
  exists s. split; [reflexivity|]. simpl snd.
  set (w1 := add_effect (KvSet items) (with_storage (items ∪ storage w) w)).
  assert (Hok1 : kv_reliable w1) by exact Hok.
  assert (Hss : CMBStorage.sessions_of (storage w1) = JS.set k s ss).
  { apply sessions_of_written. apply lookup_insert_eq. }
  split.
  - rewrite (getCurrentSession_reliable h href w1 Hok1).
    cbn [fst]. f_equal. unfold current_of. rewrite Hss.
    assert (storage w1 !! CMBStorage.LAST_ACTIVE_KEY = Some (VString k)) as ->.
    { apply lookup_union_Some_l. unfold items. rewrite lookup_insert_ne by (by vm_compute).
      apply lookup_singleton_eq. }
    rewrite truthy_Some by apply resolve_key_nonempty.
    by rewrite get_set_eq.
  - rewrite (getSession_reliable _ w1 Hok1). cbn [fst]. by rewrite Hss, get_set_eq.
Qed.

Lemma beginSession_sets_current_witness :
  kv_reliable Examples.crowded
  /\ JS.is_inherited "s1" = false
  /\ exists s,
       fst (CMBStorage.beginSession Browser.host "https://www.youtube.com/watch?v=abc"
              "A video" (Some "s1") Examples.crowded) = Ok s
       /\ fst (CMBStorage2.getCurrentSession Browser.host "https://vimeo.com/1"
                 (snd (CMBStorage.beginSession Browser.host
                         "https://www.youtube.com/watch?v=abc" "A video" (Some "s1")
                         Examples.crowded)))
          = Ok (Some ("s1", s)).
Proof.
  split; [reflexivity|]. split; [reflexivity|].
  destruct (beginSession_sets_current Browser.host "https://www.youtube.com/watch?v=abc"
              "A video" "https://vimeo.com/1" (Some "s1") Examples.crowded eq_refl eq_refl)
    as (s & Hr & Hcur & _).
  exists s. split; [exact Hr|exact Hcur].
Defined.

(** X7. When chrome.storage.local answers, after [deleteSession(key)] for
    a key that names no member of [Object.prototype], [getSession(key)]
    resolves to [null], [getSession] of every other such key resolves to
    what it resolved to before, and, when CMBScreenshotDB is loaded and
    IndexedDB opens, no screenshot of the session is left. *)
Theorem deleteSession_then_getSession (key : string) (w : World) :
  kv_reliable w ->
  JS.is_inherited key = false ->
  let w1 := snd (CMBStorage.deleteSession key w) in
  fst (CMBStorage.getSession key w1) = Ok None
  /\ (forall k', k' <> key -> JS.is_inherited k' = false ->
        fst (CMBStorage.getSession k' w1) = fst (CMBStorage.getSession k' w))
  /\ (screenshot_db_loaded w = true -> idb_available w = true ->
      forall id b, screenshots w1 !! id = Some b -> shot_sessionKey b <> key).
Proof.
  intros Hok _ w1. subst w1. rewrite (deleteSession_reliable key w Hok). simpl snd.
  destruct (after_cascade_kv key w) as (Hs & Hst & _).
  match goal with |- context [CMBStorage.getSession key ?w1] =>
    assert (Hok1 : kv_reliable w1) by (unfold kv_reliable; simpl; congruence);
    assert (Hss : CMBStorage.sessions_of (storage w1)
                  = JS.delete key (CMBStorage.sessions_of (storage w)))
      by (apply sessions_of_written, lookup_singleton_eq);
    set (w1' := w1) in *
  end.
  split; [|split].
  - rewrite (getSession_reliable _ w1' Hok1). cbn [fst]. by rewrite Hss, get_delete_eq.
  - intros k' Hne _. rewrite (getSession_reliable _ w1' Hok1), (getSession_reliable _ w Hok).
    cbn [fst]. by rewrite Hss, get_delete_ne.
  - intros Hl Ha id b. subst w1'. simpl. unfold after_cascade. rewrite Hl, Ha. simpl.
    intros Hb. apply map_lookup_filter_Some in Hb. tauto.
Qed.

Lemma deleteSession_then_getSession_witness :
  kv_reliable Examples.crowded
  /\ JS.is_inherited "s1" = false
  /\ fst (CMBStorage.getSession "s1" (snd (CMBStorage.deleteSession "s1" Examples.crowded)))
     = Ok None.
Proof.
  split; [reflexivity|]. split; [reflexivity|].
  exact (proj1 (deleteSession_then_getSession "s1" Examples.crowded eq_refl eq_refl)).
Defined.

(** X8. With a [cmb.lastActiveKey] that names no member of
    [Object.prototype], [getCurrentSession] never rejects and writes
    nothing to chrome.storage.local; a session it returns is stored under
    the key it returns with it.  In particular it does not return a session
    that [deleteSession] has just deleted, although [deleteSession] leaves
    [cmb.lastActiveKey] pointing at it. *)
Theorem getCurrentSession_returns_stored (h : Host) (href : string) (w : World) :
  active_key_inherited (storage w) = false ->
  (exists r, fst (CMBStorage2.getCurrentSession h href w) = Ok r
             /\ forall k s, r = Some (k, s) ->
                  JS.get k (CMBStorage.sessions_of (storage w)) = Some s)
  /\ storage (snd (CMBStorage2.getCurrentSession h href w)) = storage w
  /\ forall key s,
       kv_reliable w ->
       fst (CMBStorage2.getCurrentSession h href (snd (CMBStorage.deleteSession key w)))
       <> Ok (Some (key, s)).
Proof.
  intros _. split; [|split].
  - destruct (getCurrentSession_cases h href w) as (sc & [->| ->]); simpl.
    + eexists. split; [reflexivity|]. intros k s Hr. by apply current_of_stored in Hr.
    + eexists. split; [reflexivity|]. done.
  - by destruct (getCurrentSession_cases h href w) as (sc & [->| ->]).
  - intros key s Hok. rewrite (deleteSession_reliable key w Hok). simpl snd.
    destruct (after_cascade_kv key w) as (Hs & Hst & _).
    match goal with |- context [CMBStorage2.getCurrentSession h href ?w1] =>
      assert (Hss : CMBStorage.sessions_of (storage w1)
                    = JS.delete key (CMBStorage.sessions_of (storage w)))
        by (apply sessions_of_written, lookup_singleton_eq);
      set (w1' := w1) in *
    end.
    destruct (getCurrentSession_cases h href w1') as (sc & [->| ->]); cbn [fst]; [|done].
    intros Hr. assert (Hr' := f_equal (fun r => match r with Ok x => x | Throw _ => None end) Hr).
    cbv beta iota in Hr'. apply current_of_stored in Hr'. rewrite Hss, get_delete_eq in Hr'. done.
Qed.

Lemma getCurrentSession_returns_stored_witness :
  active_key_inherited (storage Examples.crowded) = false
  /\ kv_reliable Examples.crowded
  /\ fst (CMBStorage2.getCurrentSession Browser.host "https://vimeo.com/1"
            (snd (CMBStorage.deleteSession "s1" Examples.crowded)))
     <> Ok (Some ("s1", Examples.session 100)).
Proof.
  split; [reflexivity|]. split; [reflexivity|].
  exact (proj2 (proj2 (getCurrentSession_returns_stored Browser.host "https://vimeo.com/1"
                         Examples.crowded eq_refl)) "s1" (Examples.session 100) eq_refl).
Defined.

Lemma finalizeSession_resolves (h : Host) (session : option Session) (key : option string)
    (w : World) :
  fst (CMBStorage2.finalizeSession h session key w) = Ok tt.
Proof.
  unfold CMBStorage2.finalizeSession. destruct session as [s|]; [|reflexivity].
  unfold try_catch.
  match goal with |- context [match ?m w with _ => _ end] => destruct (m w) as [[[]|e] w'] end;
    reflexivity.
Qed.

Lemma finalizeSession_reliable (h : Host) (s : Session) (key : option string) (w : World) :
  kv_reliable w ->
  let k := CMBStorage.resolve_key h (clock w) (url s) key in
  let items : gmap string Value :=
    {[ CMBStorage.SESSIONS_KEY :=
         VSessions (JS.set k (CMBStorage2.finalized_at (clock w) s)
                      (CMBStorage.sessions_of (storage w))) ]} in
  CMBStorage2.finalizeSession h (Some s) key w
  = (Ok tt, add_effect (KvSet items) (with_storage (items ∪ storage w) w)).
Proof.
  intros Hok k items. subst k items.
  unfold CMBStorage2.finalizeSession, try_catch, bind, Date_now, gets.
  rewrite (chrome_storage_get_reliable _ w Hok).
  rewrite sessions_of_filter by (apply list_elem_of_In; by left).
  by rewrite (chrome_storage_set_reliable _ w Hok).
Qed.

(** X9. [finalizeSession] never rejects, and without a session it does
    nothing.  When chrome.storage.local answers and the resolved key names
    no member of [Object.prototype], the record stored under the resolved
    key afterwards is the given session with [finalized] set and
    [updatedAt] the current time, its markers, creation time, url and
    title as given; no other record changes. *)
Theorem finalizeSession_marks_final
    (h : Host) (session : option Session) (key : option string) (w : World) :
  let r := CMBStorage2.finalizeSession h session key w in
  let ss := CMBStorage.sessions_of (storage w) in
  let ss' := CMBStorage.sessions_of (storage (snd r)) in
  fst r = Ok tt
  /\ (session = None -> snd r = w)
  /\ (kv_reliable w ->
      forall s, session = Some s ->
      let k := CMBStorage.resolve_key h (clock w) (url s) key in
      JS.is_inherited k = false ->
      (exists s', JS.get k ss' = Some s'
                  /\ finalized s' = true /\ updatedAt s' = clock w
                  /\ markers s' = markers s /\ createdAt s' = createdAt s
                  /\ url s' = url s /\ videoTitle s' = videoTitle s)
      /\ forall k', k' <> k -> JS.get k' ss' = JS.get k' ss).
Proof.
  intros r ss ss'. split; [apply finalizeSession_resolves|]. split.
  - intros ->. reflexivity.
  - intros Hok s -> k _. subst r ss'.
    rewrite (finalizeSession_reliable h s key w Hok). cbn [snd].
    match goal with |- context [CMBStorage.sessions_of (storage ?w1)] =>
      assert (Hss : CMBStorage.sessions_of (storage w1)
                    = JS.set k (CMBStorage2.finalized_at (clock w) s) ss)
        by (apply sessions_of_written, lookup_singleton_eq);
      rewrite !Hss
    end.
    split.
    + eexists. split; [apply get_set_eq|]. by simpl.
    + intros k' Hne. by apply get_set_ne.
Qed.

Lemma finalizeSession_marks_final_witness :
  kv_reliable Examples.crowded
  /\ JS.is_inherited "s1" = false
  /\ exists s',
       JS.get "s1"
         (CMBStorage.sessions_of
            (storage (snd (CMBStorage2.finalizeSession Browser.host
                             (Some (Examples.session 100)) (Some "s1") Examples.crowded))))
       = Some s'
       /\ finalized s' = true /\ updatedAt s' = 1000.
Proof.
  split; [reflexivity|]. split; [reflexivity|].
  destruct (proj1 (proj2 (proj2 (finalizeSession_marks_final Browser.host
                                   (Some (Examples.session 100)) (Some "s1") Examples.crowded))
                     eq_refl (Examples.session 100) eq_refl eq_refl))
    as (s' & Hget & Hfin & Hupd & _).
  exists s'. split; [exact Hget|]. split; [exact Hfin|exact Hupd].
Defined.

Lemma by_updatedAt_same (a b : string * Session) :
  updatedAt (snd a) <> 0 -> updatedAt (snd b) <> 0 ->
  CMBStorage2.by_updatedAt a b = CMBStorage.by_updatedAt_desc a b.
Proof.
  intros Ha Hb. unfold CMBStorage2.by_updatedAt, CMBStorage.by_updatedAt_desc.
  rewrite !or_num_0.
  destruct (Z.eqb_spec (updatedAt (snd a)) 0); [done|].
  by destruct (Z.eqb_spec (updatedAt (snd b)) 0).
Qed.

Lemma insert_sorted_ext {A} (cmp cmp' : A -> A -> Z) (x : A) (l : list A) :
  (forall y, In y l -> cmp x y = cmp' x y) ->
  JS.insert_sorted cmp x l = JS.insert_sorted cmp' x l.
Proof.
  intros H. induction l as [|y l IH]; simpl; [done|].
  rewrite (H y) by (by left). rewrite IH; [done|]. intros z Hz. apply H. by right.
Qed.

Lemma sort_ext {A} (cmp cmp' : A -> A -> Z) (l : list A) :
  (forall a b, In a l -> In b l -> cmp a b = cmp' a b) -> JS.sort cmp l = JS.sort cmp' l.
Proof.
  induction l as [|x l IH]; intros H; simpl; [done|].
  fold (JS.sort cmp l). fold (JS.sort cmp' l).
  rewrite IH by (intros a b Ha Hb; apply H; by right).
  apply insert_sorted_ext. intros y Hy. apply H; [by left|]. right.
  eapply Permutation_in; [apply sort_Permutation|exact Hy].
Qed.

Lemma dated_In (ss : JS.Obj Session) (a : string * Session) :
  dated ss = true -> In a ss -> updatedAt (snd a) <> 0.
Proof.
  unfold dated. rewrite forallb_forall. intros H Ha. specialize (H a Ha).
  by destruct (Z.eqb_spec (updatedAt (snd a)) 0).
Qed.

(** X10. [listSessions] never rejects and writes nothing.  When every
    stored record has its [updatedAt], the list it resolves to is in the
    order of [updatedAt], latest first; when the read is answered the list
    holds exactly the stored sessions, each once, and when the read is
    rejected the list is empty. *)
Theorem listSessions_sorted (w : World) :
  dated (CMBStorage.sessions_of (storage w)) = true ->
  exists l,
    fst (CMBStorage2.listSessions w) = Ok l
    /\ storage (snd (CMBStorage2.listSessions w)) = storage w
    /\ StronglySorted fresher l
    /\ (next_call_ok w -> Permutation l (CMBStorage.sessions_of (storage w)))
    /\ (forall e rest, kv_script w = Some e :: rest -> l = []).
Proof.
  intros Hdated.
  unfold CMBStorage2.listSessions, try_catch, bind, ret.
  destruct (chrome_storage_get_script [CMBStorage.SESSIONS_KEY] w) as (s & [Hget|(e & Hget)]).
  - rewrite Hget. rewrite sessions_of_filter by (apply list_elem_of_In; by left).
    eexists. split; [reflexivity|]. split; [done|].
    rewrite (sort_ext _ CMBStorage.by_updatedAt_desc)
      by (intros a b Ha Hb; apply by_updatedAt_same; by eapply dated_In).
    split; [apply sort_fresher|]. split; [intros _; apply sort_Permutation|].
    intros e rest Hs. exfalso. revert Hget.
    unfold chrome_storage_get, bind. by rewrite (next_outcome_fails w e rest Hs).
  - rewrite Hget. exists []. split; [reflexivity|]. split; [done|].
    split; [constructor|]. split; [|done].
    intros Hnext. exfalso. revert Hget.
    unfold chrome_storage_get, bind. by rewrite (next_outcome_next_call_ok w Hnext).
Qed.

Lemma listSessions_sorted_witness :
  dated (CMBStorage.sessions_of (storage Examples.crowded)) = true
  /\ next_call_ok Examples.crowded
  /\ exists l,
       fst (CMBStorage2.listSessions Examples.crowded) = Ok l
       /\ StronglySorted fresher l /\ Permutation l Examples.six_sessions.
Proof.
  split; [reflexivity|]. split; [exact I|].
  destruct (listSessions_sorted Examples.crowded eq_refl) as (l & Hr & _ & Hsorted & Hperm & _).
  exists l. split; [exact Hr|]. split; [exact Hsorted|exact (Hperm I)].
Defined.

(** With a record without its [updatedAt] the list need not be in order:
    every comparison with that record is taken for a tie, and here nothing
    moves although ["b"] was updated after ["a"]. *)
Example listSessions_undated :
  let undated := {| url := "u"; videoTitle := "t"; createdAt := 1; updatedAt := 0;
                    markers := []; manualTimer := None; finalized := false |} in
  let w := with_storage
             {[ CMBStorage.SESSIONS_KEY :=
                  VSessions [("a", Examples.session 100); ("u", undated);
                             ("b", Examples.session 200)] ]}
             (Browser.fresh 0) in
  fst (CMBStorage2.listSessions w)
  = Ok [("a", Examples.session 100); ("u", undated); ("b", Examples.session 200)].
Proof. vm_compute. reflexivity. Qed.

Lemma chrome_storage_get_all_reliable (w : World) :
  kv_reliable w -> chrome_storage_get_all w = (Ok (storage w), w).
Proof.
  intros H. unfold chrome_storage_get_all, bind, gets.
  by rewrite (next_outcome_reliable w H).
Qed.

Lemma getStorageStats_reliable (h : Host) (fmt : Z -> string) (w : World) :
  kv_reliable w ->
  CMBStorage2.getStorageStats h fmt w
  = (Ok {| CMBStorage2.dataSize := fmt (json_size h (storage w));
           CMBStorage2.sessionCount := length (CMBStorage.sessions_of (storage w));
           CMBStorage2.markerCount := count_markers (CMBStorage.sessions_of (storage w));
           CMBStorage2.bytesUsed := Some (json_size h (storage w)) |}, w).
Proof.
  intros Hok. unfold CMBStorage2.getStorageStats, try_catch, bind, ret.
  rewrite (chrome_storage_get_all_reliable w Hok).
  unfold JS.keys. by rewrite length_map.
Qed.

Lemma fold_markers (ss : JS.Obj Session) (a : nat) :
  List.fold_left (fun sum s => (sum + length (markers (snd s)))%nat) ss a
  = (a + list_sum (List.map (fun s => length (markers (snd s))) ss))%nat.
Proof.
  revert a. induction ss as [|s ss IH]; intros a; simpl; [lia|]. rewrite IH. lia.
Qed.

Lemma count_markers_Permutation (l l' : JS.Obj Session) :
  Permutation l l' -> count_markers l = count_markers l'.
Proof.
  intros H. unfold count_markers. rewrite !fold_markers. f_equal.
  induction H; simpl; try lia.
Qed.

Lemma delete_Permutation (k : string) (s : Session) (ss : JS.Obj Session) :
  List.NoDup (JS.keys ss) -> JS.get k ss = Some s ->
  Permutation ss ((k, s) :: JS.delete k ss).
Proof.
  induction ss as [|[k0 s0] ss IH]; simpl; [done|].
  intros Hnd. inversion Hnd as [|? ? Hnot Hnd']; subst.
  destruct (String.eqb_spec k k0) as [->|Hne]; simpl.
  - intros [= ->]. constructor. fold (JS.delete k0 ss).
    rewrite delete_absent; [done|].
    destruct (JS.get k0 ss) as [s1|] eqn:E; [|done].
    exfalso. apply Hnot. clear -E. induction ss as [|[k1 s2] ss IH]; simpl in *; [done|].
    destruct (String.eqb_spec k0 k1); [by left|right; by apply IH].
  - intros Hget. fold (JS.delete k ss). rewrite (IH Hnd' Hget) at 1. apply perm_swap.
Qed.

(** X11. When chrome.storage.local answers, deleting a stored session
    lowers the [sessionCount] of [getStorageStats] by one and its
    [markerCount] by the number of markers of that session. *)
Theorem deleteSession_lowers_stats
    (h : Host) (fmt : Z -> string) (key : string) (s : Session) (w : World) :
  kv_reliable w ->
  List.NoDup (JS.keys (CMBStorage.sessions_of (storage w))) ->
  JS.get key (CMBStorage.sessions_of (storage w)) = Some s ->
  exists before after,
    fst (CMBStorage2.getStorageStats h fmt w) = Ok before
    /\ fst (CMBStorage2.getStorageStats h fmt (snd (CMBStorage.deleteSession key w))) = Ok after
    /\ CMBStorage2.sessionCount before = S (CMBStorage2.sessionCount after)
    /\ CMBStorage2.markerCount before
       = (CMBStorage2.markerCount after + length (markers s))%nat.
Proof.
  intros Hok Hnd Hget.
  rewrite (getStorageStats_reliable h fmt w Hok).
  rewrite (deleteSession_reliable key w Hok). cbn [snd].
  destruct (after_cascade_kv key w) as (Hs & Hst & _).
  match goal with |- context [CMBStorage2.getStorageStats h fmt ?w1] =>
    assert (Hok1 : kv_reliable w1) by (unfold kv_reliable; simpl; congruence);
    assert (Hss : CMBStorage.sessions_of (storage w1)
                  = JS.delete key (CMBStorage.sessions_of (storage w)))
      by (apply sessions_of_written, lookup_singleton_eq);
    rewrite (getStorageStats_reliable h fmt w1 Hok1); rewrite !Hss
  end.
  do 2 eexists. split; [reflexivity|]. split; [reflexivity|]. cbn.
  pose proof (delete_Permutation key s _ Hnd Hget) as Hperm.
  split.
  - by rewrite (Permutation_length Hperm).
  - rewrite (count_markers_Permutation _ _ Hperm). unfold count_markers. simpl.
    rewrite !fold_markers. simpl. lia.
Qed.

Lemma deleteSession_lowers_stats_witness :
  kv_reliable Examples.crowded
  /\ List.NoDup (JS.keys (CMBStorage.sessions_of (storage Examples.crowded)))
  /\ JS.get "s1" (CMBStorage.sessions_of (storage Examples.crowded)) = Some (Examples.session 100)
  /\ exists before after,
       fst (CMBStorage2.getStorageStats Browser.host JS.of_Z Examples.crowded) = Ok before
       /\ fst (CMBStorage2.getStorageStats Browser.host JS.of_Z
                 (snd (CMBStorage.deleteSession "s1" Examples.crowded))) = Ok after
       /\ CMBStorage2.sessionCount before = S (CMBStorage2.sessionCount after).
Proof.
  split; [reflexivity|]. split; [exact six_sessions_NoDup|]. split; [reflexivity|].
  destruct (deleteSession_lowers_stats Browser.host JS.of_Z "s1" (Examples.session 100)
              Examples.crowded eq_refl six_sessions_NoDup eq_refl)
    as (before & after & Hb & Ha & Hcount & _).
  exists before, after. split; [exact Hb|]. split; [exact Ha|exact Hcount].
Defined.

(** X12. When chrome.storage.local answers, [getSettings] after
    [saveSettings(settings)] resolves to [settings], and the sessions are
    as before; without stored settings [getSettings] resolves to the
    defaults.  When the call is rejected [getSettings] resolves to the
    empty object and [saveSettings] resolves without writing. *)
Theorem saveSettings_getSettings (s : Settings) (w : World) :
  (kv_reliable w ->
   fst (CMBStorage.getSettings (snd (CMBStorage.saveSettings s w))) = Ok s
   /\ CMBStorage.sessions_of (storage (snd (CMBStorage.saveSettings s w)))
      = CMBStorage.sessions_of (storage w))
  /\ (kv_reliable w -> storage w !! CMBStorage.SETTINGS_KEY = None ->
      fst (CMBStorage.getSettings w) = Ok CMBStorage.default_settings)
  /\ (forall e rest, kv_script w = Some e :: rest ->
      fst (CMBStorage.getSettings w) = Ok CMBStorage.empty_settings
      /\ fst (CMBStorage.saveSettings s w) = Ok tt
      /\ storage (snd (CMBStorage.saveSettings s w)) = storage w).
Proof.
  split; [|split].
  - intros Hok. rewrite (saveSettings_reliable s w Hok). cbn [snd].
    match goal with |- context [CMBStorage.getSettings ?w1] =>
      assert (Hok1 : kv_reliable w1) by exact Hok;
      rewrite (getSettings_reliable w1 Hok1)
    end.
    cbn [fst]. split.
    + unfold settings_of. simpl.
      by rewrite (lookup_union_Some_l _ _ _ _ (lookup_singleton_eq _ _)).
    + simpl. apply sessions_of_untouched. apply lookup_singleton_ne.
      intros E. by apply sessions_key_ne_settings.
  - intros Hok Hnone. rewrite (getSettings_reliable w Hok). unfold settings_of. by rewrite Hnone.
  - intros e rest Hs.
    unfold CMBStorage.getSettings, CMBStorage.saveSettings, try_catch,
      chrome_storage_get, chrome_storage_set, bind.
    rewrite (next_outcome_fails w e rest Hs). by simpl.
Qed.

Lemma saveSettings_getSettings_witness :
  kv_reliable Examples.crowded
  /\ fst (CMBStorage.getSettings
            (snd (CMBStorage.saveSettings CMBStorage.default_settings Examples.crowded)))
     = Ok CMBStorage.default_settings.
Proof.
  split; [reflexivity|].
  exact (proj1 (proj1 (saveSettings_getSettings CMBStorage.default_settings Examples.crowded)
                  eq_refl)).
Defined.

Lemma sessions_swept_sessions (w : World) :
  CMBStorage.sessions_of (storage (sessions_swept w w))
  = without (aged_sessions (clock w - 90 * CMBStorage.DAY_MS) (CMBStorage.sessions_of (storage w)))
      (CMBStorage.sessions_of (storage w)).
Proof.
  unfold sessions_swept.
  destruct (aged_sessions _ _) as [|e dels] eqn:E; [done|].
  cbn [storage with_storage add_effect].
  by rewrite (sessions_of_written _ _ _ (lookup_singleton_eq _ _)).
Qed.

(** X13. The sweep without the screenshot store.  When CMBScreenshotDB is
    not loaded or IndexedDB cannot be opened, and chrome.storage.local
    answers, [progressiveCleanup] still deletes the sessions older than 90
    days and only those, records its time in [lastCleanup], leaves the
    screenshots alone and resolves to the number of sessions deleted. *)
Theorem progressiveCleanup_without_blob_store (w : World) :
  kv_reliable w ->
  screenshot_db_loaded w = false \/ idb_available w = false ->
  let r := CMBStorage.progressiveCleanup w in
  let cutoff := clock w - 90 * CMBStorage.DAY_MS in
  let ss := CMBStorage.sessions_of (storage w) in
  fst r = Ok (length (aged_sessions cutoff ss))
  /\ screenshots (snd r) = screenshots w
  /\ lastCleanup (settings_of (storage (snd r))) = Some (clock w)
  /\ forall k s, In (k, s) (CMBStorage.sessions_of (storage (snd r)))
                 <-> In (k, s) ss /\ ~ In k (JS.keys (aged_sessions cutoff ss)).
Proof.
  intros Hok Hoff r cutoff ss.
  assert (Hr : r = (Ok (length (aged_sessions cutoff ss)), stamped (sessions_swept w w))).
  { subst r. unfold CMBStorage.progressiveCleanup. unfold try_catch at 1.
    unfold bind at 1. unfold gets at 1.
    destruct (screenshot_db_loaded w) eqn:Hl.
    - destruct Hoff as [?|Ha]; [done|].
      unfold bind at 1. unfold try_catch at 1.
      rewrite (cleanupOldScreenshots_unavailable _ w Ha). unfold ret at 1.
      by rewrite (progressiveCleanup_rest _ w w).
    - unfold bind at 1. unfold ret at 1.
      by rewrite (progressiveCleanup_rest _ w w). }
  rewrite Hr. cbn [fst snd].
  destruct (sessions_swept_kv w w) as (Hs & Hc & Hsh).
  split; [done|]. split; [exact Hsh|]. split.
  - unfold stamped, settings_of. simpl.
    rewrite (lookup_union_Some_l _ _ _ _ (lookup_singleton_eq _ _)). simpl. congruence.
  - intros k s. unfold stamped. simpl.
    rewrite sessions_of_untouched
      by (apply lookup_singleton_ne; intros E; by apply sessions_key_ne_settings).
    rewrite sessions_swept_sessions. apply In_without.
Qed.

Lemma progressiveCleanup_without_blob_store_witness :
  kv_reliable Examples.crowded_offline
  /\ idb_available Examples.crowded_offline = false
  /\ screenshots (snd (CMBStorage.progressiveCleanup Examples.crowded_offline))
     = screenshots Examples.crowded_offline
  /\ lastCleanup (settings_of (storage (snd (CMBStorage.progressiveCleanup
                                               Examples.crowded_offline))))
     = Some 1000.
Proof.
  split; [reflexivity|]. split; [reflexivity|].
  destruct (progressiveCleanup_without_blob_store Examples.crowded_offline eq_refl
              (or_intror eq_refl)) as (_ & Hshots & Hlast & _).
  split; [exact Hshots|exact Hlast].
Defined.

(** X14. The sweep whose read of the sessions is rejected.  The
    screenshots older than 30 days are deleted before the read; the
    rejection is caught, [progressiveCleanup] resolves to [0] whatever the
    number of screenshots deleted, and chrome.storage.local is left as it
    was, so that no [lastCleanup] is recorded. *)
Theorem progressiveCleanup_read_rejected (w : World) (e : Error) (rest : list (option Error)) :
  kv_script w = Some e :: rest ->
  screenshot_db_loaded w = true -> idb_available w = true ->
  let r := CMBStorage.progressiveCleanup w in
  fst r = Ok 0%nat
  /\ screenshots (snd r)
     = filter (fun kv => ~ shot_createdAt (snd kv) <= clock w - 30 * CMBStorage.DAY_MS)
         (screenshots w)
  /\ storage (snd r) = storage w.
Proof.
  intros Hs Hl Ha r.
  assert (Hr : r = (Ok 0%nat, answered (aged_out (30 * CMBStorage.DAY_MS) w))).
  { subst r. unfold CMBStorage.progressiveCleanup. unfold try_catch at 1.
    unfold bind at 1. unfold gets at 1. rewrite Hl.
    unfold bind at 1. unfold try_catch at 1.
    rewrite (cleanupOldScreenshots_available _ w Ha).
    unfold bind at 1. unfold chrome_storage_get. unfold bind at 1.
    by rewrite (next_outcome_fails (aged_out (30 * CMBStorage.DAY_MS) w) e rest Hs). }
  by rewrite Hr.
Qed.

Lemma progressiveCleanup_read_rejected_witness :
  kv_script (with_kv_script [Some (JsError "I/O error")] Examples.aged)
  = [Some (JsError "I/O error")]
  /\ fst (CMBStorage.progressiveCleanup
            (with_kv_script [Some (JsError "I/O error")] Examples.aged)) = Ok 0%nat
  /\ storage (snd (CMBStorage.progressiveCleanup
                     (with_kv_script [Some (JsError "I/O error")] Examples.aged)))
     = storage Examples.aged.
Proof.
  split; [reflexivity|].
  destruct (progressiveCleanup_read_rejected
              (with_kv_script [Some (JsError "I/O error")] Examples.aged)
              (JsError "I/O error") [] eq_refl eq_refl eq_refl) as (Hr & _ & Hst).
  split; [exact Hr|exact Hst].
Defined.

(** X15. When chrome.storage.local answers, [cleanupOldSessions] leaves at
    most five sessions, and a second run right after the first changes
    nothing: no deletion, no write, no toast. *)
Theorem cleanupOldSessions_twice (w : World) :
  kv_reliable w ->
  List.NoDup (JS.keys (CMBStorage.sessions_of (storage w))) ->
  let w1 := snd (CMBStorage.cleanupOldSessions w) in
  CMBStorage.cleanupOldSessions w1 = (Ok tt, w1)
  /\ (length (CMBStorage.sessions_of (storage w1)) <= 5)%nat.
Proof.
  intros Hok Hnd w1. subst w1.
  rewrite (cleanupOldSessions_reliable w Hok). cbn [snd].
  set (ss := CMBStorage.sessions_of (storage w)) in *.
  destruct (Nat.leb_spec (length ss) 5) as [Hle|Hgt].
  - pose proof (cleanupOldSessions_reliable w Hok) as H. cbv zeta in H. fold ss in H.
    rewrite H. destruct (Nat.leb_spec (length ss) 5); [done|lia].
  - destruct (cascade_all_kv (victims ss) w) as (Hs & Hst & _).
    match goal with |- CMBStorage.cleanupOldSessions ?w1 = _ /\ _ =>
      assert (Hok1 : kv_reliable w1) by (unfold kv_reliable; simpl; congruence);
      assert (Hss : CMBStorage.sessions_of (storage w1) = without (victims ss) ss)
        by (apply sessions_of_written, lookup_singleton_eq);
      pose proof (cleanupOldSessions_reliable w1 Hok1) as H; cbv zeta in H;
      rewrite Hss in H; rewrite Hss; set (w1' := w1) in *
    end.
    rewrite (length_kept ss Hnd Hgt) in *. split; [|lia]. exact H.
Qed.

Lemma cleanupOldSessions_twice_witness :
  kv_reliable Examples.crowded
  /\ List.NoDup (JS.keys (CMBStorage.sessions_of (storage Examples.crowded)))
  /\ CMBStorage.cleanupOldSessions (snd (CMBStorage.cleanupOldSessions Examples.crowded))
     = (Ok tt, snd (CMBStorage.cleanupOldSessions Examples.crowded)).
Proof.
  split; [reflexivity|]. split; [exact six_sessions_NoDup|].
  exact (proj1 (cleanupOldSessions_twice Examples.crowded eq_refl six_sessions_NoDup)).
Defined.

(** ** A single save through the queue *)

Lemma keeps_toasts_ret {A} (a : A) : keeps_toasts (ret a).
Proof. intros w. simpl. lia. Qed.

Lemma keeps_toasts_gets {A} (f : World -> A) : keeps_toasts (gets f).
Proof. intros w. simpl. lia. Qed.

Lemma keeps_toasts_bind {A B} (m : M A) (k : A -> M B) :
  keeps_toasts m -> (forall a, keeps_toasts (k a)) -> keeps_toasts (bind m k).
Proof.
  intros Hm Hk w. unfold bind. specialize (Hm w).
  destruct (m w) as [[a|e] w1]; simpl in *; [|done].
  specialize (Hk a w1). lia.
Qed.

Lemma keeps_toasts_try_catch {A} (m : M A) (hd : Error -> M A) :
  keeps_toasts m -> (forall e, keeps_toasts (hd e)) -> keeps_toasts (try_catch m hd).
Proof.
  intros Hm Hh w. unfold try_catch. specialize (Hm w).
  destruct (m w) as [[a|e] w1]; simpl in *; [done|].
  specialize (Hh e w1). lia.
Qed.

Lemma keeps_toasts_next_outcome : keeps_toasts next_outcome.
Proof. intros w. destruct (next_outcome_script w) as (r & s & ->). simpl. lia. Qed.

Lemma keeps_toasts_get (ks : list string) : keeps_toasts (chrome_storage_get ks).
Proof.
  apply keeps_toasts_bind; [apply keeps_toasts_next_outcome|intros _; apply keeps_toasts_gets].
Qed.

Lemma keeps_toasts_set (items : gmap string Value) : keeps_toasts (chrome_storage_set items).
Proof.
  apply keeps_toasts_bind; [apply keeps_toasts_next_outcome|].
  intros _ w. simpl. lia.
Qed.

Lemma keeps_toasts_showToast (t : Toast) : keeps_toasts (showToast t).
Proof. intros w. simpl. rewrite length_app. lia. Qed.

Lemma keeps_toasts_cleanupOldSessions : keeps_toasts CMBStorage.cleanupOldSessions.
Proof.
  apply keeps_toasts_try_catch; [|intros _; apply keeps_toasts_showToast].
  apply keeps_toasts_bind; [apply keeps_toasts_get|]. intros st.
  cbv zeta. match goal with |- context [if ?c then _ else _] => destruct c end; [apply keeps_toasts_ret|].
  apply keeps_toasts_bind.
  - intros w. rewrite cleanup_loop. cbn [snd].
    match goal with |- context [cascade_all ?vs w] =>
      destruct (cascade_all_kv vs w) as (_ & _ & -> & _)
    end. lia.
  - intros ss. apply keeps_toasts_bind; [apply keeps_toasts_set|].
    intros _. apply keeps_toasts_showToast.
Qed.

Lemma checkStorageQuota_outcome (h : Host) (w : World) :
  exists b w',
    CMBStorage.checkStorageQuota h w = (Ok b, w')
    /\ (length (toasts w) <= length (toasts w'))%nat
    /\ (b = false -> announced w w').
Proof.
  unfold CMBStorage.checkStorageQuota, try_catch. unfold bind at 1.
  unfold chrome_storage_get_all, bind at 1.
  destruct (next_outcome_script w) as ([[]|e] & s & ->).
  - unfold gets at 1.
    destruct (_ >=? CMBStorage.quotaLimit).
    + unfold bind at 1. unfold showToast, modify.
      unfold bind.
      pose proof (cleanupOldSessions_resolves (add_toast ToastStorageFullCleanup (with_kv_script s w)))
        as Hres.
      pose proof (keeps_toasts_cleanupOldSessions
                    (add_toast ToastStorageFullCleanup (with_kv_script s w))) as Hk.
      destruct (CMBStorage.cleanupOldSessions _) as [r w3]. simpl in Hres. subst r.
      unfold ret. do 2 eexists. split; [reflexivity|].
      simpl in Hk. rewrite length_app in Hk. simpl in Hk. unfold announced.
      split; [lia|intros _; lia].
    + unfold bind.
      destruct (_ >=? CMBStorage.warningLevel); unfold showToast, modify, ret;
        do 2 eexists; (split; [reflexivity|]); simpl; rewrite ?length_app; simpl;
        (split; [lia|done]).
  - unfold ret. do 2 eexists. split; [reflexivity|]. simpl. split; [lia|done].
Qed.

Lemma settle_at_rest (h : Host) (q : CMBStorage.Queue) :
  at_rest q -> CMBStorage.settle h q = q.
Proof. intros (_ & _ & Hd). unfold CMBStorage.settle. by rewrite Hd. Qed.

Lemma lone_settles (h : Host) (key : string) (data : CMBStorage.Data)
    (m : CMBStorage.Memory) (w0 : World)
    (a : nat) (p : CMBStorage.Phase) (w : World) (n : nat) :
  (p = CMBStorage.AwaitCleanup \/ a < 3)%nat -> (budget a p <= S n)%nat ->
  (length (toasts w0) <= length (toasts w))%nat ->
  (p = CMBStorage.AwaitCleanup -> announced w0 w) ->
  (p = CMBStorage.AwaitBackoff -> (1 <= a)%nat) ->
  writes (CMBStorage.serialize m data) p ->
  let q' := CMBStorage.settle h (lone key data a p m w) in
  (at_rest q' /\ (storage (CMBStorage.world q') !! key = Some (CMBStorage.serialize m data)
                  \/ announced w0 (CMBStorage.world q')))
  \/ exists a' p' w',
       q' = lone key data a' p' m w'
       /\ (p' = CMBStorage.AwaitCleanup \/ a' < 3)%nat /\ (budget a' p' <= n)%nat
       /\ (length (toasts w0) <= length (toasts w'))%nat
       /\ (p' = CMBStorage.AwaitCleanup -> announced w0 w')
       /\ (p' = CMBStorage.AwaitBackoff -> (1 <= a')%nat)
       /\ writes (CMBStorage.serialize m data) p'.
Proof.
  intros Ha Hb Ht Hc Hbo Hi q'. subst q'. unfold CMBStorage.settle, lone.
  cbn [CMBStorage.drain CMBStorage.phase CMBStorage.world].
  destruct p as [|items| |]; simpl in Hb.
  - (* the quota check *)
    destruct Ha as [?|Ha]; [done|].
    destruct (checkStorageQuota_outcome h w) as (b & w' & -> & Hle & Hann).
    destruct b.
    + right. exists a, (CMBStorage.AwaitSet (CMBStorage.serialize m data)), w'.
      split; [reflexivity|].
      split; [by right|]. split; [simpl; lia|]. split; [lia|]. repeat split; done.
    + left. unfold at_rest. simpl. split; [done|]. right.
      specialize (Hann eq_refl). unfold announced in *. lia.
  - (* the write *)
    destruct Ha as [?|Ha]; [done|]. simpl in Hi. subst items.
    cbn [CMBStorage.queueKey CMBStorage.queueData].
    destruct (chrome_storage_set_script {[ key := CMBStorage.serialize m data ]} w)
      as (s & [->|(e & ->)]).
    + left. unfold at_rest. simpl. split; [done|]. left.
      apply lookup_union_Some_l, lookup_singleton_eq.
    + unfold CMBStorage.on_save_error.
      cbn [CMBStorage.retries CMBStorage.iter_pos CMBStorage.queueKey CMBStorage.queueData
           CMBStorage.attempts CMBStorage.phase].
      destruct (CMBStorage.is_quota_error e).
      * right.
        exists (S a), CMBStorage.AwaitCleanup,
          (add_toast ToastStorageFullExport (with_kv_script s w)).
        split; [reflexivity|]. split; [by left|]. split; [simpl; lia|].
        unfold announced. simpl. rewrite length_app. simpl.
        split; [lia|]. split; [intros _; lia|done].
      * destruct (Nat.leb_spec 3 (S a)) as [Hlast|Hmore].
        -- left. unfold at_rest. simpl. split; [done|]. right.
           unfold announced.
           cbn [toasts add_toast CMBStorage.world CMBStorage.next_entry CMBStorage.with_world].
           rewrite length_app. cbn [length toasts with_kv_script]. lia.
        -- right. exists (S a), CMBStorage.AwaitBackoff, (with_kv_script s w).
           split; [reflexivity|]. split; [right; lia|]. split; [simpl; lia|].
           split; [simpl; lia|]. split; [done|]. split; [intros _; lia|done].
  - (* the cleanup after a quota error *)
    left. unfold at_rest. simpl. split; [done|]. right.
    pose proof (keeps_toasts_cleanupOldSessions w) as Hk.
    specialize (Hc eq_refl). unfold announced in *. lia.
  - (* the pause before the next attempt *)
    destruct Ha as [?|Ha]; [done|]. specialize (Hbo eq_refl).
    right. exists a, CMBStorage.AwaitQuota, w. split; [reflexivity|].
    split; [by right|]. split; [simpl; lia|]. split; [done|]. repeat split; done.
Qed.

Lemma repeat_settle_at_rest (h : Host) (n : nat) (q : CMBStorage.Queue) :
  at_rest q -> CMBStorage.run h (repeat CMBStorage.Settle n) q = q.
Proof.
  intros Hq. induction n as [|n IH]; [reflexivity|].
  unfold CMBStorage.run in *. cbn [repeat List.fold_left CMBStorage.step].
  by rewrite (settle_at_rest h q Hq).
Qed.

Lemma lone_drains (h : Host) (key : string) (data : CMBStorage.Data)
    (m : CMBStorage.Memory) (w0 : World) (n : nat) :
  forall (a : nat) (p : CMBStorage.Phase) (w : World),
  (p = CMBStorage.AwaitCleanup \/ a < 3)%nat -> (budget a p <= n)%nat ->
  (length (toasts w0) <= length (toasts w))%nat ->
  (p = CMBStorage.AwaitCleanup -> announced w0 w) ->
  (p = CMBStorage.AwaitBackoff -> (1 <= a)%nat) ->
  writes (CMBStorage.serialize m data) p ->
  let q' := CMBStorage.run h (repeat CMBStorage.Settle n) (lone key data a p m w) in
  at_rest q' /\ (storage (CMBStorage.world q') !! key = Some (CMBStorage.serialize m data)
                 \/ announced w0 (CMBStorage.world q')).
Proof.
  induction n as [|n IH]; intros a p w Ha Hb Ht Hc Hbo Hi.
  - exfalso. destruct p; simpl in Hb; destruct Ha as [?|Ha]; try done; lia.
  - cbv zeta. unfold CMBStorage.run. cbn [repeat List.fold_left CMBStorage.step].
    fold (CMBStorage.run h (repeat CMBStorage.Settle n)
            (CMBStorage.settle h (lone key data a p m w))).
    destruct (lone_settles h key data m w0 a p w n Ha Hb Ht Hc Hbo Hi)
      as [[Hrest Hout]|(a' & p' & w' & -> & Ha' & Hb' & Ht' & Hc' & Hbo' & Hi')].
    + by rewrite (repeat_settle_at_rest h n _ Hrest).
    + by apply IH.
Qed.

(** X16. A single [queuedSave(key, data)] on a queue at rest is never lost
    silently, whatever chrome.storage.local does: after at most nine of the
    promises it awaits have settled the queue is at rest again, with
    nothing queued and [saveInProgress] reset, and either [data], as
    serialised, is stored under [key] or a toast has been shown. *)
Theorem lone_save_written_or_announced
    (h : Host) (key : string) (data : CMBStorage.Data) (m : CMBStorage.Memory) (w : World) :
  let q := CMBStorage.run h (CMBStorage.Call key data :: repeat CMBStorage.Settle 9)
             (CMBStorage.idle m w) in
  at_rest q
  /\ (storage (CMBStorage.world q) !! key = Some (CMBStorage.serialize m data)
      \/ announced w (CMBStorage.world q)).
Proof.
  cbv zeta.
  pose proof (lone_drains h key data m w 9 0%nat CMBStorage.AwaitQuota w) as H.
  cbv zeta in H.
  replace (CMBStorage.run h (CMBStorage.Call key data :: repeat CMBStorage.Settle 9)
             (CMBStorage.idle m w))
    with (CMBStorage.run h (repeat CMBStorage.Settle 9)
            (lone key data 0 CMBStorage.AwaitQuota m w))
    by (symmetry; apply (run_app h [CMBStorage.Call key data])).
  apply H.
  - right. lia.
  - simpl. lia.
  - lia.
  - done.
  - done.
  - done.
Qed.

(** X27. The daily gate lets the sweep through.  When chrome.storage.local
    answers and the recorded [lastCleanup] (or [0] without one) is more
    than 24 hours old, [checkAndRunProgressiveCleanup] leaves the stores as
    [progressiveCleanup] does and records the current time as
    [lastCleanup]. *)
Theorem gate_opens_after_a_day (w : World) :
  kv_reliable w ->
  Overlay.lastCleanup_or_0 (settings_of (storage w)) < clock w - 24 * 60 * 60 * 1000 ->
  snd (Overlay.checkAndRunProgressiveCleanup w) = snd (CMBStorage.progressiveCleanup w)
  /\ fst (Overlay.checkAndRunProgressiveCleanup w) = Ok tt
  /\ lastCleanup (settings_of (storage (snd (Overlay.checkAndRunProgressiveCleanup w))))
     = Some (clock w).
Proof.
  intros Hok Hold.
  assert (E : Overlay.checkAndRunProgressiveCleanup w
              = (Ok tt, snd (CMBStorage.progressiveCleanup w))).
  { unfold Overlay.checkAndRunProgressiveCleanup, try_catch.
    unfold bind at 1. rewrite (getSettings_reliable w Hok).
    unfold bind at 1. unfold Date_now, gets.
    destruct (Z.ltb_spec (Overlay.lastCleanup_or_0 (settings_of (storage w)))
                (clock w - 24 * 60 * 60 * 1000)) as [_|Hge]; [|lia].
    unfold bind. destruct (progressiveCleanup_reliable w Hok) as [n ->]. reflexivity. }
  rewrite E. cbn [fst snd]. split; [done|]. split; [done|].
  by apply progressiveCleanup_records_run.
Qed.

Lemma gate_opens_after_a_day_witness :
  kv_reliable Examples.aged
  /\ Overlay.lastCleanup_or_0 (settings_of (storage Examples.aged))
     < clock Examples.aged - 24 * 60 * 60 * 1000
  /\ lastCleanup (settings_of (storage (snd (Overlay.checkAndRunProgressiveCleanup
                                               Examples.aged))))
     = Some (200 * CMBStorage.DAY_MS).
Proof.
  split; [reflexivity|]. split; [reflexivity|].
  exact (proj2 (proj2 (gate_opens_after_a_day Examples.aged eq_refl eq_refl))).
Defined.

Lemma resolve_set (m : CMBStorage.Memory) (k : string) (r : CMBStorage.Ref)
    (ss : JS.Obj Session) :
  List.map (fun entry => (fst entry, CMBStorage.resolve m (snd entry)))
    (JS.set k (CMBStorage.Shared r)
       (List.map (fun entry => (fst entry, CMBStorage.Own (snd entry))) ss))
  = JS.set k (m r) ss.
Proof.
  induction ss as [|[k' s] ss IH]; [reflexivity|].
  cbn [List.map JS.set fst snd]. destruct (String.eqb k k').
  - cbn [List.map fst snd CMBStorage.resolve]. f_equal.
    rewrite List.map_map. cbn [fst snd CMBStorage.resolve].
    clear. induction ss as [|[k1 s1] ss IH]; [reflexivity|].
    cbn [List.map fst snd]. by rewrite IH.
  - cbn [List.map fst snd CMBStorage.resolve]. by rewrite IH.
Qed.

(** X28. A single [saveSession(session, key)] on a page at rest, with
    chrome.storage.local answering, the stored data below the warning level
    and a key that names no member of [Object.prototype], is written once
    its read is answered and the quota check and the write have settled:
    the queue is at rest, [getSession] of the resolved key resolves to what
    the session object holds, with [updatedAt] the time of the call, the
    other sessions are as before and no toast is shown. *)
Theorem saveSession_then_getSession
    (h : Host) (session : CMBStorage.Ref) (key : option string)
    (m : CMBStorage.Memory) (w : World) :
  kv_reliable w -> json_size h (storage w) < CMBStorage.warningLevel ->
  let k := CMBStorage.resolve_key h (clock w) (url (m session)) key in
  JS.is_inherited k = false ->
  let q := CMBStorage.run h
             [CMBStorage.Save session key; CMBStorage.Answer; CMBStorage.Settle;
              CMBStorage.Settle]
             (CMBStorage.idle m w) in
  at_rest q
  /\ fst (CMBStorage.getSession k (CMBStorage.world q))
     = Ok (Some (CMBStorage.stamp (clock w) (m session)))
  /\ (forall k', k' <> k -> JS.is_inherited k' = false ->
        fst (CMBStorage.getSession k' (CMBStorage.world q)) = fst (CMBStorage.getSession k' w))
  /\ toasts (CMBStorage.world q) = toasts w.
Proof.
  intros Hok Hlow k _ q.
  set (m1 := CMBStorage.assign session (CMBStorage.stamp (clock w) (m session)) m).
  set (sessions := JS.set k (CMBStorage.stamp (clock w) (m session))
                     (CMBStorage.sessions_of (storage w))).
  set (collection :=
         CMBStorage.Collection
           (JS.set k (CMBStorage.Shared session)
              (List.map (fun entry => (fst entry, CMBStorage.Own (snd entry)))
                 (CMBStorage.sessions_of (storage w))))).
  assert (Hser : CMBStorage.serialize m1 collection = VSessions sessions).
  { unfold collection, sessions. cbn [CMBStorage.serialize]. rewrite resolve_set.
    unfold m1, CMBStorage.assign. by rewrite Nat.eqb_refl. }
  assert (Hq : q = resting [] m1
                     (add_effect (KvSet {[ CMBStorage.SESSIONS_KEY := VSessions sessions ]})
                        (with_storage
                           ({[ CMBStorage.SESSIONS_KEY := VSessions sessions ]} ∪ storage w) w))).
  { subst q.
    change (CMBStorage.run h [CMBStorage.Save session key; CMBStorage.Answer;
                              CMBStorage.Settle; CMBStorage.Settle] (CMBStorage.idle m w))
      with (CMBStorage.step h
              (CMBStorage.step h
                 (CMBStorage.answer (resting [(session, k)] m1 w)) CMBStorage.Settle)
              CMBStorage.Settle).
    unfold CMBStorage.answer. cbn [resting CMBStorage.reads CMBStorage.world].
    rewrite (chrome_storage_get_reliable _ w Hok).
    rewrite sessions_of_filter by (apply list_elem_of_In; by left).
    fold collection.
    match goal with |- context [CMBStorage.queuedSave ?a ?b ?c ?d] =>
      change (CMBStorage.queuedSave a b c d)
        with (draining CMBStorage.AwaitQuota CMBStorage.SESSIONS_KEY collection collection
                [] m1 w)
    end.
    rewrite (quota_check_settles h _ _ _ _ _ w Hok Hlow), Hser.
    by rewrite (write_settles h _ _ _ _ _ _ w Hok). }
  rewrite Hq. cbn [resting CMBStorage.world].
  match goal with |- context [CMBStorage.getSession k ?w1] =>
    assert (Hok1 : kv_reliable w1) by exact Hok;
    assert (Hss : CMBStorage.sessions_of (storage w1) = sessions)
      by (apply sessions_of_written, lookup_singleton_eq);
    set (w1' := w1) in *
  end.
  split; [done|]. split; [|split].
  - rewrite (getSession_reliable _ w1' Hok1). cbn [fst]. rewrite Hss. unfold sessions.
    by rewrite get_set_eq.
  - intros k' Hne _. rewrite (getSession_reliable _ w1' Hok1), (getSession_reliable _ w Hok).
    cbn [fst]. rewrite Hss. unfold sessions. by rewrite get_set_ne.
  - reflexivity.
Qed.

Lemma saveSession_then_getSession_witness :
  kv_reliable (Browser.fresh 5000)
  /\ json_size (Browser.host_with_size 100) (storage (Browser.fresh 5000))
     < CMBStorage.warningLevel
  /\ JS.is_inherited "k" = false
  /\ fst (CMBStorage.getSession "k"
            (CMBStorage.world
               (CMBStorage.run (Browser.host_with_size 100)
                  [CMBStorage.Save 3%nat (Some "k"); CMBStorage.Answer; CMBStorage.Settle;
                   CMBStorage.Settle]
                  (CMBStorage.idle Examples.objects (Browser.fresh 5000)))))
     = Ok (Some (CMBStorage.stamp 5000 (Examples.marked 2))).
Proof.
  split; [reflexivity|]. split; [reflexivity|]. split; [reflexivity|].
  exact (proj1 (proj2 (saveSession_then_getSession (Browser.host_with_size 100)
                         3%nat (Some "k") Examples.objects (Browser.fresh 5000)
                         eq_refl eq_refl eq_refl))).
Defined.

(** ** Deep links *)

(** ** Text *)

Lemma append_cons (x : ascii) (a b : string) : String x a +:+ b = String x (a +:+ b).
Proof. reflexivity. Qed.

Lemma append_nil_l (b : string) : EmptyString +:+ b = b.
Proof. reflexivity. Qed.

Lemma append_assoc (a b c : string) : (a +:+ b) +:+ c = a +:+ b +:+ c.
Proof. induction a as [|x a IH]; [done|]. by rewrite !append_cons, IH. Qed.

Lemma append_nil_r (a : string) : a +:+ EmptyString = a.
Proof. induction a as [|x a IH]; [done|]. by rewrite append_cons, IH. Qed.

Lemma take_digits_uint (d : Decimal.uint) (rest : string) :
  JS.take_digits (DecimalString.NilEmpty.string_of_uint d +:+ rest)
  = DecimalString.NilEmpty.string_of_uint d +:+ JS.take_digits rest.
Proof.
  induction d; cbn [DecimalString.NilEmpty.string_of_uint]; [done|..];
    rewrite !append_cons; cbn [JS.take_digits]; by rewrite IHd.
Qed.

Lemma drop_digits_uint (d : Decimal.uint) (rest : string) :
  JSText.drop_digits (DecimalString.NilEmpty.string_of_uint d +:+ rest)
  = JSText.drop_digits rest.
Proof.
  induction d; cbn [DecimalString.NilEmpty.string_of_uint]; [done|..];
    rewrite !append_cons; cbn [JSText.drop_digits]; by rewrite IHd.
Qed.

Lemma digits_only_uint (d : Decimal.uint) (rest : string) :
  JSText.digits_only (DecimalString.NilEmpty.string_of_uint d +:+ rest)
  = DecimalString.NilEmpty.string_of_uint d +:+ JSText.digits_only rest.
Proof.
  induction d; cbn [DecimalString.NilEmpty.string_of_uint]; [done|..];
    rewrite !append_cons; cbn [JSText.digits_only]; by rewrite IHd.
Qed.

(** The decimal numeral of a natural number. *)
Lemma of_Z_uint (n : Z) :
  0 <= n ->
  exists d, JS.of_Z n = DecimalString.NilEmpty.string_of_uint d
            /\ d <> Decimal.Nil /\ Z.of_uint d = n.
Proof.
  intros Hn. unfold JS.of_Z.
  pose proof (DecimalZ.of_to n) as Hof.
  destruct n as [|p|p]; [| |lia]; simpl in *.
  - exists (Decimal.D0 Decimal.Nil). by repeat split.
  - exists (Pos.to_uint p). split; [|split].
    + unfold DecimalString.NilZero.string_of_uint.
      destruct (Pos.to_uint p) eqn:E; [|done..].
      by apply DecimalPos.Unsigned.to_uint_nonnil in E.
    + apply DecimalPos.Unsigned.to_uint_nonnil.
    + exact Hof.
Qed.

Lemma uint_nonempty (d : Decimal.uint) :
  d <> Decimal.Nil -> DecimalString.NilEmpty.string_of_uint d <> EmptyString.
Proof. by destruct d. Qed.

Lemma of_Z_nonempty (n : Z) : 0 <= n -> JS.of_Z n <> EmptyString.
Proof.
  intros Hn. destruct (of_Z_uint n Hn) as (d & -> & Hd & _). by apply uint_nonempty.
Qed.

Lemma take_digits_of_Z (n : Z) (rest : string) :
  0 <= n -> JS.take_digits (JS.of_Z n +:+ rest) = JS.of_Z n +:+ JS.take_digits rest.
Proof. intros Hn. destruct (of_Z_uint n Hn) as (d & -> & _). apply take_digits_uint. Qed.

Lemma drop_digits_of_Z (n : Z) (rest : string) :
  0 <= n -> JSText.drop_digits (JS.of_Z n +:+ rest) = JSText.drop_digits rest.
Proof. intros Hn. destruct (of_Z_uint n Hn) as (d & -> & _). apply drop_digits_uint. Qed.

Lemma digits_only_of_Z (n : Z) (rest : string) :
  0 <= n -> JSText.digits_only (JS.of_Z n +:+ rest) = JS.of_Z n +:+ JSText.digits_only rest.
Proof. intros Hn. destruct (of_Z_uint n Hn) as (d & -> & _). apply digits_only_uint. Qed.

Lemma digits_value_of_Z (n : Z) : 0 <= n -> JSText.digits_value (JS.of_Z n) = n.
Proof.
  intros Hn. destruct (of_Z_uint n Hn) as (d & -> & _ & Hv).
  unfold JSText.digits_value. by rewrite DecimalString.NilEmpty.usu.
Qed.

Lemma eqb_nonempty (s : string) : s <> EmptyString -> String.eqb s EmptyString = false.
Proof. by destruct s. Qed.

Lemma take_digits_numeral (n : Z) : 0 <= n -> JS.take_digits (JS.of_Z n) = JS.of_Z n.
Proof.
  intros Hn. rewrite <- (append_nil_r (JS.of_Z n)) at 1.
  rewrite take_digits_of_Z by done. apply append_nil_r.
Qed.

Lemma parseInt_of_Z (n : Z) : 0 <= n -> JSText.parseInt (JS.of_Z n) = Some n.
Proof.
  intros Hn. unfold JSText.parseInt. rewrite take_digits_numeral by done.
  rewrite eqb_nonempty by by apply of_Z_nonempty.
  by rewrite digits_value_of_Z.
Qed.

(** ** Search parameters *)

Lemma searchParams_get_set (name value : string) (ps : list (string * string)) :
  searchParams_get name (CMBDeepLinks.searchParams_set name value ps) = Some value.
Proof.
  induction ps as [|[k v] ps IH]; simpl.
  - by rewrite String.eqb_refl.
  - destruct (String.eqb_spec name k) as [->|Hne]; simpl.
    + by rewrite String.eqb_refl.
    + by destruct (String.eqb_spec name k).
Qed.

Lemma append_nonempty_l (a b : string) : a <> EmptyString -> a +:+ b <> EmptyString.
Proof. by destruct a. Qed.

(** X17. The time of a YouTube deep link is read back.  For a URL of a
    YouTube host and a whole number of seconds from [0] to
    [Number.MAX_SAFE_INTEGER], [parseTimeFromUrl(buildDeepLink(url,
    seconds))] is [seconds], provided the browser parses the link it
    serialized into the same URL object. *)
Theorem youtube_link_round_trip (lh : LinkHost) (url : string) (urlObj : URLObj) (seconds : Z) :
  new_URL lh url = Some urlObj ->
  CMBDeepLinks.is_youtube (JS.toLowerCase (link_hostname urlObj)) = true ->
  new_URL lh (toString lh (CMBDeepLinks.youtubeTimed urlObj seconds))
  = Some (CMBDeepLinks.youtubeTimed urlObj seconds) ->
  0 <= seconds <= JSText.MAX_SAFE_INTEGER ->
  CMBDeepLinks.parseTimeFromUrl lh (CMBDeepLinks.buildDeepLink lh url seconds) = Some seconds.
Proof.
  intros Hurl Hyt Hback [Hs _].
  unfold CMBDeepLinks.buildDeepLink. rewrite Hurl. cbv zeta. rewrite Hyt.
  unfold CMBDeepLinks.buildYouTubeLink, CMBDeepLinks.parseTimeFromUrl. rewrite Hback.
  cbv zeta.
  assert (Hhost : link_hostname (CMBDeepLinks.youtubeTimed urlObj seconds)
                  = link_hostname urlObj).
  { unfold CMBDeepLinks.youtubeTimed. by destruct (String.eqb _ "youtu.be"). }
  rewrite Hhost, Hyt.
  assert (Ht : exists t, searchParams_get "t"
                           (link_searchParams (CMBDeepLinks.youtubeTimed urlObj seconds))
                         = Some t
                         /\ t <> EmptyString
                         /\ JSText.digits_only t = JS.of_Z seconds).
  { unfold CMBDeepLinks.youtubeTimed.
    destruct (String.eqb _ "youtu.be"); simpl; rewrite searchParams_get_set;
      eexists; (split; [reflexivity|]); split.
    - by apply of_Z_nonempty.
    - rewrite <- (append_nil_r (JS.of_Z seconds)) at 1.
      rewrite digits_only_of_Z by done. simpl. by rewrite append_nil_r.
    - apply append_nonempty_l. by apply of_Z_nonempty.
    - rewrite digits_only_of_Z by done. simpl. by rewrite append_nil_r. }
  destruct Ht as (t & -> & Hne & Hd).
  rewrite !truthy_Some by done. rewrite Hd. by rewrite parseInt_of_Z.
Qed.

Lemma youtube_link_round_trip_witness :
  new_URL BrowserLinks.host "https://www.youtube.com/watch?v=abc&t=5s"
  = Some {| link_hostname := "www.youtube.com"; link_pathname := "/watch";
            link_searchParams := [("v", "abc"); ("t", "5s")]; link_hash := EmptyString |}
  /\ CMBDeepLinks.buildDeepLink BrowserLinks.host "https://www.youtube.com/watch?v=abc&t=5s" 3725
     = "https://www.youtube.com/watch?v=abc&t=3725s"
  /\ CMBDeepLinks.parseTimeFromUrl BrowserLinks.host
       (CMBDeepLinks.buildDeepLink BrowserLinks.host "https://www.youtube.com/watch?v=abc&t=5s"
          3725)
     = Some 3725.
Proof.
  split; [reflexivity|]. split; [reflexivity|].
  apply (youtube_link_round_trip BrowserLinks.host "https://www.youtube.com/watch?v=abc&t=5s"
           {| link_hostname := "www.youtube.com"; link_pathname := "/watch";
              link_searchParams := [("v", "abc"); ("t", "5s")]; link_hash := EmptyString |}
           3725).
  - reflexivity.
  - reflexivity.
  - reflexivity.
  - split; intros H; discriminate H.
Defined.

Lemma eqb_app_cons (a : string) (c : ascii) (r : string) :
  String.eqb (a +:+ String c r) EmptyString = false.
Proof. by destruct a. Qed.

Lemma take_digits_stop (c : ascii) (rest : string) :
  JS.is_digit c = false -> JS.take_digits (String c rest) = EmptyString.
Proof. intros H. cbn [JS.take_digits]. by rewrite H. Qed.

Lemma drop_digits_stop (c : ascii) (rest : string) :
  JS.is_digit c = false -> JSText.drop_digits (String c rest) = String c rest.
Proof. intros H. cbn [JSText.drop_digits]. by rewrite H. Qed.

Lemma unit_group_hit (c : ascii) (n : Z) (rest : string) :
  0 <= n -> JS.is_digit c = false ->
  CMBDeepLinks.unit_group c (JS.of_Z n +:+ String c rest) = (Some (JS.of_Z n), rest).
Proof.
  intros Hn Hc. unfold CMBDeepLinks.unit_group.
  rewrite take_digits_of_Z, drop_digits_of_Z by done.
  rewrite take_digits_stop, drop_digits_stop by done. rewrite append_nil_r.
  rewrite eqb_nonempty by by apply of_Z_nonempty.
  by rewrite Ascii.eqb_refl.
Qed.

Lemma unit_group_miss (c c' : ascii) (n : Z) (rest : string) :
  0 <= n -> JS.is_digit c' = false -> c' <> c ->
  CMBDeepLinks.unit_group c (JS.of_Z n +:+ String c' rest)
  = (None, JS.of_Z n +:+ String c' rest).
Proof.
  intros Hn Hc Hne. unfold CMBDeepLinks.unit_group.
  rewrite drop_digits_of_Z by done. rewrite drop_digits_stop by done.
  destruct (Ascii.eqb_spec c' c); [done|]. by rewrite andb_false_r.
Qed.

Lemma twitchSeconds_twitchTime (seconds : Z) :
  0 <= seconds -> CMBDeepLinks.twitchSeconds (CMBDeepLinks.twitchTime seconds) = seconds.
Proof.
  intros Hs. unfold CMBDeepLinks.twitchTime. cbv zeta.
  assert (Hh : 0 <= seconds / 3600) by (apply Z.div_pos; lia).
  assert (Hr : Z.rem seconds 3600 = seconds mod 3600) by (apply Z.rem_mod_nonneg; lia).
  assert (Hr' : Z.rem seconds 60 = seconds mod 60) by (apply Z.rem_mod_nonneg; lia).
  rewrite Hr, Hr'.
  assert (Hm : 0 <= seconds mod 3600 / 60) by (apply Z.div_pos; [apply Z.mod_pos_bound|]; lia).
  assert (Hsec : 0 <= seconds mod 60) by (apply Z.mod_pos_bound; lia).
  assert (Hsum : seconds / 3600 * 3600 + seconds mod 3600 / 60 * 60 + seconds mod 60 = seconds).
  { pose proof (Z.div_mod seconds 3600 ltac:(lia)).
    pose proof (Z.div_mod (seconds mod 3600) 60 ltac:(lia)).
    pose proof (Z.mod_pos_bound seconds 3600 ltac:(lia)).
    pose proof (Z.mod_pos_bound (seconds mod 3600) 60 ltac:(lia)).
    pose proof (Z.div_mod seconds 60 ltac:(lia)).
    pose proof (Z.mod_pos_bound seconds 60 ltac:(lia)).
    lia. }
  set (h := seconds / 3600) in *. set (m := seconds mod 3600 / 60) in *.
  set (sec := seconds mod 60) in *.
  rewrite <- Hsum. clearbody h m sec. clear Hsum Hr Hr' Hs.
  unfold CMBDeepLinks.twitchSeconds.
  destruct (Z.ltb_spec 0 h) as [Hh1|Hh0]; destruct (Z.ltb_spec 0 m) as [Hm1|Hm0];
    destruct (Z.ltb_spec 0 sec) as [Hs1|Hs0];
    rewrite ?append_nil_l, ?append_assoc, ?append_cons, ?append_nil_l, ?eqb_app_cons;
    cbn [orb String.eqb];
    rewrite ?append_nil_l, ?append_assoc, ?append_cons, ?append_nil_l;
    repeat first
      [ rewrite unit_group_hit by done
      | rewrite unit_group_miss by done ];
    cbn [CMBDeepLinks.unit_group JS.take_digits JSText.drop_digits];
    unfold CMBDeepLinks.group_value; rewrite ?digits_value_of_Z by done; try lia.
Qed.

Lemma app_cons_nonempty (a : string) (c : ascii) (r : string) :
  a +:+ String c r <> EmptyString.
Proof. by destruct a. Qed.

Lemma twitchTime_nonempty (seconds : Z) : CMBDeepLinks.twitchTime seconds <> EmptyString.
Proof.
  unfold CMBDeepLinks.twitchTime. cbv zeta.
  destruct (0 <? seconds / 3600); destruct (0 <? Z.rem seconds 3600 / 60);
    destruct (0 <? Z.rem seconds 60);
    rewrite ?append_nil_l, ?append_assoc, ?append_cons, ?append_nil_l, ?eqb_app_cons;
    cbn [orb String.eqb];
    rewrite ?append_nil_l, ?append_assoc, ?append_cons, ?append_nil_l;
    apply app_cons_nonempty.
Qed.

(** X18. The time of a Twitch deep link, written as hours, minutes and
    seconds with the zero units left out, is read back: for a URL of a
    Twitch host that is not also a YouTube host and a whole number of
    seconds from [0] to [Number.MAX_SAFE_INTEGER],
    [parseTimeFromUrl(buildDeepLink(url, seconds))] is [seconds], provided
    the browser parses the link it serialized into the same URL object. *)
Theorem twitch_link_round_trip (lh : LinkHost) (url : string) (urlObj : URLObj) (seconds : Z) :
  new_URL lh url = Some urlObj ->
  CMBDeepLinks.is_youtube (JS.toLowerCase (link_hostname urlObj)) = false ->
  JS.includes "twitch.tv" (JS.toLowerCase (link_hostname urlObj)) = true ->
  new_URL lh (toString lh (CMBDeepLinks.twitchTimed urlObj seconds))
  = Some (CMBDeepLinks.twitchTimed urlObj seconds) ->
  0 <= seconds <= JSText.MAX_SAFE_INTEGER ->
  CMBDeepLinks.parseTimeFromUrl lh (CMBDeepLinks.buildDeepLink lh url seconds) = Some seconds.
Proof.
  intros Hurl Hyt Htw Hback [Hs _].
  unfold CMBDeepLinks.buildDeepLink. rewrite Hurl. cbv zeta. rewrite Hyt, Htw.
  unfold CMBDeepLinks.buildTwitchLink, CMBDeepLinks.parseTimeFromUrl. rewrite Hback.
  cbv zeta.
  change (link_hostname (CMBDeepLinks.twitchTimed urlObj seconds)) with (link_hostname urlObj).
  rewrite Hyt, Htw. unfold CMBDeepLinks.twitchTimed.
  cbn [link_searchParams CMBDeepLinks.with_searchParams].
  rewrite searchParams_get_set.
  rewrite truthy_Some by apply twitchTime_nonempty.
  by rewrite twitchSeconds_twitchTime.
Qed.

Lemma twitch_link_round_trip_witness :
  new_URL BrowserLinks.host "https://www.twitch.tv/videos/123?t=1s"
  = Some {| link_hostname := "www.twitch.tv"; link_pathname := "/videos/123";
            link_searchParams := [("t", "1s")]; link_hash := EmptyString |}
  /\ CMBDeepLinks.buildDeepLink BrowserLinks.host "https://www.twitch.tv/videos/123?t=1s" 3725
     = "https://www.twitch.tv/videos/123?t=1h2m5s"
  /\ CMBDeepLinks.parseTimeFromUrl BrowserLinks.host
       (CMBDeepLinks.buildDeepLink BrowserLinks.host "https://www.twitch.tv/videos/123?t=1s" 3725)
     = Some 3725.
Proof.
  split; [reflexivity|]. split; [reflexivity|].
  apply (twitch_link_round_trip BrowserLinks.host "https://www.twitch.tv/videos/123?t=1s"
           {| link_hostname := "www.twitch.tv"; link_pathname := "/videos/123";
              link_searchParams := [("t", "1s")]; link_hash := EmptyString |}
           3725).
  - reflexivity.
  - reflexivity.
  - reflexivity.
  - reflexivity.
  - split; intros H; discriminate H.
Defined.

Lemma substring_all (s : string) : String.substring 0 (String.length s) s = s.
Proof. induction s as [|c s IH]; [done|]. cbn [String.length String.substring]. by rewrite IH. Qed.

Lemma vimeo_match_here_t (rest : string) :
  CMBDeepLinks.vimeo_match_here (String "#" (String "t" (String "=" rest)))
  = let ds := JS.take_digits rest in
    if String.eqb ds EmptyString then None
    else
      match JSText.drop_digits rest with
      | String "m" rest' =>
          let ds2 := JS.take_digits rest' in
          if String.eqb ds2 EmptyString then Some (None, ds) else Some (Some ds, ds2)
      | _ => Some (None, ds)
      end.
Proof.
  unfold CMBDeepLinks.vimeo_match_here.
  assert (Hp : String.prefix "#t=" (String "#" (String "t" (String "=" rest))) = true)
    by (simpl; by destruct rest).
  rewrite Hp.
  change (String.substring 3 (String.length (String "#" (String "t" (String "=" rest))) - 3)
            (String "#" (String "t" (String "=" rest))))
    with (String.substring 0 (String.length rest - 0) rest).
  by rewrite Nat.sub_0_r, substring_all.
Qed.

Lemma vimeo_match_vimeoTimed (urlObj : URLObj) (seconds : Z) :
  0 <= seconds ->
  exists minutes secs,
    CMBDeepLinks.vimeo_match (link_hash (CMBDeepLinks.vimeoTimed urlObj seconds))
    = Some (minutes, secs)
    /\ CMBDeepLinks.group_value minutes * 60 + JSText.digits_value secs = seconds
    /\ link_hash (CMBDeepLinks.vimeoTimed urlObj seconds) <> EmptyString.
Proof.
  intros Hs. unfold CMBDeepLinks.vimeoTimed. cbv zeta.
  assert (Hr : Z.rem seconds 60 = seconds mod 60) by (apply Z.rem_mod_nonneg; lia).
  rewrite Hr.
  assert (Hm : 0 <= seconds / 60) by (apply Z.div_pos; lia).
  assert (Hsec : 0 <= seconds mod 60) by (apply Z.mod_pos_bound; lia).
  pose proof (Z.div_mod seconds 60 ltac:(lia)) as Hdm.
  destruct (Z.ltb_spec 0 (seconds / 60)) as [Hpos|Hzero];
    unfold CMBDeepLinks.with_hash; cbn [link_hash];
    rewrite ?append_cons, ?append_nil_l; cbn [String.eqb Ascii.eqb Bool.eqb];
    rewrite ?append_cons, ?append_nil_l;
    unfold CMBDeepLinks.vimeo_match; rewrite vimeo_match_here_t; cbv zeta.
  - rewrite take_digits_of_Z, drop_digits_of_Z by done.
    rewrite take_digits_stop, drop_digits_stop by done. rewrite append_nil_r.
    rewrite eqb_nonempty by by apply of_Z_nonempty.
    rewrite take_digits_of_Z by done. rewrite take_digits_stop by done. rewrite append_nil_r.
    rewrite eqb_nonempty by by apply of_Z_nonempty.
    do 2 eexists. split; [reflexivity|]. split; [|done].
    unfold CMBDeepLinks.group_value. rewrite !digits_value_of_Z by done. lia.
  - rewrite take_digits_of_Z, drop_digits_of_Z by done.
    rewrite take_digits_stop, drop_digits_stop by done. rewrite append_nil_r.
    rewrite eqb_nonempty by by apply of_Z_nonempty.
    do 2 eexists. split; [reflexivity|]. split; [|done].
    unfold CMBDeepLinks.group_value. rewrite !digits_value_of_Z by done. lia.
Qed.

(** X19. The time of a Vimeo deep link, written into the fragment as
    minutes and seconds, is read back: for a URL of a Vimeo host that is
    neither a YouTube nor a Twitch host and a whole number of seconds from
    [0] to [Number.MAX_SAFE_INTEGER], [parseTimeFromUrl(buildDeepLink(url,
    seconds))] is [seconds], provided the browser parses the link it
    serialized into the same URL object. *)
Theorem vimeo_link_round_trip (lh : LinkHost) (url : string) (urlObj : URLObj) (seconds : Z) :
  new_URL lh url = Some urlObj ->
  CMBDeepLinks.is_youtube (JS.toLowerCase (link_hostname urlObj)) = false ->
  JS.includes "twitch.tv" (JS.toLowerCase (link_hostname urlObj)) = false ->
  JS.includes "vimeo.com" (JS.toLowerCase (link_hostname urlObj)) = true ->
  new_URL lh (toString lh (CMBDeepLinks.vimeoTimed urlObj seconds))
  = Some (CMBDeepLinks.vimeoTimed urlObj seconds) ->
  0 <= seconds <= JSText.MAX_SAFE_INTEGER ->
  CMBDeepLinks.parseTimeFromUrl lh (CMBDeepLinks.buildDeepLink lh url seconds) = Some seconds.
Proof.
  intros Hurl Hyt Htw Hvi Hback [Hs _].
  unfold CMBDeepLinks.buildDeepLink. rewrite Hurl. cbv zeta. rewrite Hyt, Htw, Hvi.
  unfold CMBDeepLinks.buildVimeoLink, CMBDeepLinks.parseTimeFromUrl. rewrite Hback.
  cbv zeta.
  assert (Hhost : link_hostname (CMBDeepLinks.vimeoTimed urlObj seconds)
                  = link_hostname urlObj).
  { unfold CMBDeepLinks.vimeoTimed. cbv zeta. by destruct (0 <? seconds / 60). }
  rewrite Hhost, Hyt, Htw, Hvi.
  destruct (vimeo_match_vimeoTimed urlObj seconds Hs) as (minutes & secs & -> & Hv & Hne).
  rewrite eqb_nonempty by done. cbn [negb andb]. by rewrite Hv.
Qed.

Lemma vimeo_link_round_trip_witness :
  new_URL BrowserLinks.host "https://vimeo.com/123#chapter"
  = Some {| link_hostname := "vimeo.com"; link_pathname := "/123";
            link_searchParams := []; link_hash := "#chapter" |}
  /\ CMBDeepLinks.buildDeepLink BrowserLinks.host "https://vimeo.com/123#chapter" 3725
     = "https://vimeo.com/123#t=62m5s"
  /\ CMBDeepLinks.parseTimeFromUrl BrowserLinks.host
       (CMBDeepLinks.buildDeepLink BrowserLinks.host "https://vimeo.com/123#chapter" 3725)
     = Some 3725.
Proof.
  split; [reflexivity|]. split; [reflexivity|].
  apply (vimeo_link_round_trip BrowserLinks.host "https://vimeo.com/123#chapter"
           {| link_hostname := "vimeo.com"; link_pathname := "/123";
              link_searchParams := []; link_hash := "#chapter" |}
           3725).
  - reflexivity.
  - reflexivity.
  - reflexivity.
  - reflexivity.
  - reflexivity.
  - split; intros H; discriminate H.
Defined.

(** X20. Where [supportsDeepLinks(url)] is false (an unparsable URL or a
    host that is none of the three platforms), [buildDeepLink] returns the
    URL as it is and [parseTimeFromUrl] finds no time in it. *)
Theorem unsupported_link_unchanged (lh : LinkHost) (url : string) (seconds : Z) :
  CMBDeepLinks.supportsDeepLinks lh url = false ->
  CMBDeepLinks.buildDeepLink lh url seconds = url
  /\ CMBDeepLinks.parseTimeFromUrl lh url = None.
Proof.
  unfold CMBDeepLinks.supportsDeepLinks, CMBDeepLinks.buildDeepLink,
    CMBDeepLinks.parseTimeFromUrl, CMBDeepLinks.is_youtube.
  destruct (new_URL lh url) as [urlObj|]; [|done]. cbv zeta.
  destruct (JS.includes "youtube.com" _); [done|].
  destruct (JS.includes "youtu.be" _); [done|].
  destruct (JS.includes "twitch.tv" _); [done|].
  destruct (JS.includes "vimeo.com" _); [done|]. done.
Qed.

Lemma unsupported_link_unchanged_witness :
  CMBDeepLinks.supportsDeepLinks BrowserLinks.host "https://example.com/talks/7?t=90" = false
  /\ CMBDeepLinks.buildDeepLink BrowserLinks.host "https://example.com/talks/7?t=90" 3725
     = "https://example.com/talks/7?t=90"
  /\ CMBDeepLinks.parseTimeFromUrl BrowserLinks.host "https://example.com/talks/7?t=90" = None.
Proof.
  split; [reflexivity|].
  exact (unsupported_link_unchanged BrowserLinks.host "https://example.com/talks/7?t=90" 3725
           eq_refl).
Defined.

Lemma searchParams_get_delete_ne (name name' : string) (ps : list (string * string)) :
  name <> name' ->
  searchParams_get name (CMBDeepLinks.searchParams_delete name' ps) = searchParams_get name ps.
Proof.
  intros Hne. induction ps as [|[k v] ps IH]; [done|].
  unfold CMBDeepLinks.searchParams_delete in *. cbn [List.filter fst searchParams_get].
  destruct (String.eqb_spec name' k) as [<-|Hk]; cbn [negb searchParams_get].
  - destruct (String.eqb_spec name name'); [done|]. exact IH.
  - by rewrite IH.
Qed.

Lemma searchParams_get_set_ne (name name' value : string) (ps : list (string * string)) :
  name <> name' ->
  searchParams_get name (CMBDeepLinks.searchParams_set name' value ps)
  = searchParams_get name ps.
Proof.
  intros Hne. induction ps as [|[k v] ps IH]; cbn [CMBDeepLinks.searchParams_set searchParams_get].
  - by destruct (String.eqb_spec name name').
  - destruct (String.eqb_spec name' k) as [<-|Hk]; cbn [searchParams_get].
    + destruct (String.eqb_spec name name'); [done|].
      by apply searchParams_get_delete_ne.
    + by rewrite IH.
Qed.

Lemma linked_same_video (urlObj timed : URLObj) (seconds : Z) :
  linked urlObj seconds = Some timed ->
  link_hostname timed = link_hostname urlObj
  /\ link_pathname timed = link_pathname urlObj
  /\ searchParams_get "v" (link_searchParams timed)
     = searchParams_get "v" (link_searchParams urlObj).
Proof.
  unfold linked. cbv zeta.
  destruct (CMBDeepLinks.is_youtube _).
  { intros [= <-]. unfold CMBDeepLinks.youtubeTimed. cbv zeta.
    destruct (String.eqb _ "youtu.be"); cbn [link_hostname link_pathname link_searchParams
                                              CMBDeepLinks.with_searchParams];
      (split; [done|]); (split; [done|]);
      rewrite searchParams_get_set_ne by done;
      by rewrite !searchParams_get_delete_ne by done. }
  destruct (JS.includes "twitch.tv" _).
  { intros [= <-]. unfold CMBDeepLinks.twitchTimed. cbv zeta.
    cbn [link_hostname link_pathname link_searchParams CMBDeepLinks.with_searchParams].
    split; [done|]. split; [done|].
    rewrite searchParams_get_set_ne by done.
    by rewrite searchParams_get_delete_ne by done. }
  destruct (JS.includes "vimeo.com" _); [|done].
  intros [= <-]. unfold CMBDeepLinks.vimeoTimed. cbv zeta.
  by destruct (0 <? seconds / 60).
Qed.

Lemma buildDeepLink_linked (lh : LinkHost) (url : string) (urlObj : URLObj) (seconds : Z) :
  new_URL lh url = Some urlObj ->
  CMBDeepLinks.buildDeepLink lh url seconds
  = match linked urlObj seconds with
    | Some timed => toString lh timed
    | None => url
    end.
Proof.
  intros Hurl. unfold CMBDeepLinks.buildDeepLink, linked. rewrite Hurl. cbv zeta.
  destruct (CMBDeepLinks.is_youtube _); [done|].
  destruct (JS.includes "twitch.tv" _); [done|].
  by destruct (JS.includes "vimeo.com" _).
Qed.

Lemma getSessionKey_same_video (h : Host) (now : Z) (a b : string) (ua ub : URL) :
  parse_url h a = Some ua -> parse_url h b = Some ub ->
  hostname ub = hostname ua -> pathname ub = pathname ua ->
  searchParams_get "v" (searchParams ub) = searchParams_get "v" (searchParams ua) ->
  CMBStorage.getSessionKey h now b = CMBStorage.getSessionKey h now a.
Proof.
  intros Ha Hb Hh Hp Hv.
  unfold CMBStorage.getSessionKey, CMBUtils.extractVideoId. rewrite Ha, Hb. cbv zeta.
  by rewrite Hh, Hp, Hv.
Qed.

(** X29. A deep link leads back to the session of its video.  When the
    browser parses the URL, and the link built from it, into the objects
    the deep links work on, [getSessionKey] of
    [buildDeepLink(url, seconds)] is [getSessionKey] of [url] at the same
    time: the time parameter or fragment the link carries does not enter
    the key. *)
Theorem deep_link_keeps_session_key
    (h : Host) (lh : LinkHost) (url : string) (urlObj : URLObj) (seconds now : Z) :
  new_URL lh url = Some urlObj ->
  parse_url h url = Some (as_URL urlObj) ->
  (forall timed, linked urlObj seconds = Some timed ->
     parse_url h (toString lh timed) = Some (as_URL timed)) ->
  CMBStorage.getSessionKey h now (CMBDeepLinks.buildDeepLink lh url seconds)
  = CMBStorage.getSessionKey h now url.
Proof.
  intros Hurl Hparse Hlink. rewrite (buildDeepLink_linked lh url urlObj seconds Hurl).
  destruct (linked urlObj seconds) as [timed|] eqn:E; [|done].
  destruct (linked_same_video urlObj timed seconds E) as (Hh & Hp & Hv).
  by apply (getSessionKey_same_video h now url (toString lh timed)
              (as_URL urlObj) (as_URL timed) Hparse (Hlink timed eq_refl)).
Qed.

Lemma deep_link_keeps_session_key_witness :
  new_URL BrowserLinks.host "https://www.youtube.com/watch?v=abc&t=5s"
  = Some {| link_hostname := "www.youtube.com"; link_pathname := "/watch";
            link_searchParams := [("v", "abc"); ("t", "5s")]; link_hash := EmptyString |}
  /\ CMBStorage.getSessionKey Browser.host 86400000
       (CMBDeepLinks.buildDeepLink BrowserLinks.host "https://www.youtube.com/watch?v=abc&t=5s"
          3725)
     = CMBStorage.getSessionKey Browser.host 86400000 "https://www.youtube.com/watch?v=abc&t=5s"
  /\ CMBStorage.getSessionKey Browser.host 86400000 "https://www.youtube.com/watch?v=abc&t=5s"
     = "www.youtube.com|abc|1970-01-02".
Proof.
  split; [reflexivity|]. split; [|reflexivity].
  apply (deep_link_keeps_session_key Browser.host BrowserLinks.host
           "https://www.youtube.com/watch?v=abc&t=5s"
           {| link_hostname := "www.youtube.com"; link_pathname := "/watch";
              link_searchParams := [("v", "abc"); ("t", "5s")]; link_hash := EmptyString |}
           3725 86400000).
  - reflexivity.
  - reflexivity.
  - intros timed Ht. injection Ht as Ht. rewrite <- Ht. reflexivity.
Defined.

(** ** Exports and the manual timer *)

(** ** Sorting *)

Lemma insert_sorted_sorted {A} (cmp : A -> A -> Z) (R : A -> A -> Prop) (x : A) (l : list A) :
  (forall a b, cmp a b <= 0 -> R a b) -> (forall a b, ~ cmp a b <= 0 -> R b a) ->
  (forall a b c, R a b -> R b c -> R a c) ->
  StronglySorted R l -> StronglySorted R (JS.insert_sorted cmp x l).
Proof.
  intros Hle Hgt Htrans. induction 1 as [|y l Hl IH Hy]; simpl.
  - repeat constructor.
  - destruct (Z.leb_spec (cmp x y) 0) as [H|H].
    + constructor; [by constructor|].
      constructor; [by apply Hle|].
      eapply Forall_impl; [exact Hy|]. intros z Hz. eapply Htrans; [|exact Hz]. by apply Hle.
    + constructor; [exact IH|].
      rewrite (insert_sorted_Permutation cmp x l).
      constructor; [apply Hgt; lia|exact Hy].
Qed.

Lemma sort_sorted {A} (cmp : A -> A -> Z) (R : A -> A -> Prop) (l : list A) :
  (forall a b, cmp a b <= 0 -> R a b) -> (forall a b, ~ cmp a b <= 0 -> R b a) ->
  (forall a b c, R a b -> R b c -> R a c) ->
  StronglySorted R (JS.sort cmp l).
Proof.
  intros Hle Hgt Htrans. induction l as [|x l IH]; simpl; [constructor|].
  by apply insert_sorted_sorted.
Qed.

Lemma sort_by_t (l : list Marker) : StronglySorted in_time_order (JS.sort CMBExporters.by_t l).
Proof.
  apply sort_sorted; unfold CMBExporters.by_t, in_time_order; intros; lia.
Qed.

(** ** toYouTubeChapters *)

Lemma join_cons (sep line : string) (lines : list string) :
  exists rest, CMBExporters.join sep (line :: lines) = line +:+ rest.
Proof.
  destruct lines as [|l2 lines].
  - exists EmptyString. simpl. by rewrite append_nil_r.
  - eexists. reflexivity.
Qed.

Lemma chapters_head (session : Session) :
  exists first rest,
    CMBExporters.chapters session true = first :: rest /\ marker_t first = 0.
Proof.
  unfold CMBExporters.chapters. cbv zeta. cbn [andb].
  destruct (JS.sort CMBExporters.by_t (markers session)) as [|first rest].
  - by exists CMBExporters.intro, [].
  - destruct (Z.eqb_spec (marker_t first) 0) as [H0|Hne]; cbn [negb].
    + by exists first, rest.
    + by exists CMBExporters.intro, (first :: rest).
Qed.

(** X21. With [insertIntro], the text [toYouTubeChapters] produces for a
    session starts with a chapter at [00:00], whatever the markers are. *)
Theorem chapters_start_at_zero (session : Session) :
  exists rest, CMBExporters.toYouTubeChapters (Some session) true = "00:00 " +:+ rest.
Proof.
  unfold CMBExporters.toYouTubeChapters.
  destruct (chapters_head session) as (first & more & -> & Ht).
  cbn [List.map].
  destruct (join_cons CMBExporters.newline (CMBExporters.chapter_line first)
              (List.map CMBExporters.chapter_line more)) as (rest & ->).
  unfold CMBExporters.chapter_line. rewrite Ht.
  change (CMBExporters.formatTimestamp 0 false) with "00:00".
  rewrite !append_assoc.
  eexists. rewrite !append_cons, append_nil_l. reflexivity.
Qed.

(** X22. When no marker has a negative time, the chapters
    [toYouTubeChapters] formats are in the order of their times, and they
    are the markers of the session, each once, with or without the
    inserted intro. *)
Theorem chapters_in_time_order (session : Session) (insertIntro : bool) :
  (forall m, In m (markers session) -> 0 <= marker_t m) ->
  StronglySorted in_time_order (CMBExporters.chapters session insertIntro)
  /\ (Permutation (CMBExporters.chapters session insertIntro) (markers session)
      \/ Permutation (CMBExporters.chapters session insertIntro)
           (CMBExporters.intro :: markers session)).
Proof.
  intros Hpos. unfold CMBExporters.chapters. cbv zeta.
  pose proof (sort_by_t (markers session)) as Hsorted.
  pose proof (sort_Permutation CMBExporters.by_t (markers session)) as Hperm.
  destruct (insertIntro && _)%bool.
  - split; [|right; by constructor].
    constructor; [exact Hsorted|].
    apply List.Forall_forall. intros m Hin. unfold in_time_order. simpl.
    apply Hpos. by apply (Permutation_in _ Hperm).
  - split; [exact Hsorted|by left].
Qed.

Lemma chapters_in_time_order_witness :
  (forall m, In m (markers (Examples.marked 3)) -> 0 <= marker_t m)
  /\ StronglySorted in_time_order (CMBExporters.chapters (Examples.marked 3) true).
Proof.
  assert (H : forall m, In m (markers (Examples.marked 3)) -> 0 <= marker_t m).
  { intros m Hin. simpl in Hin.
    destruct Hin as [<-|[<-|[<-|[]]]]; intros Hgt; discriminate Hgt. }
  split; [exact H|].
  exact (proj1 (chapters_in_time_order (Examples.marked 3) true H)).
Defined.

(** ** escapeCSV and escapeHtml *)

(** X23. What [escapeCSV] returns never starts with [=], [+], [-] or [@],
    the characters that make a spreadsheet read a cell as a formula; a
    value that does not start with one of them and holds no comma, double
    quote or line break is returned as it is. *)
Theorem escapeCSV_defuses_formulas (value : string) :
  CMBExporters.starts_formula (CMBExporters.escapeCSV value) = false
  /\ (CMBExporters.starts_formula value = false ->
      CMBExporters.needs_quotes value = false ->
      CMBExporters.escapeCSV value = value).
Proof.
  unfold CMBExporters.escapeCSV. cbv zeta. split.
  - destruct (CMBExporters.starts_formula value) eqn:E.
    + rewrite append_cons, append_nil_l. by destruct (CMBExporters.needs_quotes _).
    + by destruct (CMBExporters.needs_quotes value).
  - by intros -> ->.
Qed.

Lemma escapeCSV_defuses_formulas_witness :
  CMBExporters.starts_formula "Intro" = false /\ CMBExporters.needs_quotes "Intro" = false
  /\ CMBExporters.escapeCSV "Intro" = "Intro"
  /\ CMBExporters.starts_formula (CMBExporters.escapeCSV "=HYPERLINK(A1)") = false.
Proof.
  split; [reflexivity|]. split; [reflexivity|].
  split.
  - exact (proj2 (escapeCSV_defuses_formulas "Intro") eq_refl eq_refl).
  - exact (proj1 (escapeCSV_defuses_formulas "=HYPERLINK(A1)")).
Defined.

Lemma occurs_app (c : ascii) (a b : string) :
  occurs c (a +:+ b) = (occurs c a || occurs c b)%bool.
Proof.
  induction a as [|x a IH]; [done|].
  rewrite append_cons. cbn [occurs]. rewrite IH. by rewrite orb_assoc.
Qed.

Lemma replace_char_removes (c : ascii) (rep s : string) :
  occurs c rep = false -> occurs c (JSText.replace_char c rep s) = false.
Proof.
  intros Hrep. induction s as [|a s IH]; [done|]. cbn [JSText.replace_char].
  destruct (Ascii.eqb_spec a c) as [->|Hne].
  - by rewrite occurs_app, Hrep, IH.
  - cbn [occurs]. rewrite IH. by destruct (Ascii.eqb_spec a c).
Qed.

Lemma replace_char_keeps_out (c d : ascii) (rep s : string) :
  occurs c rep = false -> occurs c s = false ->
  occurs c (JSText.replace_char d rep s) = false.
Proof.
  intros Hrep. induction s as [|a s IH]; [done|]. cbn [JSText.replace_char occurs].
  intros [Ha Hs]%orb_false_iff.
  destruct (Ascii.eqb a d).
  - by rewrite occurs_app, Hrep, IH.
  - cbn [occurs]. by rewrite Ha, IH.
Qed.

Lemma replace_char_absent (c : ascii) (rep s : string) :
  occurs c s = false -> JSText.replace_char c rep s = s.
Proof.
  induction s as [|a s IH]; [done|]. cbn [JSText.replace_char occurs].
  intros [Ha Hs]%orb_false_iff. by rewrite Ha, IH.
Qed.

(** X24. What [escapeHtml] returns holds none of the characters [<], [>],
    double quote, single quote and [/]; a text that holds none of them and
    no [&] is returned as it is. *)
Theorem escapeHtml_leaves_no_markup (text : string) :
  let out := CMBExporters.escapeHtml text in
  occurs "<"%char out = false /\ occurs ">"%char out = false
  /\ occurs CMBExporters.dquote out = false /\ occurs "'"%char out = false
  /\ occurs "/"%char out = false
  /\ (occurs "&"%char text = false -> occurs "<"%char text = false ->
      occurs ">"%char text = false -> occurs CMBExporters.dquote text = false ->
      occurs "'"%char text = false -> occurs "/"%char text = false ->
      out = text).
Proof.
  cbv zeta. unfold CMBExporters.escapeHtml.
  repeat split.
  - do 4 (apply replace_char_keeps_out; [reflexivity|]). by apply replace_char_removes.
  - do 3 (apply replace_char_keeps_out; [reflexivity|]). by apply replace_char_removes.
  - do 2 (apply replace_char_keeps_out; [reflexivity|]). by apply replace_char_removes.
  - do 1 (apply replace_char_keeps_out; [reflexivity|]). by apply replace_char_removes.
  - by apply replace_char_removes.
  - intros H1 H2 H3 H4 H5 H6.
    rewrite (replace_char_absent "&"%char _ text H1).
    rewrite (replace_char_absent "<"%char _ text H2).
    rewrite (replace_char_absent ">"%char _ text H3).
    rewrite (replace_char_absent CMBExporters.dquote _ text H4).
    rewrite (replace_char_absent "'"%char _ text H5).
    by rewrite (replace_char_absent "/"%char _ text H6).
Qed.

Lemma escapeHtml_leaves_no_markup_witness :
  occurs "&"%char "Intro" = false
  /\ CMBExporters.escapeHtml "Intro" = "Intro"
  /\ occurs "<"%char (CMBExporters.escapeHtml "<script>alert(1)</script>") = false.
Proof.
  split; [reflexivity|]. split.
  - exact (proj2 (proj2 (proj2 (proj2 (proj2 (escapeHtml_leaves_no_markup "Intro")))))
             eq_refl eq_refl eq_refl eq_refl eq_refl eq_refl).
  - exact (proj1 (escapeHtml_leaves_no_markup "<script>alert(1)</script>")).
Defined.

(** ** generateFilename *)

Lemma tidy_squeezed_underscored (s : string) :
  tidy (CMBExporters.squeezed (CMBExporters.underscored s)) = true.
Proof.
  induction s as [|c s IH]; [done|].
  cbn [CMBExporters.underscored CMBExporters.squeezed].
  destruct (CMBExporters.is_alnum c) eqn:Hc.
  - destruct (Ascii.eqb_spec c "_"%char) as [->|Hne]; [done|].
    cbn [tidy]. rewrite Hc, IH. cbn [orb andb negb]. by destruct (Ascii.eqb_spec c "_"%char).
  - change (Ascii.eqb "_" "_") with true. cbv iota.
    destruct s as [|c' s]; [done|].
    cbn [CMBExporters.underscored] in *.
    destruct (Ascii.eqb_spec (if CMBExporters.is_alnum c' then c' else "_"%char) "_"%char)
      as [E|Hne]; [exact IH|].
    cbn [tidy]. rewrite IH.
    destruct (CMBExporters.squeezed _) as [|c2 s2] eqn:Es.
    + done.
    + change (Ascii.eqb "_" "_") with true. cbn [orb andb].
      assert (c2 = (if CMBExporters.is_alnum c' then c' else "_"%char)) as ->.
      { cbn [CMBExporters.squeezed] in Es.
        destruct (Ascii.eqb_spec (if CMBExporters.is_alnum c' then c' else "_"%char) "_"%char);
          [done|]. by injection Es as <- _. }
      destruct (Ascii.eqb_spec (if CMBExporters.is_alnum c' then c' else "_"%char) "_"%char);
        done.
Qed.

Lemma tidy_substring (n : nat) (s : string) :
  tidy s = true -> tidy (String.substring 0 n s) = true.
Proof.
  revert s. induction n as [|n IH]; intros s; [by destruct s|].
  destruct s as [|c s]; [done|]. cbn [String.substring tidy].
  intros [[Hc Hu]%andb_true_iff Hs]%andb_true_iff.
  rewrite Hc, (IH s Hs). cbn [andb]. rewrite andb_true_r.
  destruct (Ascii.eqb c "_"%char); [|done]. cbn [andb] in *.
  destruct s as [|c' s]; [by destruct n|].
  destruct n; [done|]. exact Hu.
Qed.

Lemma length_substring_le (n : nat) (s : string) :
  (String.length (String.substring 0 n s) <= n)%nat.
Proof.
  revert s. induction n as [|n IH]; intros s; [by destruct s|].
  destruct s as [|c s]; cbn [String.substring String.length]; [lia|].
  specialize (IH s). lia.
Qed.

(** X25. The name [generateFilename] builds is the title part, an
    underscore, the date, a dot and the extension; the title part is at
    most 50 characters long and made of letters, digits and single
    underscores only. *)
Theorem generateFilename_title_is_safe
    (h : Host) (now : Z) (session : Session) (extension : string) :
  CMBExporters.generateFilename h now session extension
  = CMBExporters.fileTitle session +:+ "_" +:+ iso_date h now +:+ "." +:+ extension
  /\ (String.length (CMBExporters.fileTitle session) <= 50)%nat
  /\ tidy (CMBExporters.fileTitle session) = true.
Proof.
  split; [reflexivity|]. split.
  - apply length_substring_le.
  - apply tidy_substring, tidy_squeezed_underscored.
Qed.

(** ** The manual timer *)

Lemma laps_paused (intervals : list (Z * Z)) (t : ManualTimer) :
  exists t',
    laps intervals (Some t) = Some t'
    /\ timer_isActive t' = match intervals with [] => timer_isActive t | _ => false end
    /\ timer_elapsedOffset t' = timer_elapsedOffset t + running_time intervals.
Proof.
  unfold laps. revert t. induction intervals as [|[a b] l IH]; intros t.
  - exists t. simpl. split; [done|]. split; [done|lia].
  - cbn [List.fold_left OverlayTimer.startManualTimer OverlayTimer.pauseManualTimer fst snd
         timer_startedAt timer_elapsedOffset].
    destruct (IH {| timer_isActive := false; timer_startedAt := a;
                    timer_elapsedOffset := timer_elapsedOffset t + (b - a) |})
      as (t' & -> & Hact & Hoff).
    exists t'. split; [done|]. split.
    + rewrite Hact. by destruct l.
    + rewrite Hoff. cbn [timer_elapsedOffset running_time List.fold_right fst snd].
      fold (running_time l). lia.
Qed.

(** X26. The manual timer counts the time it has run.  After being
    started and paused over any sequence of intervals it reads the whole
    seconds of their total length, whatever the time of the reading; once
    started again at [since] it reads the total plus the time since then;
    after a reset it reads [0]. *)
Theorem manual_timer_counts_running_time (intervals : list (Z * Z)) (since now : Z) :
  OverlayTimer.getManualTimerSeconds now (laps intervals None)
  = running_time intervals / 1000
  /\ OverlayTimer.getManualTimerSeconds now
       (OverlayTimer.startManualTimer since (laps intervals None))
     = (running_time intervals + (now - since)) / 1000
  /\ OverlayTimer.getManualTimerSeconds now
       (OverlayTimer.resetManualTimer (laps intervals None)) = 0.
Proof.
  destruct intervals as [|[a b] l].
  - by cbn.
  - assert (E : laps ((a, b) :: l) None
                = laps l (Some {| timer_isActive := false; timer_startedAt := a;
                                  timer_elapsedOffset := 0 + (b - a) |})) by reflexivity.
    rewrite E.
    destruct (laps_paused l {| timer_isActive := false; timer_startedAt := a;
                               timer_elapsedOffset := 0 + (b - a) |})
      as (t' & -> & Hact & Hoff).
    cbn [OverlayTimer.getManualTimerSeconds OverlayTimer.startManualTimer
         OverlayTimer.resetManualTimer timer_isActive timer_startedAt timer_elapsedOffset].
    rewrite Hoff. cbn [timer_elapsedOffset running_time List.fold_right fst snd].
    fold (running_time l).
    assert (timer_isActive t' = false) as -> by (rewrite Hact; by destruct l).
    split; [|split; [|done]]; f_equal; lia.
Qed.
